(** * PointPillars: pillar encoding and anchor-target encoding

    A shallow embedding of [src/point_pillars.cpp] (the functions
    [createPillars], [createPillarsTarget] and the 2D geometry they use),
    followed by the properties the specification states about them.

    Modelling conventions.
    - A C++ [float] is a value of [float] below: a real number, or one of
      the IEEE special values (an infinity or NaN).  The arithmetic is that
      of the real numbers: rounding, and overflow to an infinity, are not
      modelled; the special values follow IEEE 754 (comparisons with NaN
      are false, [x/0] is an infinity or NaN, ...).  The model has a single
      zero, which stands for [+0].  The properties below say which
      operations the code applies to which values, and what its comparisons
      and special values imply; where a property gives the value of an
      expression (the worked examples, the sine of the reduced yaw
      residual), it is the value in this arithmetic.
    - A C++ [int], [uint32_t] or [size_t] is a [Z].  The sums, differences
      and products of [int]s that the source forms (the bounds of the
      zeroing loops, the bounds [xC - offset], [xC + offset] of the search
      window, the cells [xId_0 + dx] of the fallback, [xSize - 1]) are
      undefined behaviour when the result does not fit an [int].  A loop
      counter stays below its bound.  The dimensions of the input arrays,
      which the source keeps in [int] variables, are taken to fit an
      [int].  The conversion of a [float] to an integer type is partial (it
      is undefined behaviour outside the range of the target type).
    - A [pybind11::array_t] is a shape together with a content function;
      [at] and [mutable_at] check the index against the shape and raise an
      index error, as pybind11 does.
    - A function returns an [Outcome]: a value, a raised exception, or
      undefined behaviour.
    - Timing and printing ([printTime]) are not modelled. *)

From Stdlib Require Import Reals Lra Lia ZArith List Bool String Permutation.
From Stdlib Require Import QArith Qround.
Import ListNotations.

Set Implicit Arguments.

(** ** Floating-point values *)

Inductive float : Type :=
| Fin (r : R)
| Inf (negative : bool)
| NaN.

Definition Rltb (a b : R) : bool := if Rlt_dec a b then true else false.
Definition Reqb (a b : R) : bool := if Req_dec_T a b then true else false.

(** Truncation toward zero, the rounding of [fmod] and of float-to-integer
    conversions. *)
Definition Ztrunc (r : R) : Z := if Rltb r 0 then Zceil r else Zfloor r.

Definition fneg (a : float) : float :=
  match a with
  | Fin r => Fin (- r)
  | Inf s => Inf (negb s)
  | NaN => NaN
  end.

Definition fadd (a b : float) : float :=
  match a, b with
  | NaN, _ | _, NaN => NaN
  | Fin x, Fin y => Fin (x + y)
  | Inf s, Fin _ | Fin _, Inf s => Inf s
  | Inf s, Inf t => if Bool.eqb s t then Inf s else NaN
  end.

Definition fsub (a b : float) : float := fadd a (fneg b).

Definition fmul (a b : float) : float :=
  match a, b with
  | NaN, _ | _, NaN => NaN
  | Fin x, Fin y => Fin (x * y)
  | Inf s, Fin y | Fin y, Inf s =>
      if Reqb y 0 then NaN else Inf (xorb s (Rltb y 0))
  | Inf s, Inf t => Inf (xorb s t)
  end.

Definition fdiv (a b : float) : float :=
  match a, b with
  | NaN, _ | _, NaN => NaN
  | Fin x, Fin y =>
      if Reqb y 0
      then (if Reqb x 0 then NaN else Inf (Rltb x 0))
      else Fin (x / y)
  | Fin _, Inf _ => Fin 0
  | Inf s, Fin y => Inf (xorb s (Rltb y 0))
  | Inf _, Inf _ => NaN
  end.

(** [a < b], [a <= b]; [a > b] is [fltb b a] and [a >= b] is [fleb b a]. *)
Definition fltb (a b : float) : bool :=
  match a, b with
  | Fin x, Fin y => Rltb x y
  | Fin _, Inf s => negb s
  | Inf s, Fin _ => s
  | Inf s, Inf t => s && negb t
  | _, _ => false
  end.

Definition fleb (a b : float) : bool :=
  match a, b with
  | Fin x, Fin y => negb (Rltb y x)
  | Fin _, Inf s => negb s
  | Inf s, Fin _ => s
  | Inf s, Inf t => s || negb t
  | _, _ => false
  end.

Definition fgtb (a b : float) : bool := fltb b a.
Definition fgeb (a b : float) : bool := fleb b a.


Definition fabs (a : float) : float :=
  match a with
  | Fin r => Fin (Rabs r)
  | Inf _ => Inf false
  | NaN => NaN
  end.

Definition fsqrt (a : float) : float :=
  match a with
  | Fin r => if Rltb r 0 then NaN else Fin (sqrt r)
  | Inf false => Inf false
  | Inf true => NaN
  | NaN => NaN
  end.

Definition ffloor (a : float) : float :=
  match a with
  | Fin r => Fin (IZR (Zfloor r))
  | _ => a
  end.

Definition fceil (a : float) : float :=
  match a with
  | Fin r => Fin (IZR (Zceil r))
  | _ => a
  end.

Definition fsin (a : float) : float :=
  match a with
  | Fin r => Fin (sin r)
  | _ => NaN
  end.

Definition fcos (a : float) : float :=
  match a with
  | Fin r => Fin (cos r)
  | _ => NaN
  end.

Definition flog (a : float) : float :=
  match a with
  | Fin r =>
      if Rltb r 0 then NaN
      else if Reqb r 0 then Inf true
      else Fin (ln r)
  | Inf false => Inf false
  | Inf true => NaN
  | NaN => NaN
  end.

(** [std::fmod]: the remainder has the sign of the dividend. *)
Definition ffmod (a b : float) : float :=
  match a, b with
  | Fin x, Fin y =>
      if Reqb y 0 then NaN else Fin (x - IZR (Ztrunc (x / y)) * y)
  | Fin x, Inf _ => Fin x
  | _, _ => NaN
  end.

(** [std::pow(a, 2)]. *)
Definition fpow2 (a : float) : float := fmul a a.

(** Conversion of an integer to [float]. *)
Definition of_int (z : Z) : float := Fin (IZR z).

(** [static_cast<int>] and [static_cast<uint32_t>] of a [float]: defined
    when the truncated value fits the target type. *)
Definition static_cast_int (a : float) : option Z :=
  match a with
  | Fin r =>
      let z := Ztrunc r in
      if ((- 2147483648 <=? z) && (z <=? 2147483647))%Z then Some z else None
  | _ => None
  end.

Definition static_cast_uint32 (a : float) : option Z :=
  match a with
  | Fin r =>
      let z := Ztrunc r in
      if ((0 <=? z) && (z <=? 4294967295))%Z then Some z else None
  | _ => None
  end.

Definition M_PI : float := Fin PI.
Definition M_PI_2 : float := Fin (PI / 2).

Definition is_finite (a : float) : bool :=
  match a with
  | Fin _ => true
  | _ => false
  end.

(** [IntPairHash]: the hash of a cell key.  The two [uint32_t] are widened
    to [uint64_t]; the shift is taken modulo [2^64], the size of a
    [uint64_t]. *)
Definition IntPairHash (p : Z * Z) : Z :=
  Z.lor (Z.shiftl (fst p) 32 mod 2 ^ 64) (snd p).

(** The [clamp] template of the source, at type [float]. *)
Definition clamp (v lo hi : float) : float :=
  if fltb v lo then lo else if fltb hi v then hi else v.

(** ** Outcomes of a call *)

Inductive Error : Type :=
| RuntimeError (msg : string)
| IndexError
| ValueError.

Inductive UB : Type :=
| MissingReturn
| FloatToIntOutOfRange
| ShapeIndexOutOfRange
| SignedOverflow.

Inductive Outcome (A : Type) : Type :=
| Returns (a : A)
| Raises (e : Error)
| Undefined (u : UB).

Arguments Returns {A} a.
Arguments Raises {A} e.
Arguments Undefined {A} u.

Definition bind {A B : Type} (m : Outcome A) (k : A -> Outcome B) : Outcome B :=
  match m with
  | Returns a => k a
  | Raises e => Raises e
  | Undefined u => Undefined u
  end.

Declare Scope outcome_scope.
Delimit Scope outcome_scope with outcome.
Notation "x <- m ;; k" := (bind m (fun x => k))
  (at level 61, m at next level, right associativity) : outcome_scope.
Notation "' p <- m ;; k" := (bind m (fun p => k))
  (at level 61, p pattern, m at next level, right associativity) : outcome_scope.
Local Open Scope outcome_scope.

(** A float-to-integer conversion inside a computation. *)
Definition cast (o : option Z) : Outcome Z :=
  match o with
  | Some z => Returns z
  | None => Undefined FloatToIntOutOfRange
  end.

(** A [for] loop over the elements of [l] threading the state [s]. *)
Fixpoint foldM {A S : Type} (f : S -> A -> Outcome S) (l : list A) (s : S)
  : Outcome S :=
  match l with
  | [] => Returns s
  | a :: l' => s' <- f s a ;; foldM f l' s'
  end.

(** The integers [lo], [lo+1], ..., [hi-1] of [for (int i = lo; i < hi; i++)]. *)
Definition range (lo hi : Z) : list Z :=
  map (fun n => (lo + Z.of_nat n)%Z) (seq 0 (Z.to_nat (hi - lo))).

(** Arithmetic on [int]: a sum, difference or product that does not fit an
    [int] is undefined behaviour. *)
Definition INT_MIN : Z := (-2147483648)%Z.
Definition INT_MAX : Z := 2147483647%Z.

Definition int_result (z : Z) : Outcome Z :=
  if ((INT_MIN <=? z) && (z <=? INT_MAX))%Z then Returns z
  else Undefined SignedOverflow.

Definition int_add (a b : Z) : Outcome Z := int_result (a + b).
Definition int_sub (a b : Z) : Outcome Z := int_result (a - b).
Definition int_mul (a b : Z) : Outcome Z := int_result (a * b).

(** The product [n0 * n1 * ...] of [int]s, taken from left to right. *)
Definition int_product (l : list Z) : Outcome Z :=
  match l with
  | [] => Returns 1%Z
  | n :: l' => foldM int_mul l' n
  end.

(** ** Arrays *)

Record NdArray (A : Type) : Type := mkArray {
  shape : list Z;
  data : list Z -> A
}.

Definition ndim {A} (a : NdArray A) : Z := Z.of_nat (List.length (shape a)).

Fixpoint in_bounds (sh idx : list Z) : bool :=
  match sh, idx with
  | [], [] => true
  | n :: sh', i :: idx' => ((0 <=? i) && (i <? n))%Z && in_bounds sh' idx'
  | _, _ => false
  end.

Definition index_eqb (i j : list Z) : bool :=
  if list_eq_dec Z.eq_dec i j then true else false.

(** [a.shape()[k]]. *)
Definition shape_at {A} (a : NdArray A) (k : nat) : Outcome Z :=
  match nth_error (shape a) k with
  | Some n => Returns n
  | None => Undefined ShapeIndexOutOfRange
  end.

(** [a.at(i, j, ...)]. *)
Definition at_ {A} (a : NdArray A) (idx : list Z) : Outcome A :=
  if in_bounds (shape a) idx then Returns (data a idx) else Raises IndexError.

(** [a.mutable_at(i, j, ...) = v]. *)
Definition mutable_at {A} (a : NdArray A) (idx : list Z) (v : A)
  : Outcome (NdArray A) :=
  if in_bounds (shape a) idx
  then Returns (mkArray (shape a)
                  (fun j => if index_eqb j idx then v else data a j))
  else Raises IndexError.

(** [a.resize(sh)] followed by the loop that zeroes the whole buffer,
    [for (size_t idx = 0; idx < n0 * n1 * ...; idx++) ptr[idx] = 0]: the
    bound of the loop is the product of the dimensions, computed on [int]s
    in the order of [sh]. *)
Definition resize_zeros {A} (zero : A) (sh : list Z) : Outcome (NdArray A) :=
  if forallb (fun n => (0 <=? n)%Z) sh
  then bound <- int_product sh ;; Returns (mkArray sh (fun _ => zero))
  else Raises ValueError.

(** ** Geometry *)

Record BoundingBox3D : Type := mkBox {
  box_x : float;
  box_y : float;
  box_z : float;
  box_length : float;
  box_width : float;
  box_height : float;
  box_yaw : float;
  (* For anchors only. *)
  box_base_yaw : float;
  box_classId : float
}.

(** [BoundingBox3D b = {}]. *)
Definition zero_box : BoundingBox3D :=
  mkBox (Fin 0) (Fin 0) (Fin 0) (Fin 0) (Fin 0) (Fin 0) (Fin 0) (Fin 0) (Fin 0).

Record Point2D : Type := mkPoint { pt_x : float; pt_y : float }.

Definition Polyline2D : Type := list Point2D.

(** x-value of the point of intersection of two lines. *)
Definition xIntersect (x1 y1 x2 y2 x3 y3 x4 y4 : float) : float :=
  let num := fsub (fmul (fsub (fmul x1 y2) (fmul y1 x2)) (fsub x3 x4))
                  (fmul (fsub x1 x2) (fsub (fmul x3 y4) (fmul y3 x4))) in
  let den := fsub (fmul (fsub x1 x2) (fsub y3 y4))
                  (fmul (fsub y1 y2) (fsub x3 x4)) in
  fdiv num den.

(** y-value of the point of intersection of two lines. *)
Definition yIntersect (x1 y1 x2 y2 x3 y3 x4 y4 : float) : float :=
  let num := fsub (fmul (fsub (fmul x1 y2) (fmul y1 x2)) (fsub y3 y4))
                  (fmul (fsub y1 y2) (fsub (fmul x3 y4) (fmul y3 x4))) in
  let den := fsub (fmul (fsub x1 x2) (fsub y3 y4))
                  (fmul (fsub y1 y2) (fsub x3 x4)) in
  fdiv num den.

(** The loop of [polygonArea]: [prev] is the vertex [j] before the current
    one. *)
Fixpoint shoelace (prev : Point2D) (polygon : Polyline2D) (area : float)
  : float :=
  match polygon with
  | [] => area
  | p :: rest =>
      shoelace p rest
        (fadd area (fmul (fadd (pt_x prev) (pt_x p))
                         (fsub (pt_y prev) (pt_y p))))
  end.

(** Area of a polygon by the shoelace method. *)
Definition polygonArea (polygon : Polyline2D) : float :=
  fabs (fdiv (shoelace (last polygon (mkPoint (Fin 0) (Fin 0))) polygon (Fin 0))
             (Fin 2)).

Definition rotatedX (x y angle : float) : float :=
  fsub (fmul x (fcos angle)) (fmul y (fsin angle)).

Definition rotatedY (x y angle : float) : float :=
  fadd (fmul x (fsin angle)) (fmul y (fcos angle)).

(** Bounding box in 2D, corners in clockwise order. *)
Definition boundingBox3DToTopDown (box1 : BoundingBox3D) : Polyline2D :=
  let hl := fmul (Fin (1/2)) (box_length box1) in
  let hw := fmul (Fin (1/2)) (box_width box1) in
  let nhl := fmul (Fin (-1/2)) (box_length box1) in
  let nhw := fmul (Fin (-1/2)) (box_width box1) in
  let corner a b :=
    mkPoint (fadd (rotatedX a b (box_yaw box1)) (box_x box1))
            (fadd (rotatedY a b (box_yaw box1)) (box_y box1)) in
  [ corner nhl hw; corner hl hw; corner hl nhw; corner nhl nhw ].

(** The edges [(i, (i+1) % size)] of a closed polygon. *)
Definition edges (poly : Polyline2D) : list (Point2D * Point2D) :=
  combine poly (tl poly ++ firstn 1 poly).

(** The points one polygon edge [(i, k)] contributes when clipped against the
    line through [(x1, y1)] and [(x2, y2)]. *)
Definition clip_edge (x1 y1 x2 y2 : float) (ik : Point2D * Point2D)
  : Polyline2D :=
  let ix := pt_x (fst ik) in
  let iy := pt_y (fst ik) in
  let kx := pt_x (snd ik) in
  let ky := pt_y (snd ik) in
  let i_pos := fsub (fmul (fsub x2 x1) (fsub iy y1))
                    (fmul (fsub y2 y1) (fsub ix x1)) in
  let k_pos := fsub (fmul (fsub x2 x1) (fsub ky y1))
                    (fmul (fsub y2 y1) (fsub kx x1)) in
  if fltb i_pos (Fin 0) && fltb k_pos (Fin 0) then
    (* both points inside: only the second point is added *)
    [ mkPoint kx ky ]
  else if fgeb i_pos (Fin 0) && fltb k_pos (Fin 0) then
    (* only the first point outside: intersection and second point *)
    [ mkPoint (xIntersect x1 y1 x2 y2 ix iy kx ky)
              (yIntersect x1 y1 x2 y2 ix iy kx ky);
      mkPoint kx ky ]
  else if fltb i_pos (Fin 0) && fgeb k_pos (Fin 0) then
    (* only the second point outside: the intersection *)
    [ mkPoint (xIntersect x1 y1 x2 y2 ix iy kx ky)
              (yIntersect x1 y1 x2 y2 ix iy kx ky) ]
  else
    [].

(** Clips all the edges of [poly_points] against one clip edge. *)
Definition clip (poly_points : Polyline2D) (x1 y1 x2 y2 : float) : Polyline2D :=
  flat_map (clip_edge x1 y1 x2 y2) (edges poly_points).

(** Sutherland-Hodgman: the polygon clipped by every edge of the clipper. *)
Definition sutherlandHodgmanClip (poly_points_vector clipper_points : Polyline2D)
  : Polyline2D :=
  fold_left
    (fun clipped (e : Point2D * Point2D) =>
       clip clipped (pt_x (fst e)) (pt_y (fst e)) (pt_x (snd e)) (pt_y (snd e)))
    (edges clipper_points) poly_points_vector.

(** IOU between two bounding boxes. *)
Definition iou (box1 box2 : BoundingBox3D) : float :=
  let box_as_vector := boundingBox3DToTopDown box1 in
  let box_as_vector_2 := boundingBox3DToTopDown box2 in
  let clipped_vector := sutherlandHodgmanClip box_as_vector box_as_vector_2 in
  let area_poly1 := polygonArea box_as_vector in
  let area_poly2 := polygonArea box_as_vector_2 in
  let area_overlap := polygonArea clipped_vector in
  fdiv area_overlap (fsub (fadd area_poly1 area_poly2) area_overlap).

(** The integer overload of [clip]. *)
Definition clip_int (n lower upper : Z) : Z := Z.max lower (Z.min n upper).

(** ** Pillar encoding: [createPillars] *)

Record PillarPoint : Type := mkPillarPoint {
  pp_x : float;
  pp_y : float;
  pp_z : float;
  pp_intensity : float;
  pp_xc : float;
  pp_yc : float;
  pp_zc : float
}.

Record PillarPointRGB : Type := mkPillarPointRGB {
  rgb_x : float;
  rgb_y : float;
  rgb_z : float;
  rgb_intensity : float;
  rgb_xc : float;
  rgb_yc : float;
  rgb_zc : float;
  rgb_r : float;
  rgb_g : float;
  rgb_b : float
}.

(** What the two copies of the emission code use of a point: its fields, the
    assignment of [xc], [yc], [zc], and the channels written after channel 8. *)
Class PillarPointLike (P : Type) : Type := {
  p_x : P -> float;
  p_y : P -> float;
  p_z : P -> float;
  p_intensity : P -> float;
  p_xc : P -> float;
  p_yc : P -> float;
  p_zc : P -> float;
  set_c : P -> float -> float -> float -> P;
  p_extra : P -> list float
}.

#[export] Instance PillarPoint_like : PillarPointLike PillarPoint := {
  p_x := pp_x; p_y := pp_y; p_z := pp_z; p_intensity := pp_intensity;
  p_xc := pp_xc; p_yc := pp_yc; p_zc := pp_zc;
  set_c p xc yc zc :=
    mkPillarPoint (pp_x p) (pp_y p) (pp_z p) (pp_intensity p) xc yc zc;
  p_extra _ := []
}.

#[export] Instance PillarPointRGB_like : PillarPointLike PillarPointRGB := {
  p_x := rgb_x; p_y := rgb_y; p_z := rgb_z; p_intensity := rgb_intensity;
  p_xc := rgb_xc; p_yc := rgb_yc; p_zc := rgb_zc;
  set_c p xc yc zc :=
    mkPillarPointRGB (rgb_x p) (rgb_y p) (rgb_z p) (rgb_intensity p) xc yc zc
                     (rgb_r p) (rgb_g p) (rgb_b p);
  p_extra p := [rgb_r p; rgb_g p; rgb_b p]
}.

(** The [std::unordered_map] from cell keys to point vectors, kept as an
    association list in order of first insertion.  The order in which the
    C++ map is iterated is unspecified: it is the parameter
    [iteration_order] of [createPillars]. *)
Definition Key : Type := (Z * Z)%type.
Definition PillarMap (P : Type) : Type := list (Key * list P).

Definition key_eqb (k k' : Key) : bool :=
  ((fst k =? fst k') && (snd k =? snd k'))%Z.

(** [map[k].emplace_back(p)]. *)
Fixpoint emplace_back {P : Type} (k : Key) (p : P) (map : PillarMap P)
  : PillarMap P :=
  match map with
  | [] => [(k, [p])]
  | (k', ps) :: map' =>
      if key_eqb k k' then (k', ps ++ [p]) :: map'
      else (k', ps) :: emplace_back k p map'
  end.

(** The bounds test shared by both copies of the binning loop. *)
Definition out_of_range (px py pz xMin xMax yMin yMax zMin zMax : float) : bool :=
  fltb px xMin || fgeb px xMax ||
  fltb py yMin || fgeb py yMax ||
  fltb pz zMin || fgeb pz zMax.

(** The [continue] condition of the (n, 4) loop. *)
Definition rejected4 (px py pz xMin xMax yMin yMax zMin zMax minDistance : float)
  : bool :=
  out_of_range px py pz xMin xMax yMin yMax zMin zMax ||
  (fgtb minDistance (Fin 0) &&
   fltb (fadd (fpow2 px) (fpow2 py)) (fpow2 minDistance)).

(** The [continue] condition of the (n, 7) loop. *)
Definition rejected7 (px py pz xMin xMax yMin yMax zMin zMax minDistance : float)
  : bool :=
  out_of_range px py pz xMin xMax yMin yMax zMin zMax.

Definition cell_index (c cMin cStep : float) : float :=
  ffloor (fdiv (fsub c cMin) cStep).

(** One iteration of the binning loop of the (n, 4) branch. *)
Definition bin_point4 (points : NdArray float)
    (xStep yStep xMin xMax yMin yMax zMin zMax minDistance : float)
    (map : PillarMap PillarPoint) (i : Z) : Outcome (PillarMap PillarPoint) :=
  px <- at_ points [i; 0%Z] ;;
  py <- at_ points [i; 1%Z] ;;
  pz <- at_ points [i; 2%Z] ;;
  if rejected4 px py pz xMin xMax yMin yMax zMin zMax minDistance
  then Returns map
  else
    xIndex <- cast (static_cast_uint32 (cell_index px xMin xStep)) ;;
    yIndex <- cast (static_cast_uint32 (cell_index py yMin yStep)) ;;
    pi <- at_ points [i; 3%Z] ;;
    let p := mkPillarPoint px py pz (clamp pi (Fin 0) (Fin 1))
                           (Fin 0) (Fin 0) (Fin 0) in
    Returns (emplace_back (xIndex, yIndex) p map).

(** One iteration of the binning loop of the (n, 7) branch. *)
Definition bin_point7 (points : NdArray float)
    (xStep yStep xMin xMax yMin yMax zMin zMax minDistance : float)
    (map : PillarMap PillarPointRGB) (i : Z)
  : Outcome (PillarMap PillarPointRGB) :=
  px <- at_ points [i; 0%Z] ;;
  py <- at_ points [i; 1%Z] ;;
  pz <- at_ points [i; 2%Z] ;;
  if rejected7 px py pz xMin xMax yMin yMax zMin zMax minDistance
  then Returns map
  else
    xIndex <- cast (static_cast_uint32 (cell_index px xMin xStep)) ;;
    yIndex <- cast (static_cast_uint32 (cell_index py yMin yStep)) ;;
    pi <- at_ points [i; 3%Z] ;;
    pr <- at_ points [i; 4%Z] ;;
    pg <- at_ points [i; 5%Z] ;;
    pb <- at_ points [i; 6%Z] ;;
    let p := mkPillarPointRGB px py pz (clamp pi (Fin 0) (Fin 1))
                              (Fin 0) (Fin 0) (Fin 0) pr pg pb in
    Returns (emplace_back (xIndex, yIndex) p map).

(** [t.mutable_at(prefix..., c) = v] for the channels [c], [c+1], ... in
    turn. *)
Fixpoint write_channels {A : Type} (t : NdArray A) (prefix : list Z) (c : Z)
    (vals : list A) : Outcome (NdArray A) :=
  match vals with
  | [] => Returns t
  | v :: vs =>
      t' <- mutable_at t (prefix ++ [c]) v ;;
      write_channels t' prefix (c + 1)%Z vs
  end.

Section Emission.
Context {P : Type} {PL : PillarPointLike P}.
Variables (maxPointsPerPillar maxPillars : Z).
Variables (xStep yStep xMin yMin : float).

(** [float m = 0; for (p : pts) m += p.f;] *)
Definition sum_field (f : P -> float) (pts : list P) : float :=
  fold_left (fun acc p => fadd acc (f p)) pts (Fin 0).

Definition mean_field (f : P -> float) (pts : list P) : float :=
  fdiv (sum_field f pts) (of_int (Z.of_nat (List.length pts))).

(** The feature row of a point of the pillar with cell indices
    [xIndex], [yIndex]. *)
Definition features (xIndex yIndex : Z) (p : P) : list float :=
  [ p_x p; p_y p; p_z p; p_intensity p;
    p_xc p; p_yc p; p_zc p;
    fsub (p_x p) (fadd (fmul (of_int xIndex) xStep) xMin);
    fsub (p_y p) (fadd (fmul (of_int yIndex) yStep) yMin) ] ++ p_extra p.

(** The loop over the points of one pillar. *)
Fixpoint emit_points (pts : list P) (pillarId pointId xIndex yIndex : Z)
    (tensor : NdArray float) : Outcome (NdArray float) :=
  match pts with
  | [] => Returns tensor
  | p :: rest =>
      if (pointId >=? maxPointsPerPillar)%Z then Returns tensor
      else
        tensor' <- write_channels tensor [0%Z; pillarId; pointId] 0%Z
                     (features xIndex yIndex p) ;;
        emit_points rest pillarId (pointId + 1)%Z xIndex yIndex tensor'
  end.

(** [p.xc = p.x - xMean; ...] for every point of the pillar. *)
Definition center_points (pts : list P) : list P :=
  let xMean := mean_field p_x pts in
  let yMean := mean_field p_y pts in
  let zMean := mean_field p_z pts in
  map (fun p => set_c p (fsub (p_x p) xMean) (fsub (p_y p) yMean)
                        (fsub (p_z p) zMean)) pts.

(** The loop over the map. *)
Fixpoint emit_pillars (entries : PillarMap P) (pillarId : Z)
    (tensor : NdArray float) (indices : NdArray Z)
  : Outcome (NdArray float * NdArray Z) :=
  match entries with
  | [] => Returns (tensor, indices)
  | entry :: rest =>
      if (pillarId >=? maxPillars)%Z then Returns (tensor, indices)
      else
        let pts := snd entry in
        let xMean := mean_field p_x pts in
        let yMean := mean_field p_y pts in
        xIndex <- cast (static_cast_int (cell_index xMean xMin xStep)) ;;
        yIndex <- cast (static_cast_int (cell_index yMean yMin yStep)) ;;
        indices1 <- mutable_at indices [0%Z; pillarId; 1%Z] xIndex ;;
        indices2 <- mutable_at indices1 [0%Z; pillarId; 2%Z] yIndex ;;
        tensor' <- emit_points (center_points pts) pillarId 0%Z
                     xIndex yIndex tensor ;;
        emit_pillars rest (pillarId + 1)%Z tensor' indices2
  end.
End Emission.

(** [createPillars].  [iteration_order] is the order in which the
    [unordered_map] built by the binning loop is iterated. *)
Definition createPillars
    (iteration_order : forall P : Type, PillarMap P -> PillarMap P)
    (points : NdArray float) (maxPointsPerPillar maxPillars : Z)
    (xStep yStep xMin xMax yMin yMax zMin zMax : float)
    (printTime : bool) (minDistance : float)
  : Outcome (NdArray float * NdArray Z) :=
  ncols <- shape_at points 1 ;;
  if (ncols =? 4)%Z then
    if negb (ndim points =? 2)%Z || negb (ncols =? 4)%Z then
      Raises (RuntimeError
        "numpy array with shape (n, 4) expected (n being the number of points)")
    else
      nrows <- shape_at points 0 ;;
      map <- foldM (bin_point4 points xStep yStep xMin xMax yMin yMax zMin zMax
                               minDistance)
                   (range 0 nrows) [] ;;
      tensor <- resize_zeros (Fin 0) [1; maxPillars; maxPointsPerPillar; 9]%Z ;;
      indices <- resize_zeros 0%Z [1; maxPillars; 3]%Z ;;
      emit_pillars maxPointsPerPillar maxPillars xStep yStep xMin yMin
                   (iteration_order _ map) 0%Z tensor indices
  else if (ncols =? 7)%Z then
    if negb (ndim points =? 2)%Z || negb (ncols =? 7)%Z then
      Raises (RuntimeError
        "numpy array with shape (n, 7) expected (n being the number of points)")
    else
      nrows <- shape_at points 0 ;;
      map <- foldM (bin_point7 points xStep yStep xMin xMax yMin yMax zMin zMax
                               minDistance)
                   (range 0 nrows) [] ;;
      tensor <- resize_zeros (Fin 0) [1; maxPillars; maxPointsPerPillar; 12]%Z ;;
      indices <- resize_zeros 0%Z [1; maxPillars; 3]%Z ;;
      emit_pillars maxPointsPerPillar maxPillars xStep yStep xMin yMin
                   (iteration_order _ map) 0%Z tensor indices
  else
    (* control reaches the end of the function without a return statement *)
    Undefined MissingReturn.

(** ** Anchor target encoding: [createPillarsTarget] *)

(** The anchor loop of the source writes [x], [y] and [yaw] of the anchor it
    visits before it uses them and changes no other field, so the visited
    anchor is the parsed anchor with these three fields replaced. *)
Definition place (anchorBox : BoundingBox3D) (x y yaw : float) : BoundingBox3D :=
  mkBox x y (box_z anchorBox) (box_length anchorBox) (box_width anchorBox)
        (box_height anchorBox) yaw (box_base_yaw anchorBox)
        (box_classId anchorBox).

(** The parsing loop of the anchors: [anchorBoxes] and [anchorDiagonals]. *)
Definition parse_anchor (anchorDimensions anchorZHeights anchorYaws : NdArray float)
    (acc : list BoundingBox3D * list float) (i : Z)
  : Outcome (list BoundingBox3D * list float) :=
  l <- at_ anchorDimensions [i; 0%Z] ;;
  w <- at_ anchorDimensions [i; 1%Z] ;;
  h <- at_ anchorDimensions [i; 2%Z] ;;
  z <- at_ anchorZHeights [i] ;;
  yaw <- at_ anchorYaws [i] ;;
  let anchorBox := mkBox (Fin 0) (Fin 0) z l w h yaw yaw (Fin 0) in
  Returns (fst acc ++ [anchorBox],
           snd acc ++ [fsqrt (fadd (fpow2 w) (fpow2 l))]).

(** The bounds test of the label parsing loop. *)
Definition label_out_of_range (x y xMin xMax yMin yMax : float) : bool :=
  fltb x xMin || fgeb x xMax || fltb y yMin || fgeb y yMax.

(** The parsing loop of the ground-truth boxes: [labelBoxes]. *)
Definition parse_label (objectPositions objectDimensions objectYaws : NdArray float)
    (objectClassIds : NdArray Z) (xMin xMax yMin yMax : float)
    (labelBoxes : list BoundingBox3D) (i : Z) : Outcome (list BoundingBox3D) :=
  x <- at_ objectPositions [i; 0%Z] ;;
  y <- at_ objectPositions [i; 1%Z] ;;
  (* Exclude equality on max values since this does not fit into the
     discretized grid. *)
  if label_out_of_range x y xMin xMax yMin yMax then Returns labelBoxes
  else
    z <- at_ objectPositions [i; 2%Z] ;;
    l <- at_ objectDimensions [i; 0%Z] ;;
    w <- at_ objectDimensions [i; 1%Z] ;;
    h <- at_ objectDimensions [i; 2%Z] ;;
    yaw <- at_ objectYaws [i] ;;
    classId <- at_ objectClassIds [i] ;;
    Returns (labelBoxes ++
             [mkBox x y z l w h yaw (Fin 0) (of_int classId)]).

(** [delta_yaw_no]: the yaw residual of a box that is not oriented. *)
Definition delta_yaw_no (labelBox anchorBox : BoundingBox3D) : float :=
  ffmod (fsub (box_yaw labelBox) (box_base_yaw anchorBox)) M_PI.

(** Channel 7: the sine of the residual reduced to [-pi/2, pi/2]. *)
Definition sin_residual (d : float) : float :=
  fsin (if fgtb (fabs d) M_PI_2 then fneg d else d).

(** [delta_yaw_o]: the oriented yaw residual. *)
Definition delta_yaw_o (labelBox anchorBox : BoundingBox3D) : float :=
  ffmod (fsub (box_yaw labelBox) (box_base_yaw anchorBox))
        (fmul (Fin 2) M_PI).

(** Channel 8: the heading-flip flag. *)
Definition heading_flip (d : float) : float :=
  if fltb (fabs d) M_PI_2 && fgtb (fabs d) (fmul (Fin (3/2)) M_PI)
  then Fin 1 else Fin 0.

(** The cell coordinate [id * step * downscalingFactor + min]. *)
Definition cell_coord (id : Z) (step : float) (downscalingFactor : Z)
    (cMin : float) : float :=
  fadd (fmul (fmul (of_int id) step) (of_int downscalingFactor)) cMin.

(** The grid index [floor((c - min) / (step * downscalingFactor))]. *)
Definition grid_index (c cMin step : float) (downscalingFactor : Z) : float :=
  ffloor (fdiv (fsub c cMin) (fmul step (of_int downscalingFactor))).

Record SearchState : Type := mkSearch {
  s_tensor : NdArray float;
  maxIou : float;
  bestAnchor : BoundingBox3D;
  bestAnchorId : Z
}.

Section TargetEncoding.
Variables (positiveThreshold negativeThreshold angle_threshold : float).
Variables (downscalingFactor : Z).
Variables (xStep yStep xMin yMin : float).
Variables (xSize ySize : Z).
Variable (anchorDiagonals : list float).

(** The yaw given to the visited anchor. *)
Definition anchor_yaw (labelBox anchorBox : BoundingBox3D) : float :=
  let d := delta_yaw_no labelBox anchorBox in
  if fltb (fabs d) angle_threshold
     || fltb (fsub M_PI (fabs d)) angle_threshold
  then
    (* Override the anchor yaw to the label yaw in order to sufficiently
       cover rotated boxes between anchors. *)
    box_yaw labelBox
  else
    (* Otherwise the anchor rotation is set to the baseline yaw. *)
    box_base_yaw anchorBox.

(** The ten channels written for an anchor matched above the positive
    threshold. *)
Definition positive_row (labelBox anchorBox : BoundingBox3D) (diag : float)
  : list float :=
  [ Fin 1;
    fdiv (fsub (box_x labelBox) (box_x anchorBox)) diag;
    fdiv (fsub (box_y labelBox) (box_y anchorBox)) diag;
    fdiv (fsub (box_z labelBox) (box_z anchorBox)) (box_height anchorBox);
    flog (fdiv (box_length labelBox) (box_length anchorBox));
    flog (fdiv (box_width labelBox) (box_width anchorBox));
    flog (fdiv (box_height labelBox) (box_height anchorBox));
    sin_residual (delta_yaw_no labelBox anchorBox);
    heading_flip (delta_yaw_o labelBox anchorBox);
    box_classId labelBox ].

(** The body of the loop over the anchors at the cell [(xId, yId)] with
    world coordinates [(x, y)]. *)
Definition match_anchor (labelBox : BoundingBox3D) (objectCount xId yId : Z)
    (x y : float) (st : SearchState) (anchorCount : Z)
    (anchorBox0 : BoundingBox3D) : Outcome SearchState :=
  let anchorBox := place anchorBox0 x y (anchor_yaw labelBox anchorBox0) in
  let iouOverlap := iou anchorBox labelBox in
  let st1 :=
    if fltb (maxIou st) iouOverlap
    then mkSearch (s_tensor st) iouOverlap anchorBox anchorCount
    else st in
  tensor <-
    (if fgtb iouOverlap positiveThreshold then
       let diag := nth (Z.to_nat anchorCount) anchorDiagonals (Fin 0) in
       write_channels (s_tensor st1) [objectCount; xId; yId; anchorCount] 0%Z
         (positive_row labelBox anchorBox diag)
     else if fltb iouOverlap negativeThreshold then
       mutable_at (s_tensor st1) [objectCount; xId; yId; anchorCount; 0%Z]
                  (Fin 0)
     else
       mutable_at (s_tensor st1) [objectCount; xId; yId; anchorCount; 0%Z]
                  (Fin (-1))) ;;
  Returns (mkSearch tensor (maxIou st1) (bestAnchor st1) (bestAnchorId st1)).

(** The loop over the anchors. *)
Fixpoint match_anchors (labelBox : BoundingBox3D) (objectCount xId yId : Z)
    (x y : float) (anchorBoxes : list BoundingBox3D) (anchorCount : Z)
    (st : SearchState) : Outcome SearchState :=
  match anchorBoxes with
  | [] => Returns st
  | anchorBox :: rest =>
      st' <- match_anchor labelBox objectCount xId yId x y st anchorCount
               anchorBox ;;
      match_anchors labelBox objectCount xId yId x y rest (anchorCount + 1)%Z
                    st'
  end.

(** The loops over the candidate cells. *)
Definition search_column (labelBox : BoundingBox3D) (objectCount : Z)
    (anchorBoxes : list BoundingBox3D) (yStart yEnd : Z)
    (st : SearchState) (xId : Z) : Outcome SearchState :=
  let x := cell_coord xId xStep downscalingFactor xMin in
  foldM (fun st' yId =>
           let y := cell_coord yId yStep downscalingFactor yMin in
           match_anchors labelBox objectCount xId yId x y anchorBoxes 0%Z st')
        (range yStart yEnd) st.

Definition search (labelBox : BoundingBox3D) (objectCount : Z)
    (anchorBoxes : list BoundingBox3D) (xStart xEnd yStart yEnd : Z)
    (tensor : NdArray float) : Outcome SearchState :=
  foldM (search_column labelBox objectCount anchorBoxes yStart yEnd)
        (range xStart xEnd)
        (mkSearch tensor (Fin 0) zero_box 0%Z).

(** The ten channels the fallback writes at the home cell [(xId, yId)]. *)
Definition fallback_row (labelBox best : BoundingBox3D) (xId yId : Z)
  : list float :=
  let diag := fsqrt (fadd (fpow2 (box_width best)) (fpow2 (box_length best))) in
  let x := cell_coord xId xStep downscalingFactor xMin in
  let y := cell_coord yId yStep downscalingFactor yMin in
  [ Fin 1;
    fdiv (fsub (box_x labelBox) x) diag;
    fdiv (fsub (box_y labelBox) y) diag;
    fdiv (fsub (box_z labelBox) (box_z best)) (box_height best);
    flog (fdiv (box_length labelBox) (box_length best));
    flog (fdiv (box_width labelBox) (box_width best));
    flog (fdiv (box_height labelBox) (box_height best));
    sin_residual (delta_yaw_no labelBox best);
    heading_flip (delta_yaw_o labelBox best);
    box_classId labelBox ].

(** The body of the fallback loops at the offset [(dx, dy)]. *)
Definition fallback_cell (labelBox best : BoundingBox3D)
    (objectCount bestId xId_0 yId_0 dx : Z) (tensor : NdArray float) (dy : Z)
  : Outcome (NdArray float) :=
  (* Get current x and y id from xId_0 and yId_0. *)
  xd <- int_add xId_0 dx ;;
  xLast <- int_sub xSize 1 ;;
  let xId := clip_int xd 0 xLast in
  yd <- int_add yId_0 dy ;;
  yLast <- int_sub ySize 1 ;;
  let yId := clip_int yd 0 yLast in
  if ((dx =? 0) && (dy =? 0))%Z then
    (* Set as occupied for the actual best anchor. *)
    write_channels tensor [objectCount; xId; yId; bestId] 0%Z
      (fallback_row labelBox best xId yId)
  else if ((0 <=? xd) && (xd <? xSize) && (0 <=? yd) && (yd <? ySize))%Z then
    (* Set to -1 in order to not penalize for scores in the surrounding of
       the object. *)
    mutable_at tensor [objectCount; xId; yId; bestId; 0%Z] (Fin (-1))
  else
    Returns tensor.

Definition fallback (labelBox best : BoundingBox3D)
    (objectCount bestId xId_0 yId_0 : Z) (tensor : NdArray float)
  : Outcome (NdArray float) :=
  foldM (fun t dx =>
           foldM (fallback_cell labelBox best objectCount bestId xId_0 yId_0 dx)
                 (range (-2) 3) t)
        (range (-2) 3) tensor.

(** The body of the loop over the label boxes; the state is the tensor and
    [objectCount]. *)
Definition process_object (anchorBoxes : list BoundingBox3D)
    (st : NdArray float * Z) (labelBox : BoundingBox3D)
  : Outcome (NdArray float * Z) :=
  let tensor := fst st in
  let objectCount := snd st in
  (* zone-in on potential spatial area of interest *)
  let objectDiameter :=
    fsqrt (fadd (fpow2 (box_width labelBox)) (fpow2 (box_length labelBox))) in
  offset <- cast (static_cast_int
              (fceil (fdiv objectDiameter
                           (fmul xStep (of_int downscalingFactor))))) ;;
  xC <- cast (static_cast_int
          (grid_index (box_x labelBox) xMin xStep downscalingFactor)) ;;
  xLow <- int_sub xC offset ;;
  let xStart := clip_int xLow 0 xSize in
  xHigh <- int_add xC offset ;;
  let xEnd := clip_int xHigh 0 xSize in
  yC <- cast (static_cast_int
          (grid_index (box_y labelBox) yMin yStep downscalingFactor)) ;;
  yLow <- int_sub yC offset ;;
  let yStart := clip_int yLow 0 ySize in
  yHigh <- int_add yC offset ;;
  let yEnd := clip_int yHigh 0 ySize in
  found <- search labelBox objectCount anchorBoxes xStart xEnd yStart yEnd
             tensor ;;
  tensor' <-
    (if fltb (maxIou found) positiveThreshold then
       xId_0 <- cast (static_cast_int
                  (grid_index (box_x labelBox) xMin xStep downscalingFactor)) ;;
       yId_0 <- cast (static_cast_int
                  (grid_index (box_y labelBox) yMin yStep downscalingFactor)) ;;
       fallback labelBox (bestAnchor found) objectCount (bestAnchorId found)
                xId_0 yId_0 (s_tensor found)
     else Returns (s_tensor found)) ;;
  Returns (tensor', (objectCount + 1)%Z).
End TargetEncoding.

Definition createPillarsTarget
    (objectPositions objectDimensions objectYaws : NdArray float)
    (objectClassIds : NdArray Z)
    (anchorDimensions anchorZHeights anchorYaws : NdArray float)
    (positiveThreshold negativeThreshold angle_threshold : float)
    (nbClasses downscalingFactor : Z)
    (xStep yStep xMin xMax yMin yMax zMin zMax : float) (printTime : bool)
  : Outcome (NdArray float) :=
  xSize <- cast (static_cast_int
             (grid_index xMax xMin xStep downscalingFactor)) ;;
  ySize <- cast (static_cast_int
             (grid_index yMax yMin yStep downscalingFactor)) ;;
  nbAnchors <- shape_at anchorDimensions 0 ;;
  if (nbAnchors <=? 0)%Z then Raises (RuntimeError "Anchor length is zero")
  else
    nbObjects <- shape_at objectDimensions 0 ;;
    if (nbObjects <=? 0)%Z then Raises (RuntimeError "Object length is zero")
    else
      anchors <- foldM (parse_anchor anchorDimensions anchorZHeights anchorYaws)
                       (range 0 nbAnchors) ([], []) ;;
      labelBoxes <- foldM (parse_label objectPositions objectDimensions
                             objectYaws objectClassIds xMin xMax yMin yMax)
                          (range 0 nbObjects) [] ;;
      tensor <- resize_zeros (Fin 0) [nbObjects; xSize; ySize; nbAnchors; 10]%Z ;;
      final <- foldM (process_object positiveThreshold negativeThreshold
                        angle_threshold downscalingFactor xStep yStep xMin yMin
                        xSize ySize (snd anchors) (fst anchors))
                     labelBoxes (tensor, 0%Z) ;;
      Returns (fst final).

(** * Vocabulary of the statements *)

(** Channel 8 is 0 at every position. *)
Definition channel8_zero (t : NdArray float) : Prop :=
  forall o x y a, data t [o; x; y; a; 8%Z] = Fin 0.

(** [offset]: the half-width of the search window, in cells. *)
Definition search_offset (labelBox : BoundingBox3D) (xStep : float)
    (downscalingFactor : Z) : option Z :=
  static_cast_int
    (fceil (fdiv (fsqrt (fadd (fpow2 (box_width labelBox))
                              (fpow2 (box_length labelBox))))
                 (fmul xStep (of_int downscalingFactor)))).

(** [xC], [yC], [xId_0], [yId_0], [xSize], [ySize]. *)
Definition home_index (c cMin step : float) (downscalingFactor : Z) : option Z :=
  static_cast_int (grid_index c cMin step downscalingFactor).

(** The centre of a label box passes the bounds test of the parsing loop. *)
Definition label_in_range (xMin xMax yMin yMax : float) (lb : BoundingBox3D)
  : Prop :=
  label_out_of_range (box_x lb) (box_y lb) xMin xMax yMin yMax = false.

(** The search state in which no candidate has become the best anchor. *)
Definition untouched (st : SearchState) : Prop :=
  maxIou st = Fin 0 /\ bestAnchor st = zero_box /\ bestAnchorId st = 0%Z.

(** Row [i] of [objectPositions] passes the bounds test of the parsing
    loop. *)
Definition row_in_range (objectPositions : NdArray float)
    (xMin xMax yMin yMax : float) (i : Z) : bool :=
  negb (label_out_of_range (data objectPositions [i; 0%Z])
                           (data objectPositions [i; 1%Z])
                           xMin xMax yMin yMax).

(** The centre of a label box and of row [i] of [objectPositions]. *)
Definition box_xy (lb : BoundingBox3D) : float * float := (box_x lb, box_y lb).

Definition row_xy (objectPositions : NdArray float) (i : Z) : float * float :=
  (data objectPositions [i; 0%Z], data objectPositions [i; 1%Z]).

(** The points binned under the key [k]. *)
Fixpoint lookup {P : Type} (k : Key) (m : PillarMap P) : list P :=
  match m with
  | [] => []
  | (k', ps) :: m' => if key_eqb k k' then ps else lookup k m'
  end.

(** Whether row [i] is binned under the key [k], given which rows the loop
    skips and the key it computes for a row. *)
Definition row_in_cell (row_skipped : Z -> bool) (row_key : Z -> option Key)
    (k : Key) (i : Z) : bool :=
  negb (row_skipped i) &&
  match row_key i with
  | Some k' => key_eqb k k'
  | None => false
  end.

(** Whether the binning loop skips row [i] of the input ([ncols] is 4 or 7). *)
Definition row_skipped (ncols : Z) (points : NdArray float)
    (xMin xMax yMin yMax zMin zMax minDistance : float) (i : Z) : bool :=
  (if (ncols =? 4)%Z then rejected4 else rejected7)
    (data points [i; 0%Z]) (data points [i; 1%Z]) (data points [i; 2%Z])
    xMin xMax yMin yMax zMin zMax minDistance.

(** The cell key [(xIndex, yIndex)] the binning loop computes for row [i]. *)
Definition row_key (points : NdArray float) (xStep yStep xMin yMin : float)
    (i : Z) : option Key :=
  match static_cast_uint32 (cell_index (data points [i; 0%Z]) xMin xStep),
        static_cast_uint32 (cell_index (data points [i; 1%Z]) yMin yStep) with
  | Some a, Some b => Some (a, b)
  | _, _ => None
  end.

(** The rows of the input binned under the key [k], in input order. *)
Definition rows_of_cell (ncols : Z) (points : NdArray float)
    (xStep yStep xMin xMax yMin yMax zMin zMax minDistance : float)
    (nrows : Z) (k : Key) : list Z :=
  filter (row_in_cell
            (row_skipped ncols points xMin xMax yMin yMax zMin zMax minDistance)
            (row_key points xStep yStep xMin yMin) k)
         (range 0 nrows).

(** The points the two binning loops build from row [i]. *)
Definition row_point4 (points : NdArray float) (i : Z) : PillarPoint :=
  mkPillarPoint (data points [i; 0%Z]) (data points [i; 1%Z])
                (data points [i; 2%Z])
                (clamp (data points [i; 3%Z]) (Fin 0) (Fin 1))
                (Fin 0) (Fin 0) (Fin 0).

Definition row_point7 (points : NdArray float) (i : Z) : PillarPointRGB :=
  mkPillarPointRGB (data points [i; 0%Z]) (data points [i; 1%Z])
                   (data points [i; 2%Z])
                   (clamp (data points [i; 3%Z]) (Fin 0) (Fin 1))
                   (Fin 0) (Fin 0) (Fin 0)
                   (data points [i; 4%Z]) (data points [i; 5%Z])
                   (data points [i; 6%Z]).

(** The mean the emission loop takes of column [c] over the rows [rows]:
    [float m = 0; for (p : pts) m += p.c; m /= pts.size();]. *)
Definition column_mean (points : NdArray float) (c : Z) (rows : list Z)
  : float :=
  fdiv (fold_left (fun acc i => fadd acc (data points [i; c])) rows (Fin 0))
       (of_int (Z.of_nat (List.length rows))).

(** What the tensors hold when the occupied cells, in the order in which the
    map is iterated, are [cells].  The indices [xIndex], [yIndex] of a
    pillar are the ones the emission loop computes from the means of its
    points. *)
Definition pillars_written (ncols : Z) (points : NdArray float)
    (maxPointsPerPillar maxPillars : Z)
    (xStep yStep xMin xMax yMin yMax zMin zMax minDistance : float)
    (nrows : Z) (cells : list Key)
    (tensor : NdArray float) (indices : NdArray Z) : Prop :=
  let rows_of := rows_of_cell ncols points xStep yStep xMin xMax yMin yMax
                              zMin zMax minDistance nrows in
  let emitted := firstn (Z.to_nat maxPillars) cells in
  NoDup cells /\
  (forall k, In k cells <-> rows_of k <> []) /\
  (forall s k, nth_error emitted s = Some k ->
     exists xIndex yIndex,
       static_cast_int
         (cell_index (column_mean points 0 (rows_of k)) xMin xStep)
         = Some xIndex /\
       static_cast_int
         (cell_index (column_mean points 1 (rows_of k)) yMin yStep)
         = Some yIndex /\
       data indices [0; Z.of_nat s; 1]%Z = xIndex /\
       data indices [0; Z.of_nat s; 2]%Z = yIndex /\
       (forall j i, nth_error (rows_of k) j = Some i ->
          (Z.of_nat j < maxPointsPerPillar)%Z ->
          data tensor [0; Z.of_nat s; Z.of_nat j; 0]%Z = data points [i; 0%Z] /\
          data tensor [0; Z.of_nat s; Z.of_nat j; 1]%Z = data points [i; 1%Z] /\
          data tensor [0; Z.of_nat s; Z.of_nat j; 2]%Z = data points [i; 2%Z] /\
          data tensor [0; Z.of_nat s; Z.of_nat j; 3]%Z
            = clamp (data points [i; 3%Z]) (Fin 0) (Fin 1) /\
          data tensor [0; Z.of_nat s; Z.of_nat j; 4]%Z
            = fsub (data points [i; 0%Z]) (column_mean points 0 (rows_of k)) /\
          data tensor [0; Z.of_nat s; Z.of_nat j; 5]%Z
            = fsub (data points [i; 1%Z]) (column_mean points 1 (rows_of k)) /\
          data tensor [0; Z.of_nat s; Z.of_nat j; 6]%Z
            = fsub (data points [i; 2%Z]) (column_mean points 2 (rows_of k)) /\
          data tensor [0; Z.of_nat s; Z.of_nat j; 7]%Z
            = fsub (data points [i; 0%Z])
                   (fadd (fmul (of_int xIndex) xStep) xMin) /\
          data tensor [0; Z.of_nat s; Z.of_nat j; 8]%Z
            = fsub (data points [i; 1%Z])
                   (fadd (fmul (of_int yIndex) yStep) yMin) /\
          (ncols = 7%Z ->
           data tensor [0; Z.of_nat s; Z.of_nat j; 9]%Z = data points [i; 4%Z] /\
           data tensor [0; Z.of_nat s; Z.of_nat j; 10]%Z
             = data points [i; 5%Z] /\
           data tensor [0; Z.of_nat s; Z.of_nat j; 11]%Z
             = data points [i; 6%Z])) /\
       (forall b j c,
          (Z.of_nat (List.length (rows_of k)) <= j \/ maxPointsPerPillar <= j
           \/ j < 0)%Z ->
          data tensor [b; Z.of_nat s; j; c] = Fin 0)) /\
  (forall b s j c,
     (s < 0 \/ Z.of_nat (List.length emitted) <= s)%Z ->
     data tensor [b; s; j; c] = Fin 0) /\
  (forall b s c,
     (s < 0 \/ Z.of_nat (List.length emitted) <= s)%Z ->
     data indices [b; s; c] = 0%Z).

(** The search loops without the writes into the tensor: the running
    maximum IOU, the anchor that reached it, as placed, and its index. *)
Definition best_step (angle_threshold : float) (labelBox : BoundingBox3D)
    (x y : float) (acc : float * BoundingBox3D * Z) (anchorCount : Z)
    (anchorBox0 : BoundingBox3D) : float * BoundingBox3D * Z :=
  let anchorBox :=
    place anchorBox0 x y (anchor_yaw angle_threshold labelBox anchorBox0) in
  let iouOverlap := iou anchorBox labelBox in
  if fltb (fst (fst acc)) iouOverlap then (iouOverlap, anchorBox, anchorCount)
  else acc.

(** The loop over the anchors at one cell, then the loops over the cells. *)
Fixpoint best_anchors (angle_threshold : float) (labelBox : BoundingBox3D)
    (x y : float) (anchorBoxes : list BoundingBox3D) (anchorCount : Z)
    (acc : float * BoundingBox3D * Z) : float * BoundingBox3D * Z :=
  match anchorBoxes with
  | [] => acc
  | anchorBox :: rest =>
      best_anchors angle_threshold labelBox x y rest (anchorCount + 1)%Z
        (best_step angle_threshold labelBox x y acc anchorCount anchorBox)
  end.

Definition best_match (angle_threshold : float) (downscalingFactor : Z)
    (xStep yStep xMin yMin : float) (labelBox : BoundingBox3D)
    (anchorBoxes : list BoundingBox3D) (xStart xEnd yStart yEnd : Z)
  : float * BoundingBox3D * Z :=
  fold_left
    (fun acc xId =>
       fold_left
         (fun acc' yId =>
            best_anchors angle_threshold labelBox
              (cell_coord xId xStep downscalingFactor xMin)
              (cell_coord yId yStep downscalingFactor yMin)
              anchorBoxes 0%Z acc')
         (range yStart yEnd) acc)
    (range xStart xEnd) (Fin 0, zero_box, 0%Z).

(** The part of the search state the writes do not touch. *)
Definition track (st : SearchState) : float * BoundingBox3D * Z :=
  (maxIou st, bestAnchor st, bestAnchorId st).

(** What a call computes before the loop over the label boxes. *)
Definition target_setup
    (objectPositions objectDimensions objectYaws : NdArray float)
    (objectClassIds : NdArray Z)
    (anchorDimensions anchorZHeights anchorYaws : NdArray float)
    (downscalingFactor : Z) (xStep yStep xMin xMax yMin yMax : float)
    (xSize ySize nbAnchors nbObjects : Z)
    (anchorBoxes : list BoundingBox3D) (anchorDiagonals : list float)
    (labelBoxes : list BoundingBox3D) : Prop :=
  home_index xMax xMin xStep downscalingFactor = Some xSize /\
  home_index yMax yMin yStep downscalingFactor = Some ySize /\
  shape_at anchorDimensions 0 = Returns nbAnchors /\
  shape_at objectDimensions 0 = Returns nbObjects /\
  foldM (parse_anchor anchorDimensions anchorZHeights anchorYaws)
        (range 0 nbAnchors) ([], []) = Returns (anchorBoxes, anchorDiagonals) /\
  foldM (parse_label objectPositions objectDimensions objectYaws
           objectClassIds xMin xMax yMin yMax)
        (range 0 nbObjects) [] = Returns labelBoxes.

(** The window of candidate cells and the home cell of a label box. *)
Definition object_window (lb : BoundingBox3D) (downscalingFactor : Z)
    (xStep yStep xMin yMin : float) (offset xC yC : Z) : Prop :=
  search_offset lb xStep downscalingFactor = Some offset /\
  home_index (box_x lb) xMin xStep downscalingFactor = Some xC /\
  home_index (box_y lb) yMin yStep downscalingFactor = Some yC.

(** A point with finite coordinates. *)
Definition RP (x y : R) : Point2D := mkPoint (Fin x) (Fin y).

(** ** Points with finite coordinates *)

Definition point : Type := (R * R)%type.

(** A clip edge, from its first point to its second. *)
Definition line : Type := (point * point)%type.

Definition toP (p : point) : Point2D := RP (fst p) (snd p).

(** The value [i_pos] (or [k_pos]) of [clip_edge]: negative on the inner
    side of the clip edge. *)
Definition side (h : line) (p : point) : R :=
  ((fst (snd h) - fst (fst h)) * (snd p - snd (fst h))
   - (snd (snd h) - snd (fst h)) * (fst p - fst (fst h)))%R.

(** ** Further vocabulary *)

(** A value of type [uint32_t]. *)
Definition is_uint32 (z : Z) : Prop := (0 <= z < 2 ^ 32)%Z.

(** The error messages of [createPillars]. *)
Definition shape_error (ncols : Z) : string :=
  if (ncols =? 4)%Z
  then "numpy array with shape (n, 4) expected (n being the number of points)"
  else "numpy array with shape (n, 7) expected (n being the number of points)".

(** The number of channels of the feature tensor. *)
Definition nb_channels (ncols : Z) : Z := if (ncols =? 4)%Z then 9%Z else 12%Z.


(** The value [z] of an expression of type [int] is representable. *)
Definition fits_int (z : Z) : Prop := (INT_MIN <= z <= INT_MAX)%Z.

(** The sums and differences of type [int] that [process_object] forms for
    a label box with the window [offset] and the home cell [(xC, yC)] are
    representable: [xC - offset], [xC + offset], [yC - offset],
    [yC + offset] of the search and [xId_0 + dx], [yId_0 + dy] of the
    fallback, with [dx], [dy] from -2 to 2. *)
Definition window_fits_int (offset xC yC : Z) : Prop :=
  fits_int (xC - offset) /\ fits_int (xC + offset) /\
  fits_int (yC - offset) /\ fits_int (yC + offset) /\
  fits_int (xC - 2) /\ fits_int (xC + 2) /\
  fits_int (yC - 2) /\ fits_int (yC + 2).

(** The label box the parsing loop builds from row [i] of the object
    arrays. *)
Definition row_box (objectPositions objectDimensions objectYaws : NdArray float)
    (objectClassIds : NdArray Z) (i : Z) : BoundingBox3D :=
  mkBox (data objectPositions [i; 0%Z]) (data objectPositions [i; 1%Z])
        (data objectPositions [i; 2%Z])
        (data objectDimensions [i; 0%Z]) (data objectDimensions [i; 1%Z])
        (data objectDimensions [i; 2%Z])
        (data objectYaws [i]) (Fin 0) (of_int (data objectClassIds [i])).

(** The anchor box and the diagonal the parsing loop builds from row [i] of
    the anchor arrays. *)
Definition row_anchor (anchorDimensions anchorZHeights anchorYaws : NdArray float)
    (i : Z) : BoundingBox3D :=
  mkBox (Fin 0) (Fin 0) (data anchorZHeights [i])
        (data anchorDimensions [i; 0%Z]) (data anchorDimensions [i; 1%Z])
        (data anchorDimensions [i; 2%Z])
        (data anchorYaws [i]) (data anchorYaws [i]) (Fin 0).

Definition row_diagonal (anchorDimensions : NdArray float) (i : Z) : float :=
  fsqrt (fadd (fpow2 (data anchorDimensions [i; 1%Z]))
              (fpow2 (data anchorDimensions [i; 0%Z]))).

(** The values the code writes to channel 0: 0 for a negative, 1 for a
    positive, -1 for an anchor that is ignored. *)
Definition is_label (v : float) : Prop :=
  v = Fin 0 \/ v = Fin 1 \/ v = Fin (-1).

(** What the anchor loop leaves at the position [prefix] of an anchor
    [anchorBox], as placed: the ten channels of a positive when its overlap
    with the label box exceeds [positiveThreshold], and otherwise the label
    0 or -1. *)
Definition anchor_labelled (positiveThreshold negativeThreshold : float)
    (labelBox anchorBox : BoundingBox3D) (diag : float)
    (t : NdArray float) (prefix : list Z) : Prop :=
  let iouOverlap := iou anchorBox labelBox in
  if fgtb iouOverlap positiveThreshold then
    forall c, (c < 10)%nat ->
      nth_error (positive_row labelBox anchorBox diag) c
      = Some (data t (prefix ++ [Z.of_nat c]))
  else
    data t (prefix ++ [0%Z])
    = if fltb iouOverlap negativeThreshold then Fin 0 else Fin (-1).


(** * Inputs of the worked examples *)

(** Arrays given by their rows. *)
Definition array1 {A} (d : A) (l : list A) : NdArray A :=
  mkArray [Z.of_nat (List.length l)]
    (fun idx => match idx with [i] => nth (Z.to_nat i) l d | _ => d end).

Definition array2 {A} (d : A) (ncols : Z) (rows : list (list A)) : NdArray A :=
  mkArray [Z.of_nat (List.length rows); ncols]
    (fun idx => match idx with
                | [i; j] => nth (Z.to_nat j) (nth (Z.to_nat i) rows []) d
                | _ => d
                end).

(** One anchor shape of 4 x 3 x 1 and yaw 0; a label box of the same shape
    at (3,-2); a grid of 2 x 1 cells of 4 x 4 over [0,8) x [-2,2). *)
Definition ex_anchor (x y : float) : BoundingBox3D :=
  mkBox x y (Fin 0) (Fin 4) (Fin 3) (Fin 1) (Fin 0) (Fin 0) (Fin 0).
Definition ex_anchor0 : BoundingBox3D := ex_anchor (Fin 0) (Fin 0).
Definition ex_label : BoundingBox3D :=
  mkBox (Fin 3) (Fin (-2)) (Fin 0) (Fin 4) (Fin 3) (Fin 1) (Fin 0) (Fin 0) (Fin 1).

Definition ex1_positions := array2 (Fin 0) 3 [[Fin 3; Fin (-2); Fin 0]].
Definition ex1_dimensions := array2 (Fin 0) 3 [[Fin 4; Fin 3; Fin 1]].
Definition ex1_yaws := array1 (Fin 0) [Fin 0].
Definition ex1_classIds := array1 0%Z [1%Z].
Definition ex_anchorDimensions := array2 (Fin 0) 3 [[Fin 4; Fin 3; Fin 1]].
Definition ex_anchorZHeights := array1 (Fin 0) [Fin 0].
Definition ex_anchorYaws := array1 (Fin 0) [Fin 0].

Definition ex1_call : Outcome (NdArray float) :=
  createPillarsTarget ex1_positions ex1_dimensions ex1_yaws ex1_classIds
    ex_anchorDimensions ex_anchorZHeights ex_anchorYaws
    (Fin (7/10)) (Fin (3/10)) (Fin (1/10)) 1 1
    (Fin 4) (Fin 4) (Fin 0) (Fin 8) (Fin (-2)) (Fin 2) (Fin (-1)) (Fin 1) false.

Definition ex1_T0 : NdArray float := mkArray [1; 2; 1; 1; 10]%Z (fun _ => Fin 0).

(** Two objects over a grid of 2 x 2 cells of 10 x 10: the first at
    x = 100, outside [0,20) x [0,20), the second at (5,5). *)
Definition ex2_label : BoundingBox3D :=
  mkBox (Fin 5) (Fin 5) (Fin 0) (Fin 4) (Fin 3) (Fin 1) (Fin 0) (Fin 0) (Fin 1).

Definition ex2_positions :=
  array2 (Fin 0) 3 [[Fin 100; Fin 5; Fin 0]; [Fin 5; Fin 5; Fin 0]].
Definition ex2_dimensions :=
  array2 (Fin 0) 3 [[Fin 4; Fin 3; Fin 1]; [Fin 4; Fin 3; Fin 1]].
Definition ex2_yaws := array1 (Fin 0) [Fin 0; Fin 0].
Definition ex2_classIds := array1 0%Z [1%Z; 1%Z].

Definition ex2_call : Outcome (NdArray float) :=
  createPillarsTarget ex2_positions ex2_dimensions ex2_yaws ex2_classIds
    ex_anchorDimensions ex_anchorZHeights ex_anchorYaws
    (Fin (1/2)) (Fin (3/10)) (Fin (1/10)) 1 1
    (Fin 10) (Fin 10) (Fin 0) (Fin 20) (Fin 0) (Fin 20) (Fin (-1)) (Fin 1) false.

Definition ex2_T0 : NdArray float := mkArray [2; 2; 2; 1; 10]%Z (fun _ => Fin 0).

(** The call of the second example with a positive threshold of 0. *)
Definition ex4_call : Outcome (NdArray float) :=
  createPillarsTarget ex2_positions ex2_dimensions ex2_yaws ex2_classIds
    ex_anchorDimensions ex_anchorZHeights ex_anchorYaws
    (Fin 0) (Fin (3/10)) (Fin (1/10)) 1 1
    (Fin 10) (Fin 10) (Fin 0) (Fin 20) (Fin 0) (Fin 20) (Fin (-1)) (Fin 1) false.

(** One point with colour channels, at distance [sqrt (1/2)] of the origin. *)
Definition exP7_points :=
  array2 (Fin 0) 7
    [[Fin (1/2); Fin (1/2); Fin 0; Fin (1/2); Fin 1; Fin 1; Fin 1]].

Definition exP7_call (minDistance : float)
  : Outcome (NdArray float * NdArray Z) :=
  createPillars (fun _ m => m) exP7_points 1 1
    (Fin 1) (Fin 1) (Fin 0) (Fin 1) (Fin 0) (Fin 1) (Fin (-1)) (Fin 1)
    false minDistance.

(** The same point without colour channels. *)
Definition exP4_one_point :=
  array2 (Fin 0) 4 [[Fin (1/2); Fin (1/2); Fin 0; Fin (1/2)]].

Definition exP4_one_call (minDistance : float)
  : Outcome (NdArray float * NdArray Z) :=
  createPillars (fun _ m => m) exP4_one_point 1 1
    (Fin 1) (Fin 1) (Fin 0) (Fin 1) (Fin 0) (Fin 1) (Fin (-1)) (Fin 1)
    false minDistance.

(** Three points, the first and the third in the cell (0,0), the second in
    the cell (1,0); one point per pillar is kept. *)
Definition exP4_points :=
  array2 (Fin 0) 4
    [[Fin (1/2); Fin (1/2); Fin 0; Fin (1/2)];
     [Fin (3/2); Fin (1/2); Fin 0; Fin 1];
     [Fin (1/4); Fin (3/4); Fin 0; Fin 0]].

Definition exP4_call : Outcome (NdArray float * NdArray Z) :=
  createPillars (fun _ m => m) exP4_points 1 3
    (Fin 1) (Fin 1) (Fin 0) (Fin 2) (Fin 0) (Fin 1) (Fin (-1)) (Fin 1)
    false (Fin 0).

(** An array with five columns. *)
Definition exP5_points :=
  array2 (Fin 0) 5 [[Fin (1/2); Fin (1/2); Fin 0; Fin (1/2); Fin 1]].


(** An array of three dimensions with four columns. *)
Definition exP_cube : NdArray float := mkArray [1; 4; 1]%Z (fun _ => Fin 0).

(** One point whose x coordinate is not a number. *)
Definition exP4_nan :=
  array2 (Fin 0) 4 [[NaN; Fin (1/2); Fin 0; Fin (1/2)]].

(** The object of the first example over a grid of 4 x 1 cells, with a
    positive threshold of 1/2. *)
Definition ex3_call : Outcome (NdArray float) :=
  createPillarsTarget ex1_positions ex1_dimensions ex1_yaws ex1_classIds
    ex_anchorDimensions ex_anchorZHeights ex_anchorYaws
    (Fin (1/2)) (Fin (3/10)) (Fin (1/10)) 1 1
    (Fin 4) (Fin 4) (Fin 0) (Fin 16) (Fin (-2)) (Fin 2) (Fin (-1)) (Fin 1) false.

Definition ex3_T0 : NdArray float := mkArray [1; 4; 1; 1; 10]%Z (fun _ => Fin 0).

(** Anchor arrays without any anchor. *)
Definition ex_noAnchorDimensions : NdArray float := array2 (Fin 0) 3 [].
Definition ex_noAnchors : NdArray float := array1 (Fin 0) [].

(** * Properties *)

(** ** Outcomes and arrays *)

Lemma bind_Returns {A B : Type} (m : Outcome A) (k : A -> Outcome B) (b : B) :
  bind m k = Returns b -> exists a, m = Returns a /\ k a = Returns b.
Proof.
  destruct m as [a | e | u]; simpl; intros H; try discriminate.
  exists a; split; [reflexivity | exact H].
Qed.

Lemma cast_Returns (o : option Z) (z : Z) : cast o = Returns z -> o = Some z.
Proof. destruct o; simpl; intros H; inversion H; reflexivity. Qed.

Lemma int_result_Returns (z r : Z) :
  int_result z = Returns r -> r = z /\ (INT_MIN <= z <= INT_MAX)%Z.
Proof.
  unfold int_result.
  destruct ((INT_MIN <=? z) && (z <=? INT_MAX))%Z eqn:E; intros H;
    inversion H; subst.
  apply andb_true_iff in E. destruct E as [E1 E2].
  apply Z.leb_le in E1. apply Z.leb_le in E2. auto.
Qed.

Lemma int_result_fits (z : Z) :
  (INT_MIN <= z <= INT_MAX)%Z -> int_result z = Returns z.
Proof.
  intros [H1 H2]. unfold int_result.
  apply Z.leb_le in H1. apply Z.leb_le in H2. rewrite H1, H2. reflexivity.
Qed.

(** Inverts a hypothesis [bind m k = Returns b]. *)
Ltac inv_bind H :=
  let a := fresh "a" in
  let Ha := fresh "Ha" in
  apply bind_Returns in H; destruct H as [a [Ha H]].

(** Inverts a hypothesis [bind (int_add a b) k = Returns r], also for
    [int_sub] and [int_mul]. *)
Ltac inv_int H :=
  let a := fresh "a" in
  let Ha := fresh "Ha" in
  let Hfit := fresh "Hfit" in
  apply bind_Returns in H; destruct H as [a [Ha H]];
  unfold int_add, int_sub, int_mul in Ha;
  apply int_result_Returns in Ha; destruct Ha as [Ha Hfit]; subst a.

Lemma index_eqb_refl (i : list Z) : index_eqb i i = true.
Proof. unfold index_eqb; destruct (list_eq_dec Z.eq_dec i i); congruence. Qed.

Lemma index_eqb_neq (i j : list Z) : i <> j -> index_eqb i j = false.
Proof. unfold index_eqb; destruct (list_eq_dec Z.eq_dec i j); congruence. Qed.

Lemma mutable_at_Returns {A} (t t' : NdArray A) (idx : list Z) (v : A) :
  mutable_at t idx v = Returns t' ->
  shape t' = shape t /\
  in_bounds (shape t) idx = true /\
  data t' idx = v /\
  (forall j, j <> idx -> data t' j = data t j).
Proof.
  unfold mutable_at; destruct (in_bounds (shape t) idx); intros H;
    inversion H; subst; simpl.
  repeat split.
  - rewrite index_eqb_refl; reflexivity.
  - intros j Hj; rewrite (index_eqb_neq Hj); reflexivity.
Qed.

Lemma in_bounds_app (sh1 sh2 idx1 idx2 : list Z) :
  List.length sh1 = List.length idx1 ->
  in_bounds (sh1 ++ sh2) (idx1 ++ idx2) =
  in_bounds sh1 idx1 && in_bounds sh2 idx2.
Proof.
  revert idx1; induction sh1 as [| n sh1 IH]; intros [| i idx1] Hlen;
    simpl in *; try discriminate; try reflexivity.
  rewrite IH by congruence.
  destruct ((0 <=? i)%Z && (i <? n)%Z); reflexivity.
Qed.

Lemma in_bounds_length (sh idx : list Z) :
  in_bounds sh idx = true -> List.length idx = List.length sh.
Proof.
  revert idx; induction sh as [| n sh IH]; intros [| i idx]; simpl;
    try discriminate; try reflexivity.
  intros H; apply andb_true_iff in H; destruct H as [_ H].
  f_equal; apply IH; exact H.
Qed.

(** What a successful [write_channels] leaves in the array. *)
Lemma write_channels_Returns {A} (vals : list A) :
  forall (t t' : NdArray A) (prefix : list Z) (c : Z),
  write_channels t prefix c vals = Returns t' ->
  shape t' = shape t /\
  (forall k, (k < List.length vals)%nat ->
     in_bounds (shape t) (prefix ++ [(c + Z.of_nat k)%Z]) = true /\
     nth_error vals k = Some (data t' (prefix ++ [(c + Z.of_nat k)%Z]))) /\
  (forall j,
     (forall k, (k < List.length vals)%nat ->
        j <> prefix ++ [(c + Z.of_nat k)%Z]) ->
     data t' j = data t j).
Proof.
  induction vals as [| v vs IH]; intros t t' prefix c H; simpl in H.
  - inversion H; subst. split; [reflexivity |]. split.
    + intros k Hk; simpl in Hk; lia.
    + reflexivity.
  - inv_bind H.
    apply mutable_at_Returns in Ha. destruct Ha as (Hs & Hb & Hv & Hframe).
    apply IH in H. destruct H as (Hs' & Hw & Hframe').
    split; [congruence |]. split.
    + intros [| k] Hk; simpl in Hk.
      * replace (c + Z.of_nat 0)%Z with c by lia.
        split; [exact Hb |]. simpl.
        rewrite Hframe'; [congruence |].
        intros k' _ Heq. apply app_inv_head in Heq. inversion Heq; lia.
      * replace (c + Z.of_nat (S k))%Z with (c + 1 + Z.of_nat k)%Z by lia.
        destruct (Hw k ltac:(lia)) as [Hb' Hn].
        split; [rewrite <- Hs; exact Hb' | exact Hn].
    + intros j Hj.
      rewrite Hframe'.
      * apply Hframe. specialize (Hj 0%nat ltac:(simpl; lia)).
        replace (c + Z.of_nat 0)%Z with c in Hj by lia. exact Hj.
      * intros k Hk.
        specialize (Hj (S k) ltac:(simpl; lia)).
        replace (c + Z.of_nat (S k))%Z with (c + 1 + Z.of_nat k)%Z in Hj by lia.
        exact Hj.
Qed.

Lemma foldM_app {A S} (f : S -> A -> Outcome S) (l1 l2 : list A) (s : S) :
  foldM f (l1 ++ l2) s = (s' <- foldM f l1 s ;; foldM f l2 s').
Proof.
  revert s; induction l1 as [| a l1 IH]; intros s; simpl; [reflexivity |].
  destruct (f s a); simpl; auto.
Qed.

(** An invariant of the loop body is an invariant of the loop. *)
Lemma foldM_invariant {A S} (I : S -> Prop) (f : S -> A -> Outcome S) :
  (forall s a s', I s -> f s a = Returns s' -> I s') ->
  forall l s s', I s -> foldM f l s = Returns s' -> I s'.
Proof.
  intros Hf l; induction l as [| a l IH]; intros s s' Hs H; simpl in H.
  - inversion H; subst; exact Hs.
  - inv_bind H. eapply IH; [| exact H]. eapply Hf; eauto.
Qed.

Lemma foldM_invariant_In {A S} (I : S -> Prop) (f : S -> A -> Outcome S)
    (l : list A) :
  (forall s a s', In a l -> I s -> f s a = Returns s' -> I s') ->
  forall s s', I s -> foldM f l s = Returns s' -> I s'.
Proof.
  induction l as [| a l IH]; intros Hf s s' Hs H; simpl in H.
  - inversion H; subst; exact Hs.
  - inv_bind H. eapply IH; [| | exact H].
    + intros; eapply Hf; eauto; right; assumption.
    + eapply Hf; eauto; left; reflexivity.
Qed.

Lemma range_length (lo hi : Z) : List.length (range lo hi) = Z.to_nat (hi - lo).
Proof. unfold range; rewrite length_map, length_seq; reflexivity. Qed.

Lemma In_range (lo hi i : Z) : In i (range lo hi) <-> (lo <= i < hi)%Z.
Proof.
  unfold range; rewrite in_map_iff; split.
  - intros [n [Hn Hin]]. apply in_seq in Hin. lia.
  - intros Hi. exists (Z.to_nat (i - lo)). split; [lia |].
    apply in_seq. lia.
Qed.

Lemma range_nth (lo hi : Z) (n : nat) :
  (n < Z.to_nat (hi - lo))%nat -> nth_error (range lo hi) n = Some (lo + Z.of_nat n)%Z.
Proof.
  intros Hn. unfold range.
  rewrite nth_error_map, nth_error_nth' with (d := 0%nat)
    by (rewrite length_seq; exact Hn).
  rewrite seq_nth by exact Hn. reflexivity.
Qed.

Lemma resize_zeros_Returns {A} (zero : A) (sh : list Z) (t : NdArray A) :
  resize_zeros zero sh = Returns t ->
  shape t = sh /\ (forall j, data t j = zero) /\
  (forall n, In n sh -> (0 <= n)%Z).
Proof.
  unfold resize_zeros.
  destruct (forallb (fun n => (0 <=? n)%Z) sh) eqn:E; intros H;
    [| discriminate].
  inv_bind H. inversion H; subst; simpl.
  repeat split; try reflexivity.
  intros n Hn. rewrite forallb_forall in E. specialize (E n Hn). lia.
Qed.

(** ** Comparisons of floats *)

Lemma Rltb_true (a b : R) : (a < b)%R -> Rltb a b = true.
Proof. unfold Rltb; destruct (Rlt_dec a b); tauto. Qed.

Lemma Rltb_false (a b : R) : (b <= a)%R -> Rltb a b = false.
Proof. unfold Rltb; destruct (Rlt_dec a b); [lra | reflexivity]. Qed.

Lemma Rltb_spec (a b : R) : Rltb a b = true <-> (a < b)%R.
Proof. unfold Rltb; destruct (Rlt_dec a b); split; intros; auto; discriminate. Qed.

Lemma Rltb_false_iff (a b : R) : Rltb a b = false <-> (b <= a)%R.
Proof.
  unfold Rltb; destruct (Rlt_dec a b); split; intros; auto; try discriminate; lra.
Qed.

Lemma Reqb_true (a b : R) : a = b -> Reqb a b = true.
Proof. unfold Reqb; destruct (Req_dec_T a b); tauto. Qed.

Lemma Reqb_false (a b : R) : a <> b -> Reqb a b = false.
Proof. unfold Reqb; destruct (Req_dec_T a b); tauto. Qed.

Lemma Reqb_spec (a b : R) : Reqb a b = true <-> a = b.
Proof. unfold Reqb; destruct (Req_dec_T a b); split; intros; auto; discriminate. Qed.

(** ** The heading-flip flag *)

(** No value is both below [pi/2] and above [1.5 pi] in absolute value. *)
Lemma heading_flip_zero (d : float) : heading_flip d = Fin 0.
Proof.
  unfold heading_flip, fgtb, M_PI_2, M_PI.
  destruct d as [r | s | ]; simpl; try reflexivity.
  destruct (Rltb (Rabs r) (PI / 2)) eqn:E1; simpl; [| reflexivity].
  destruct (Rltb (3 / 2 * PI) (Rabs r)) eqn:E2; [| reflexivity].
  apply Rltb_spec in E1. apply Rltb_spec in E2.
  pose proof PI_RGT_0. lra.
Qed.

(** ** Results of [int] arithmetic *)

(** A call of [fallback_cell] that returns: the sums [xId_0 + dx] and
    [yId_0 + dy] fit an [int], and the cell is written as follows. *)
Lemma fallback_cell_Returns
    downscalingFactor xStep yStep xMin yMin xSize ySize
    labelBox best objectCount bestId xId_0 yId_0 dx t dy t' :
  fallback_cell downscalingFactor xStep yStep xMin yMin xSize ySize
    labelBox best objectCount bestId xId_0 yId_0 dx t dy = Returns t' ->
  (if ((dx =? 0) && (dy =? 0))%Z then
     write_channels t
       [objectCount; clip_int (xId_0 + dx) 0 (xSize - 1);
        clip_int (yId_0 + dy) 0 (ySize - 1); bestId] 0%Z
       (fallback_row downscalingFactor xStep yStep xMin yMin labelBox best
                     (clip_int (xId_0 + dx) 0 (xSize - 1))
                     (clip_int (yId_0 + dy) 0 (ySize - 1)))
   else if ((0 <=? xId_0 + dx) && (xId_0 + dx <? xSize) &&
            (0 <=? yId_0 + dy) && (yId_0 + dy <? ySize))%Z then
     mutable_at t
       [objectCount; clip_int (xId_0 + dx) 0 (xSize - 1);
        clip_int (yId_0 + dy) 0 (ySize - 1); bestId; 0%Z] (Fin (-1))
   else
     Returns t) = Returns t'.
Proof.
  unfold fallback_cell. intros H.
  inv_int H. inv_int H. inv_int H. inv_int H. exact H.
Qed.

(** ** Invariants of the writes of [createPillarsTarget] *)

Section TargetInvariant.
Variables (positiveThreshold negativeThreshold angle_threshold : float).
Variables (downscalingFactor : Z).
Variables (xStep yStep xMin yMin : float).
Variables (xSize ySize : Z).
Variable (anchorDiagonals : list float).
Variable (objectCount : Z).

(** A property of the tensor that every write of the object numbered
    [objectCount] preserves. *)
Variable Inv : NdArray float -> Prop.

Hypothesis Inv_label : forall t t' x y a v,
  mutable_at t [objectCount; x; y; a; 0%Z] v = Returns t' -> Inv t -> Inv t'.
Hypothesis Inv_positive : forall t t' x y a lb ab diag,
  write_channels t [objectCount; x; y; a] 0%Z (positive_row lb ab diag)
    = Returns t' -> Inv t -> Inv t'.
Hypothesis Inv_fallback : forall t t' x y a lb best,
  write_channels t [objectCount; x; y; a] 0%Z
    (fallback_row downscalingFactor xStep yStep xMin yMin lb best x y)
    = Returns t' -> Inv t -> Inv t'.

Let match_anchor' := match_anchor positiveThreshold negativeThreshold
                       angle_threshold anchorDiagonals.

Lemma match_anchor_inv lb xId yId x y st n ab st' :
  match_anchor' lb objectCount xId yId x y st n ab = Returns st' ->
  Inv (s_tensor st) -> Inv (s_tensor st').
Proof.
  unfold match_anchor', match_anchor. intros H HI.
  inv_bind H. inversion H; subst; simpl. clear H.
  set (ab' := place ab x y _) in *.
  assert (HI1 : Inv (s_tensor
            (if fltb (maxIou st) (iou ab' lb)
             then mkSearch (s_tensor st) (iou ab' lb) ab' n else st))).
  { destruct (fltb (maxIou st) (iou ab' lb)); exact HI. }
  destruct (fgtb (iou ab' lb) positiveThreshold).
  - eapply Inv_positive; eauto.
  - destruct (fltb (iou ab' lb) negativeThreshold);
      eapply Inv_label; eauto.
Qed.

Lemma match_anchors_inv lb xId yId x y abs :
  forall n st st',
  match_anchors positiveThreshold negativeThreshold angle_threshold
    anchorDiagonals lb objectCount xId yId x y abs n st = Returns st' ->
  Inv (s_tensor st) -> Inv (s_tensor st').
Proof.
  induction abs as [| ab abs IH]; intros n st st' H HI; simpl in H.
  - inversion H; subst; exact HI.
  - inv_bind H. eapply IH; [exact H |].
    eapply match_anchor_inv; eauto.
Qed.

Lemma search_inv lb abs xStart xEnd yStart yEnd t st :
  search positiveThreshold negativeThreshold angle_threshold
    downscalingFactor xStep yStep xMin yMin anchorDiagonals
    lb objectCount abs xStart xEnd yStart yEnd t = Returns st ->
  Inv t -> Inv (s_tensor st).
Proof.
  unfold search. intros H HI.
  eapply foldM_invariant with (I := fun s => Inv (s_tensor s)) (3 := H);
    [| exact HI].
  intros s xId s' Hs Hcol. unfold search_column in Hcol.
  eapply foldM_invariant with (I := fun s => Inv (s_tensor s)) (3 := Hcol);
    [| exact Hs].
  intros s1 yId s1' Hs1 Hm. eapply match_anchors_inv; eauto.
Qed.

Lemma fallback_inv lb best bestId xId_0 yId_0 t t' :
  fallback downscalingFactor xStep yStep xMin yMin xSize ySize
    lb best objectCount bestId xId_0 yId_0 t = Returns t' ->
  Inv t -> Inv t'.
Proof.
  unfold fallback. intros H HI.
  eapply foldM_invariant with (I := Inv) (3 := H); [| exact HI].
  intros s dx s' Hs Hdx.
  eapply foldM_invariant with (I := Inv) (3 := Hdx); [| exact Hs].
  intros s1 dy s1' Hs1 Hc. apply fallback_cell_Returns in Hc.
  destruct ((dx =? 0)%Z && (dy =? 0)%Z).
  - eapply Inv_fallback; eauto.
  - destruct ((0 <=? xId_0 + dx)%Z && (xId_0 + dx <? xSize)%Z &&
              (0 <=? yId_0 + dy)%Z && (yId_0 + dy <? ySize)%Z).
    + eapply Inv_label; eauto.
    + inversion Hc; subst; exact Hs1.
Qed.

Lemma process_object_inv abs t lb t' n' :
  process_object positiveThreshold negativeThreshold angle_threshold
    downscalingFactor xStep yStep xMin yMin xSize ySize anchorDiagonals
    abs (t, objectCount) lb = Returns (t', n') ->
  Inv t -> Inv t' /\ n' = (objectCount + 1)%Z.
Proof.
  unfold process_object; simpl. intros H HI.
  inv_bind H. inv_bind H. inv_int H. inv_int H. inv_bind H.
  inv_int H. inv_int H.
  inv_bind H. rename a2 into found. rename Ha2 into Hsearch.
  inv_bind H. rename Ha2 into Hfb.
  inversion H; subst; clear H. split; [| reflexivity].
  apply search_inv in Hsearch; [| exact HI].
  destruct (fltb (maxIou found) positiveThreshold).
  - inv_bind Hfb. inv_bind Hfb. eapply fallback_inv; eauto.
  - inversion Hfb; subst; exact Hsearch.
Qed.
End TargetInvariant.

(** ** The loop over the objects *)

Section ObjectsLoop.
Variables (positiveThreshold negativeThreshold angle_threshold : float).
Variables (downscalingFactor : Z).
Variables (xStep yStep xMin yMin : float).
Variables (xSize ySize : Z).
Variable (anchorDiagonals : list float).
Variable (anchorBoxes : list BoundingBox3D).

Let process := process_object positiveThreshold negativeThreshold
                 angle_threshold downscalingFactor xStep yStep xMin yMin
                 xSize ySize anchorDiagonals anchorBoxes.

(** The object numbered [oc] writes into the slice [oc] only. *)
Lemma process_object_frame t oc lb t' n' :
  process (t, oc) lb = Returns (t', n') ->
  n' = (oc + 1)%Z /\ shape t' = shape t /\
  (forall idx, hd 0%Z idx <> oc -> data t' idx = data t idx).
Proof.
  intros H. split; [| split].
  - eapply process_object_inv with (Inv := fun _ => True); eauto.
  - eapply process_object_inv with (Inv := fun s => shape s = shape t);
      [ | | | exact H | reflexivity ].
    + intros s s' x y a v Hm Hs. apply mutable_at_Returns in Hm.
      destruct Hm as [Hm _]. congruence.
    + intros s s' x y a lb' ab diag Hw Hs.
      apply write_channels_Returns in Hw. destruct Hw as [Hw _]. congruence.
    + intros s s' x y a lb' best Hw Hs.
      apply write_channels_Returns in Hw. destruct Hw as [Hw _]. congruence.
  - intros idx Hidx.
    eapply process_object_inv with (Inv := fun s => data s idx = data t idx);
      [ | | | exact H | reflexivity ].
    + intros s s' x y a v Hm Hs. apply mutable_at_Returns in Hm.
      destruct Hm as (_ & _ & _ & Hm). rewrite Hm; [exact Hs |].
      intros ->; simpl in Hidx; congruence.
    + intros s s' x y a lb' ab diag Hw Hs.
      apply write_channels_Returns in Hw. destruct Hw as (_ & _ & Hw).
      rewrite Hw; [exact Hs |].
      intros k _ ->; simpl in Hidx; congruence.
    + intros s s' x y a lb' best Hw Hs.
      apply write_channels_Returns in Hw. destruct Hw as (_ & _ & Hw).
      rewrite Hw; [exact Hs |].
      intros k _ ->; simpl in Hidx; congruence.
Qed.

(** The [k]-th label box is processed with [objectCount = c0 + k]; its
    slice of the final tensor is the one it leaves, and the slices from
    [c0 + k] on are untouched when its turn comes. *)
Lemma objects_loop (lbs : list BoundingBox3D) :
  forall t0 c0 t c,
  foldM process lbs (t0, c0) = Returns (t, c) ->
  c = (c0 + Z.of_nat (List.length lbs))%Z /\
  shape t = shape t0 /\
  (forall idx, (hd 0%Z idx < c0 \/ c <= hd 0%Z idx)%Z ->
     data t idx = data t0 idx) /\
  (forall k lb, nth_error lbs k = Some lb ->
     exists tk tk',
       process (tk, (c0 + Z.of_nat k)%Z) lb
         = Returns (tk', (c0 + Z.of_nat k + 1)%Z) /\
       shape tk = shape t0 /\
       (forall idx, (c0 + Z.of_nat k <= hd 0%Z idx)%Z ->
          data tk idx = data t0 idx) /\
       (forall idx, hd 0%Z idx = (c0 + Z.of_nat k)%Z ->
          data t idx = data tk' idx)).
Proof.
  induction lbs as [| lb lbs IH]; intros t0 c0 t c H; simpl in H.
  - inversion H; subst. repeat split; try reflexivity; try (simpl; lia).
    intros [| k] lb Hk; discriminate.
  - inv_bind H. destruct a as [t1 c1].
    pose proof (process_object_frame _ _ _ Ha) as (Hc1 & Hs1 & Hf1).
    subst c1.
    apply IH in H. destruct H as (Hc & Hs & Hf & Hk).
    split; [simpl List.length; lia |].
    split; [congruence |]. split.
    + intros idx Hidx. rewrite Hf by lia. apply Hf1. lia.
    + intros [| k] lb' Hnth; simpl in Hnth.
      * inversion Hnth; subst lb'. exists t0, t1.
        replace (c0 + Z.of_nat 0)%Z with c0 by lia.
        repeat split; try assumption; try reflexivity.
        intros idx Hidx. apply Hf. lia.
      * destruct (Hk k lb' Hnth) as (tk & tk' & Hp & Hsk & Hfk & Hlast).
        exists tk, tk'.
        replace (c0 + Z.of_nat (S k))%Z with (c0 + 1 + Z.of_nat k)%Z by lia.
        repeat split; try assumption; try congruence.
        intros idx Hidx. rewrite Hfk by lia. apply Hf1. lia.
Qed.
End ObjectsLoop.

(** The steps of a call of [createPillarsTarget] that returns. *)
Lemma createPillarsTarget_Returns
    objectPositions objectDimensions objectYaws objectClassIds
    anchorDimensions anchorZHeights anchorYaws
    positiveThreshold negativeThreshold angle_threshold
    nbClasses downscalingFactor
    xStep yStep xMin xMax yMin yMax zMin zMax printTime T :
  createPillarsTarget objectPositions objectDimensions objectYaws
    objectClassIds anchorDimensions anchorZHeights anchorYaws
    positiveThreshold negativeThreshold angle_threshold nbClasses
    downscalingFactor xStep yStep xMin xMax yMin yMax zMin zMax printTime
    = Returns T ->
  exists xSize ySize nbAnchors nbObjects anchorBoxes anchorDiagonals
         labelBoxes T0 n,
    static_cast_int (grid_index xMax xMin xStep downscalingFactor)
      = Some xSize /\
    static_cast_int (grid_index yMax yMin yStep downscalingFactor)
      = Some ySize /\
    shape_at anchorDimensions 0 = Returns nbAnchors /\ (0 < nbAnchors)%Z /\
    shape_at objectDimensions 0 = Returns nbObjects /\ (0 < nbObjects)%Z /\
    foldM (parse_anchor anchorDimensions anchorZHeights anchorYaws)
          (range 0 nbAnchors) ([], []) = Returns (anchorBoxes, anchorDiagonals) /\
    foldM (parse_label objectPositions objectDimensions objectYaws
             objectClassIds xMin xMax yMin yMax)
          (range 0 nbObjects) [] = Returns labelBoxes /\
    resize_zeros (Fin 0) [nbObjects; xSize; ySize; nbAnchors; 10]%Z
      = Returns T0 /\
    foldM (process_object positiveThreshold negativeThreshold angle_threshold
             downscalingFactor xStep yStep xMin yMin xSize ySize
             anchorDiagonals anchorBoxes)
          labelBoxes (T0, 0%Z) = Returns (T, n).
Proof.
  unfold createPillarsTarget. intros H.
  inv_bind H. rename a into xSize. inv_bind H. rename a into ySize.
  inv_bind H. rename a into nbAnchors.
  destruct (nbAnchors <=? 0)%Z eqn:EA; [discriminate |].
  inv_bind H. rename a into nbObjects.
  destruct (nbObjects <=? 0)%Z eqn:EO; [discriminate |].
  inv_bind H. destruct a as [anchorBoxes anchorDiagonals].
  inv_bind H. rename a into labelBoxes.
  inv_bind H. rename a into T0.
  inv_bind H. destruct a as [T' n]. inversion H; subst; clear H. simpl in *.
  exists xSize, ySize, nbAnchors, nbObjects, anchorBoxes, anchorDiagonals,
         labelBoxes, T0, n.
  apply cast_Returns in Ha. apply cast_Returns in Ha0.
  repeat split; try assumption; lia.
Qed.

(** ** Channel 8 *)

Lemma write_row_channel8 (t t' : NdArray float) (oc x y a : Z)
    (row : list float) :
  write_channels t [oc; x; y; a] 0%Z row = Returns t' ->
  List.length row = 10%nat ->
  nth_error row 8 = Some (Fin 0) ->
  channel8_zero t -> channel8_zero t'.
Proof.
  intros Hw Hlen H8 Ht o' x' y' a'.
  apply write_channels_Returns in Hw. destruct Hw as (_ & Hv & Hf).
  destruct (list_eq_dec Z.eq_dec [o'; x'; y'; a'] [oc; x; y; a]) as [E | E].
  - inversion E; subst.
    destruct (Hv 8%nat ltac:(lia)) as [_ Hn].
    rewrite H8 in Hn. injection Hn as Hn. symmetry. exact Hn.
  - rewrite Hf; [apply Ht |].
    intros k _ Heq. apply E. simpl in Heq. inversion Heq; reflexivity.
Qed.

Lemma process_object_channel8
    positiveThreshold negativeThreshold angle_threshold downscalingFactor
    xStep yStep xMin yMin xSize ySize anchorDiagonals anchorBoxes st lb st' :
  process_object positiveThreshold negativeThreshold angle_threshold
    downscalingFactor xStep yStep xMin yMin xSize ySize anchorDiagonals
    anchorBoxes st lb = Returns st' ->
  channel8_zero (fst st) -> channel8_zero (fst st').
Proof.
  destruct st as [t oc], st' as [t' n']. simpl. intros H Ht.
  eapply process_object_inv with (Inv := channel8_zero);
    [ | | | exact H | exact Ht ].
  - intros s s' x y a v Hm Hs o' x' y' a'.
    apply mutable_at_Returns in Hm. destruct Hm as (_ & _ & _ & Hm).
    rewrite Hm; [apply Hs | congruence].
  - intros s s' x y a lb' ab diag Hw Hs.
    eapply write_row_channel8; [exact Hw | reflexivity | | exact Hs].
    simpl. rewrite heading_flip_zero. reflexivity.
  - intros s s' x y a lb' best Hw Hs.
    eapply write_row_channel8; [exact Hw | reflexivity | | exact Hs].
    simpl. rewrite heading_flip_zero. reflexivity.
Qed.

(** C2.  The heading-flip flag of a positive assignment (of the path above
    the positive threshold and of the fallback path) is
    [heading_flip (delta_yaw_o ...)], that is 1 when [|delta_yaw_o| < pi/2]
    and [|delta_yaw_o| > 1.5 pi] and 0 otherwise; both cannot hold, so
    the flag is 0, and channel 8 is 0 at every position of every tensor
    [createPillarsTarget] returns. *)
Theorem channel8_always_zero :
  forall objectPositions objectDimensions objectYaws objectClassIds
         anchorDimensions anchorZHeights anchorYaws
         positiveThreshold negativeThreshold angle_threshold
         nbClasses downscalingFactor
         xStep yStep xMin xMax yMin yMax zMin zMax printTime T,
  createPillarsTarget objectPositions objectDimensions objectYaws
    objectClassIds anchorDimensions anchorZHeights anchorYaws
    positiveThreshold negativeThreshold angle_threshold nbClasses
    downscalingFactor xStep yStep xMin xMax yMin yMax zMin zMax printTime
    = Returns T ->
  (forall lb ab diag,
     nth_error (positive_row lb ab diag) 8
       = Some (heading_flip (delta_yaw_o lb ab)) /\
     heading_flip (delta_yaw_o lb ab) = Fin 0) /\
  (forall lb best xId yId,
     nth_error (fallback_row downscalingFactor xStep yStep xMin yMin
                             lb best xId yId) 8
       = Some (heading_flip (delta_yaw_o lb best))) /\
  (forall o x y a, data T [o; x; y; a; 8%Z] = Fin 0).
Proof.
  intros until T. intros H.
  split; [| split].
  - intros lb ab diag. split; [reflexivity | apply heading_flip_zero].
  - intros; reflexivity.
  - apply createPillarsTarget_Returns in H.
    destruct H as (xSize & ySize & nbAnchors & nbObjects & anchorBoxes &
                   anchorDiagonals & labelBoxes & T0 & n & _ & _ & _ & _ & _ &
                   _ & _ & _ & HT0 & Hloop).
    apply resize_zeros_Returns in HT0. destruct HT0 as (_ & Hz & _).
    change (channel8_zero (fst (T, n))).
    eapply foldM_invariant with (I := fun st => channel8_zero (fst st))
                                (3 := Hloop).
    + intros s lb s' Hs Hp. eapply process_object_channel8; eauto.
    + intros o x y a. apply Hz.
Qed.

(** ** Finite results of float operations *)

Lemma Zceil_IZR (n : Z) : Zceil (IZR n) = n.
Proof. unfold Zceil. rewrite ZfloorNZ. lia. Qed.

Lemma Ztrunc_IZR (n : Z) : Ztrunc (IZR n) = n.
Proof.
  unfold Ztrunc. destruct (Rltb (IZR n) 0); [apply Zceil_IZR | apply ZfloorZ].
Qed.

Lemma fsub_Fin_inv (a b : float) (r : R) :
  fsub a b = Fin r -> exists x y, a = Fin x /\ b = Fin y /\ r = (x - y)%R.
Proof.
  unfold fsub. destruct a as [x | s | ], b as [y | t | ]; simpl;
    intros H; try discriminate.
  - inversion H. exists x, y. repeat split; reflexivity.
  - destruct (Bool.eqb s (negb t)); discriminate.
Qed.

Lemma fdiv_Fin_inv (a b : float) (r : R) :
  fdiv a b = Fin r ->
  (exists x y, a = Fin x /\ b = Fin y /\ y <> 0%R /\ r = (x / y)%R) \/
  (exists x s, a = Fin x /\ b = Inf s /\ r = 0%R).
Proof.
  destruct a as [x | s | ], b as [y | t | ]; simpl; intros H; try discriminate.
  - destruct (Reqb y 0) eqn:E.
    + destruct (Reqb x 0); discriminate.
    + inversion H. left. exists x, y. repeat split; try reflexivity.
      intros Hy. apply Reqb_spec in Hy. congruence.
  - inversion H. right. exists x, t. repeat split; reflexivity.
Qed.

Lemma static_cast_int_floor (q : float) (z : Z) :
  static_cast_int (ffloor q) = Some z -> exists r, q = Fin r /\ z = Zfloor r.
Proof.
  destruct q as [r | s | ]; simpl; try discriminate.
  rewrite Ztrunc_IZR.
  destruct ((-2147483648 <=? Zfloor r)%Z && (Zfloor r <=? 2147483647)%Z);
    intros H; inversion H.
  exists r; split; reflexivity.
Qed.

(** The grid index of a coordinate inside the bounds is not negative when
    the grid has at least one cell. *)
Lemma home_cell_nonneg (c cMin cMax step : float) (downscalingFactor : Z)
    (size id : Z) :
  static_cast_int (grid_index cMax cMin step downscalingFactor) = Some size ->
  static_cast_int (grid_index c cMin step downscalingFactor) = Some id ->
  fltb c cMin = false -> fgeb c cMax = false ->
  (1 <= size)%Z -> (0 <= id)%Z.
Proof.
  unfold grid_index. intros Hsize Hid Hlo Hhi Hpos.
  apply static_cast_int_floor in Hsize. destruct Hsize as (r1 & Hq1 & ->).
  apply static_cast_int_floor in Hid. destruct Hid as (r2 & Hq2 & ->).
  assert (H1 : (1 <= r1)%R).
  { pose proof (Zfloor_bound r1) as [Hb _].
    apply IZR_le in Hpos. lra. }
  apply fdiv_Fin_inv in Hq1.
  destruct Hq1 as [(X & S & HX & HS & HS0 & Hr1) | (X & s & _ & _ & Hr1)];
    [| lra].
  apply fsub_Fin_inv in HX. destruct HX as (M & m & -> & -> & ->).
  rewrite HS in Hq2.
  apply fdiv_Fin_inv in Hq2.
  destruct Hq2 as [(Y & S' & HY & HS' & _ & Hr2) | (Y & s & _ & Hinf & _)];
    [| discriminate].
  inversion HS'; subst S'.
  apply fsub_Fin_inv in HY. destruct HY as (l & m' & -> & Hm & ->).
  inversion Hm; subst m'.
  simpl in Hlo. apply Rltb_false_iff in Hlo.
  unfold fgeb in Hhi. simpl in Hhi. apply negb_false_iff in Hhi.
  apply Rltb_spec in Hhi.
  assert (HSpos : (0 < S)%R).
  { destruct (Rlt_dec 0 S) as [HS1 | HS1]; [exact HS1 |].
    exfalso. assert (S < 0)%R by lra.
    assert ((M - m) / S <= 0)%R; [| lra].
    assert (/ S < 0)%R by (apply Rinv_lt_0_compat; assumption).
    unfold Rdiv. nra. }
  apply Zfloor_lub. simpl.
  subst r2. unfold Rdiv. apply Rmult_le_pos; [lra |].
  left. apply Rinv_0_lt_compat. assumption.
Qed.

Lemma foldM_split {A S} (f : S -> A -> Outcome S) (l1 l2 : list A) (a : A)
    (s s' : S) :
  foldM f (l1 ++ a :: l2) s = Returns s' ->
  exists s1 s2,
    foldM f l1 s = Returns s1 /\ f s1 a = Returns s2 /\
    foldM f l2 s2 = Returns s'.
Proof.
  rewrite foldM_app. intros H. inv_bind H. simpl in H. inv_bind H.
  eauto.
Qed.

(** ** The fallback assignment *)

Section FallbackAnalysis.
Variables (downscalingFactor : Z) (xStep yStep xMin yMin : float).
Variables (xSize ySize : Z).
Variables (labelBox best : BoundingBox3D) (objectCount bestId : Z).
Variables (xId_0 yId_0 : Z).

Let cell := fallback_cell downscalingFactor xStep yStep xMin yMin xSize ySize
              labelBox best objectCount bestId xId_0 yId_0.
Let xId := clip_int xId_0 0 (xSize - 1).
Let yId := clip_int yId_0 0 (ySize - 1).
Let row := fallback_row downscalingFactor xStep yStep xMin yMin
             labelBox best xId yId.

Lemma fallback_cell_shape dx dy t t' :
  cell dx t dy = Returns t' -> shape t' = shape t.
Proof.
  unfold cell. intros H. apply fallback_cell_Returns in H.
  destruct ((dx =? 0)%Z && (dy =? 0)%Z).
  - apply write_channels_Returns in H. tauto.
  - destruct ((0 <=? xId_0 + dx)%Z && (xId_0 + dx <? xSize)%Z &&
              (0 <=? yId_0 + dy)%Z && (yId_0 + dy <? ySize)%Z).
    + apply mutable_at_Returns in H. tauto.
    + inversion H; reflexivity.
Qed.

(** The offsets visited after [(0, 0)] leave the home cell alone. *)
Lemma fallback_cell_later dx dy t t' c :
  (0 <= xId_0)%Z -> (0 <= yId_0)%Z ->
  (0 < dx \/ (dx = 0 /\ 0 < dy))%Z ->
  cell dx t dy = Returns t' ->
  data t' [objectCount; xId; yId; bestId; c]
    = data t [objectCount; xId; yId; bestId; c].
Proof.
  unfold cell. intros Hx Hy Hlater H. apply fallback_cell_Returns in H.
  destruct ((dx =? 0)%Z && (dy =? 0)%Z) eqn:E0.
  - apply andb_true_iff in E0. lia.
  - destruct ((0 <=? xId_0 + dx)%Z && (xId_0 + dx <? xSize)%Z &&
              (0 <=? yId_0 + dy)%Z && (yId_0 + dy <? ySize)%Z) eqn:E1.
    + apply mutable_at_Returns in H. destruct H as (_ & _ & _ & H).
      apply H. intros Heq. inversion Heq as [[Hxe Hye Hc]].
      repeat (apply andb_true_iff in E1; destruct E1 as [E1 ?]).
      unfold xId, yId, clip_int in Hxe, Hye. lia.
    + inversion H; reflexivity.
Qed.

Lemma fallback_Returns t t' :
  fallback downscalingFactor xStep yStep xMin yMin xSize ySize
    labelBox best objectCount bestId xId_0 yId_0 t = Returns t' ->
  in_bounds (shape t) [objectCount; xId; yId; bestId; 0%Z] = true /\
  ((0 <= xId_0)%Z -> (0 <= yId_0)%Z ->
   forall k, (k < 10)%nat ->
     nth_error row k
       = Some (data t' [objectCount; xId; yId; bestId; Z.of_nat k])).
Proof.
  unfold fallback. fold cell.
  change (range (-2) 3) with ([-2; -1] ++ 0 :: [1; 2])%Z.
  intros H.
  apply foldM_split in H. destruct H as (t1 & t2 & Hbefore & Hmid & Hafter).
  apply foldM_split in Hmid.
  destruct Hmid as (u1 & u2 & Hbefore0 & Hcenter & Hafter0).
  assert (Hs1 : shape t1 = shape t).
  { eapply foldM_invariant with (I := fun s => shape s = shape t)
                                (3 := Hbefore); [| reflexivity].
    intros s dx s' Hs Hdx.
    eapply foldM_invariant with (I := fun s => shape s = shape t)
                                (3 := Hdx); [| exact Hs].
    intros s0 dy s0' Hs0 Hc. apply fallback_cell_shape in Hc. congruence. }
  assert (Hsu : shape u1 = shape t).
  { eapply foldM_invariant with (I := fun s => shape s = shape t)
                                (3 := Hbefore0); [| exact Hs1].
    intros s0 dy s0' Hs0 Hc. apply fallback_cell_shape in Hc. congruence. }
  unfold cell in Hcenter. apply fallback_cell_Returns in Hcenter.
  change ((0 =? 0)%Z && (0 =? 0)%Z) with true in Hcenter.
  cbv iota in Hcenter.
  replace (xId_0 + 0)%Z with xId_0 in Hcenter by lia.
  replace (yId_0 + 0)%Z with yId_0 in Hcenter by lia.
  fold xId yId row in Hcenter.
  apply write_channels_Returns in Hcenter.
  destruct Hcenter as (_ & Hv & _).
  split.
  - destruct (Hv 0%nat ltac:(simpl; lia)) as [Hb _].
    rewrite Hsu in Hb. exact Hb.
  - intros Hx Hy k Hk.
    destruct (Hv k ltac:(simpl; lia)) as [_ Hn].
    rewrite Hn. f_equal. simpl.
    assert (Hu2 : data t2 [objectCount; xId; yId; bestId; Z.of_nat k]
                  = data u2 [objectCount; xId; yId; bestId; Z.of_nat k]).
    { eapply foldM_invariant_In
        with (I := fun s => data s [objectCount; xId; yId; bestId; Z.of_nat k]
                          = data u2 [objectCount; xId; yId; bestId; Z.of_nat k])
             (3 := Hafter0); [| reflexivity].
      intros s dy s' Hin Hs Hc.
      rewrite <- Hs. eapply fallback_cell_later; eauto.
      right. simpl in Hin. lia. }
    rewrite <- Hu2. symmetry.
    eapply foldM_invariant_In
      with (I := fun s => data s [objectCount; xId; yId; bestId; Z.of_nat k]
                        = data t2 [objectCount; xId; yId; bestId; Z.of_nat k])
           (3 := Hafter); [| reflexivity].
    intros s dx s' Hin Hs Hdx.
    eapply foldM_invariant
      with (I := fun s => data s [objectCount; xId; yId; bestId; Z.of_nat k]
                        = data t2 [objectCount; xId; yId; bestId; Z.of_nat k])
           (3 := Hdx); [| exact Hs].
    intros s0 dy s0' Hs0 Hc.
    rewrite <- Hs0. eapply fallback_cell_later; eauto.
    left. simpl in Hin. lia.
Qed.
End FallbackAnalysis.

(** ** One object of [createPillarsTarget] *)

Lemma process_object_Returns
    positiveThreshold negativeThreshold angle_threshold downscalingFactor
    xStep yStep xMin yMin xSize ySize anchorDiagonals anchorBoxes
    t oc lb t' n' :
  process_object positiveThreshold negativeThreshold angle_threshold
    downscalingFactor xStep yStep xMin yMin xSize ySize anchorDiagonals
    anchorBoxes (t, oc) lb = Returns (t', n') ->
  exists offset xC yC found,
    search_offset lb xStep downscalingFactor = Some offset /\
    home_index (box_x lb) xMin xStep downscalingFactor = Some xC /\
    home_index (box_y lb) yMin yStep downscalingFactor = Some yC /\
    search positiveThreshold negativeThreshold angle_threshold
      downscalingFactor xStep yStep xMin yMin anchorDiagonals lb oc anchorBoxes
      (clip_int (xC - offset) 0 xSize) (clip_int (xC + offset) 0 xSize)
      (clip_int (yC - offset) 0 ySize) (clip_int (yC + offset) 0 ySize) t
      = Returns found /\
    (if fltb (maxIou found) positiveThreshold
     then fallback downscalingFactor xStep yStep xMin yMin xSize ySize lb
            (bestAnchor found) oc (bestAnchorId found) xC yC (s_tensor found)
          = Returns t'
     else t' = s_tensor found).
Proof.
  unfold process_object; simpl. intros H.
  inv_bind H. rename a into offset. rename Ha into Ho.
  inv_bind H. rename a into xC. rename Ha into HxC.
  inv_int H. inv_int H.
  inv_bind H. rename a into yC. rename Ha into HyC.
  inv_int H. inv_int H.
  inv_bind H. rename a into found. rename Ha into Hsearch.
  inv_bind H. rename Ha into Hfb. inversion H; subst; clear H.
  apply cast_Returns in Ho. apply cast_Returns in HxC.
  apply cast_Returns in HyC.
  exists offset, xC, yC, found.
  repeat (split; [assumption |]).
  destruct (fltb (maxIou found) positiveThreshold).
  - inv_bind Hfb. inv_bind Hfb.
    apply cast_Returns in Ha. apply cast_Returns in Ha0.
    unfold home_index in *. congruence.
  - inversion Hfb; reflexivity.
Qed.

Lemma parse_labels_in_range
    objectPositions objectDimensions objectYaws objectClassIds
    xMin xMax yMin yMax (l : list Z) :
  forall acc lbs,
  foldM (parse_label objectPositions objectDimensions objectYaws
           objectClassIds xMin xMax yMin yMax) l acc = Returns lbs ->
  Forall (label_in_range xMin xMax yMin yMax) acc ->
  Forall (label_in_range xMin xMax yMin yMax) lbs.
Proof.
  intros acc lbs H Hacc.
  eapply foldM_invariant
    with (I := Forall (label_in_range xMin xMax yMin yMax)) (3 := H);
    [| exact Hacc].
  clear. intros s i s' Hs Hp. unfold parse_label in Hp.
  inv_bind Hp. rename a into x. inv_bind Hp. rename a into y.
  destruct (label_out_of_range x y xMin xMax yMin yMax) eqn:E.
  - inversion Hp; subst; exact Hs.
  - repeat inv_bind Hp. inversion Hp; subst.
    apply Forall_app. split; [exact Hs |].
    constructor; [| constructor]. exact E.
Qed.

(** What [createPillarsTarget] does with its [k]-th label box. *)
Lemma target_object_slice
    objectPositions objectDimensions objectYaws objectClassIds
    anchorDimensions anchorZHeights anchorYaws
    positiveThreshold negativeThreshold angle_threshold
    nbClasses downscalingFactor
    xStep yStep xMin xMax yMin yMax zMin zMax printTime T :
  createPillarsTarget objectPositions objectDimensions objectYaws
    objectClassIds anchorDimensions anchorZHeights anchorYaws
    positiveThreshold negativeThreshold angle_threshold nbClasses
    downscalingFactor xStep yStep xMin xMax yMin yMax zMin zMax printTime
    = Returns T ->
  exists xSize ySize nbAnchors nbObjects anchorBoxes anchorDiagonals labelBoxes,
    home_index xMax xMin xStep downscalingFactor = Some xSize /\
    home_index yMax yMin yStep downscalingFactor = Some ySize /\
    shape_at anchorDimensions 0 = Returns nbAnchors /\
    shape_at objectDimensions 0 = Returns nbObjects /\
    foldM (parse_anchor anchorDimensions anchorZHeights anchorYaws)
          (range 0 nbAnchors) ([], []) = Returns (anchorBoxes, anchorDiagonals) /\
    foldM (parse_label objectPositions objectDimensions objectYaws
             objectClassIds xMin xMax yMin yMax)
          (range 0 nbObjects) [] = Returns labelBoxes /\
    shape T = [nbObjects; xSize; ySize; nbAnchors; 10]%Z /\
    (forall idx, (Z.of_nat (List.length labelBoxes) <= hd 0%Z idx)%Z ->
       data T idx = Fin 0) /\
    forall k lb, nth_error labelBoxes k = Some lb ->
      label_in_range xMin xMax yMin yMax lb /\
      exists offset xC yC tk found tk',
        search_offset lb xStep downscalingFactor = Some offset /\
        home_index (box_x lb) xMin xStep downscalingFactor = Some xC /\
        home_index (box_y lb) yMin yStep downscalingFactor = Some yC /\
        shape tk = [nbObjects; xSize; ySize; nbAnchors; 10]%Z /\
        (forall idx, hd 0%Z idx = Z.of_nat k -> data tk idx = Fin 0) /\
        search positiveThreshold negativeThreshold angle_threshold
          downscalingFactor xStep yStep xMin yMin anchorDiagonals lb
          (Z.of_nat k) anchorBoxes
          (clip_int (xC - offset) 0 xSize) (clip_int (xC + offset) 0 xSize)
          (clip_int (yC - offset) 0 ySize) (clip_int (yC + offset) 0 ySize) tk
          = Returns found /\
        (if fltb (maxIou found) positiveThreshold
         then fallback downscalingFactor xStep yStep xMin yMin xSize ySize lb
                (bestAnchor found) (Z.of_nat k) (bestAnchorId found) xC yC
                (s_tensor found) = Returns tk'
         else tk' = s_tensor found) /\
        (forall idx, hd 0%Z idx = Z.of_nat k -> data T idx = data tk' idx).
Proof.
  intros H. apply createPillarsTarget_Returns in H.
  destruct H as (xSize & ySize & nbAnchors & nbObjects & anchorBoxes &
                 anchorDiagonals & labelBoxes & T0 & n & HxS & HyS & HnA & _ &
                 HnO & _ & HA & HL & HT0 & Hloop).
  exists xSize, ySize, nbAnchors, nbObjects, anchorBoxes, anchorDiagonals,
         labelBoxes.
  apply resize_zeros_Returns in HT0. destruct HT0 as (Hsh & Hz & _).
  apply objects_loop in Hloop. destruct Hloop as (Hn & HsT & Hout & Hk).
  repeat (split; [assumption || congruence |]).
  split.
  { intros idx Hidx. rewrite Hout; [apply Hz | right; lia]. }
  intros k lb Hnth. split.
  { pose proof (parse_labels_in_range _ _ _ _ _ HL (Forall_nil _)) as HF.
    rewrite Forall_forall in HF. apply HF. eapply nth_error_In; eauto. }
  destruct (Hk k lb Hnth) as (tk & tk' & Hp & Hsk & Hfk & Hlast).
  simpl in Hp.
  apply process_object_Returns in Hp.
  destruct Hp as (offset & xC & yC & found & Ho & Hx & Hy & Hs & Hfb).
  exists offset, xC, yC, tk, found, tk'.
  repeat (split; [assumption || congruence |]).
  split.
  { intros idx Hidx. rewrite Hfk; [apply Hz | simpl; lia]. }
  split; [exact Hs |]. split; [exact Hfb |].
  intros idx Hidx. apply Hlast. simpl; lia.
Qed.

Lemma search_shape
    positiveThreshold negativeThreshold angle_threshold downscalingFactor
    xStep yStep xMin yMin anchorDiagonals lb oc abs xStart xEnd yStart yEnd
    t st :
  search positiveThreshold negativeThreshold angle_threshold
    downscalingFactor xStep yStep xMin yMin anchorDiagonals
    lb oc abs xStart xEnd yStart yEnd t = Returns st ->
  shape (s_tensor st) = shape t.
Proof.
  intros H.
  eapply search_inv with (Inv := fun s => shape s = shape t);
    [ | | exact H | reflexivity ].
  - intros s s' x y a v Hm Hs. apply mutable_at_Returns in Hm.
    destruct Hm as [Hm _]. congruence.
  - intros s s' x y a lb' ab diag Hw Hs.
    apply write_channels_Returns in Hw. destruct Hw as [Hw _]. congruence.
Qed.

Lemma label_in_range_inv xMin xMax yMin yMax lb :
  label_in_range xMin xMax yMin yMax lb ->
  fltb (box_x lb) xMin = false /\ fgeb (box_x lb) xMax = false /\
  fltb (box_y lb) yMin = false /\ fgeb (box_y lb) yMax = false.
Proof.
  unfold label_in_range, label_out_of_range. intros H.
  repeat (apply orb_false_iff in H; destruct H as [H ?]).
  repeat split; assumption.
Qed.

(** The home cell of a label box for which the fallback ran is inside the
    grid and its indices are not negative. *)
Lemma fallback_home_cell
    downscalingFactor xStep yStep xMin xMax yMin yMax xSize ySize
    lb best oc bestId xC yC nbObjects nbAnchors t t' :
  home_index xMax xMin xStep downscalingFactor = Some xSize ->
  home_index yMax yMin yStep downscalingFactor = Some ySize ->
  home_index (box_x lb) xMin xStep downscalingFactor = Some xC ->
  home_index (box_y lb) yMin yStep downscalingFactor = Some yC ->
  label_in_range xMin xMax yMin yMax lb ->
  shape t = [nbObjects; xSize; ySize; nbAnchors; 10]%Z ->
  fallback downscalingFactor xStep yStep xMin yMin xSize ySize lb best oc
    bestId xC yC t = Returns t' ->
  (0 <= xC)%Z /\ (0 <= yC)%Z /\
  forall k, (k < 10)%nat ->
    nth_error (fallback_row downscalingFactor xStep yStep xMin yMin lb best
                 (clip_int xC 0 (xSize - 1)) (clip_int yC 0 (ySize - 1))) k
    = Some (data t' [oc; clip_int xC 0 (xSize - 1); clip_int yC 0 (ySize - 1);
                     bestId; Z.of_nat k]).
Proof.
  intros HxS HyS HxC HyC Hin Hsh Hfb.
  apply fallback_Returns in Hfb. destruct Hfb as [Hb Hv].
  rewrite Hsh in Hb. simpl in Hb.
  repeat (apply andb_true_iff in Hb; destruct Hb as [Hb ?]).
  apply label_in_range_inv in Hin. destruct Hin as (Hx1 & Hx2 & Hy1 & Hy2).
  assert (Hx : (0 <= xC)%Z).
  { eapply home_cell_nonneg with (size := xSize); eauto. unfold clip_int in *. lia. }
  assert (Hy : (0 <= yC)%Z).
  { eapply home_cell_nonneg with (size := ySize); eauto. unfold clip_int in *. lia. }
  split; [exact Hx |]. split; [exact Hy |].
  apply Hv; assumption.
Qed.

(** ** A search in which no anchor overlaps the label box *)

Section NoOverlap.
Variables (positiveThreshold negativeThreshold angle_threshold : float).
Variables (downscalingFactor : Z).
Variables (xStep yStep xMin yMin : float).
Variable (anchorDiagonals : list float).
Variables (labelBox : BoundingBox3D) (objectCount : Z).

Lemma match_anchor_untouched xId yId x y st n ab st' :
  fltb (Fin 0)
       (iou (place ab x y (anchor_yaw angle_threshold labelBox ab)) labelBox)
    = false ->
  match_anchor positiveThreshold negativeThreshold angle_threshold
    anchorDiagonals labelBox objectCount xId yId x y st n ab = Returns st' ->
  untouched st -> untouched st'.
Proof.
  unfold match_anchor, untouched. intros Hiou H (Hm & Hb & Hi).
  rewrite Hm, Hiou in H.
  inv_bind H. inversion H; subst; simpl. auto.
Qed.

Lemma match_anchors_untouched xId yId x y abs :
  (forall ab, In ab abs ->
     fltb (Fin 0)
          (iou (place ab x y (anchor_yaw angle_threshold labelBox ab))
               labelBox) = false) ->
  forall n st st',
  match_anchors positiveThreshold negativeThreshold angle_threshold
    anchorDiagonals labelBox objectCount xId yId x y abs n st = Returns st' ->
  untouched st -> untouched st'.
Proof.
  induction abs as [| ab abs IH]; intros Hall n st st' H Hu; simpl in H.
  - inversion H; subst; exact Hu.
  - inv_bind H. eapply IH; [| exact H |].
    + intros ab' Hin. apply Hall. right. exact Hin.
    + eapply match_anchor_untouched; [| exact Ha | exact Hu].
      apply Hall. left. reflexivity.
Qed.

Lemma search_untouched abs xStart xEnd yStart yEnd t found :
  (forall xId yId ab,
     In xId (range xStart xEnd) -> In yId (range yStart yEnd) -> In ab abs ->
     fltb (Fin 0)
          (iou (place ab (cell_coord xId xStep downscalingFactor xMin)
                         (cell_coord yId yStep downscalingFactor yMin)
                         (anchor_yaw angle_threshold labelBox ab))
               labelBox) = false) ->
  search positiveThreshold negativeThreshold angle_threshold
    downscalingFactor xStep yStep xMin yMin anchorDiagonals
    labelBox objectCount abs xStart xEnd yStart yEnd t = Returns found ->
  untouched found.
Proof.
  unfold search. intros Hall H.
  eapply foldM_invariant_In with (I := untouched) (3 := H);
    [| repeat split].
  intros s xId s' Hx Hs Hcol. unfold search_column in Hcol.
  eapply foldM_invariant_In with (I := untouched) (3 := Hcol); [| exact Hs].
  intros s1 yId s1' Hy Hs1 Hm.
  eapply match_anchors_untouched; [| exact Hm | exact Hs1].
  intros ab Hin. apply Hall; assumption.
Qed.
End NoOverlap.

Lemma fdiv_zero_not_finite (a : float) : is_finite (fdiv a (Fin 0)) = false.
Proof.
  destruct a as [r | s | ]; simpl; try reflexivity.
  rewrite Reqb_true by reflexivity.
  destruct (Reqb r 0); reflexivity.
Qed.

Lemma flog_not_finite (a : float) :
  is_finite a = false -> is_finite (flog a) = false.
Proof. destruct a as [r | [|] | ]; simpl; intros H; congruence. Qed.

Lemma zero_box_diagonal :
  fsqrt (fadd (fpow2 (box_width zero_box)) (fpow2 (box_length zero_box)))
  = Fin 0.
Proof.
  simpl. rewrite Rltb_false by lra.
  replace (0 * 0 + 0 * 0)%R with 0%R by lra. rewrite sqrt_0. reflexivity.
Qed.

(** The regression channels 1 to 6 of the fallback row are not finite when
    the best anchor is the zero-initialized box. *)
Lemma fallback_row_zero_box downscalingFactor xStep yStep xMin yMin lb xId yId k v :
  (1 <= k <= 6)%nat ->
  nth_error (fallback_row downscalingFactor xStep yStep xMin yMin lb zero_box
                          xId yId) k = Some v ->
  is_finite v = false.
Proof.
  intros Hk. unfold fallback_row. rewrite zero_box_diagonal.
  destruct k as [| [| [| [| [| [| [| k]]]]]]]; try lia; simpl;
    intros H; inversion H; subst;
    try apply flog_not_finite; apply fdiv_zero_not_finite.
Qed.

(** ** The label boxes that are processed *)

Lemma at_Returns {A} (a : NdArray A) (idx : list Z) (v : A) :
  at_ a idx = Returns v -> v = data a idx /\ in_bounds (shape a) idx = true.
Proof.
  unfold at_. destruct (in_bounds (shape a) idx); intros H; inversion H.
  split; reflexivity.
Qed.

Lemma parse_labels_rows
    objectPositions objectDimensions objectYaws objectClassIds
    xMin xMax yMin yMax (l : list Z) :
  forall acc lbs,
  foldM (parse_label objectPositions objectDimensions objectYaws
           objectClassIds xMin xMax yMin yMax) l acc = Returns lbs ->
  map box_xy lbs
  = map box_xy acc ++
    map (row_xy objectPositions)
        (filter (row_in_range objectPositions xMin xMax yMin yMax) l).
Proof.
  induction l as [| i l IH]; intros acc lbs H; simpl in H.
  - inversion H; subst. simpl. rewrite app_nil_r. reflexivity.
  - inv_bind H. rename a into acc1. apply IH in H. rewrite H. clear H IH.
    unfold parse_label in Ha.
    inv_bind Ha. rename a into x. inv_bind Ha. rename a into y.
    apply at_Returns in Ha0. destruct Ha0 as [-> _].
    apply at_Returns in Ha1. destruct Ha1 as [-> _].
    simpl. unfold row_in_range at 2.
    destruct (label_out_of_range _ _ xMin xMax yMin yMax); simpl.
    + inversion Ha; subst. reflexivity.
    + repeat inv_bind Ha. inversion Ha; subst.
      rewrite map_app, <- app_assoc. reflexivity.
Qed.

Lemma filter_negb_length {A} (f : A -> bool) (l : list A) :
  (List.length (filter f l) + List.length (filter (fun a => negb (f a)) l)
   = List.length l)%nat.
Proof.
  induction l as [| a l IH]; simpl; [reflexivity |].
  destruct (f a); simpl; lia.
Qed.

Lemma parse_labels_boxes
    objectPositions objectDimensions objectYaws objectClassIds
    xMin xMax yMin yMax (l : list Z) :
  forall acc lbs,
  foldM (parse_label objectPositions objectDimensions objectYaws
           objectClassIds xMin xMax yMin yMax) l acc = Returns lbs ->
  lbs = acc ++
        map (row_box objectPositions objectDimensions objectYaws
                     objectClassIds)
            (filter (row_in_range objectPositions xMin xMax yMin yMax) l).
Proof.
  induction l as [| i l IH]; intros acc lbs H; simpl in H.
  - inversion H; subst. simpl. rewrite app_nil_r. reflexivity.
  - inv_bind H. rename a into acc1. apply IH in H. rewrite H. clear H IH.
    unfold parse_label in Ha.
    inv_bind Ha. rename a into x. inv_bind Ha. rename a into y.
    apply at_Returns in Ha0. destruct Ha0 as [-> _].
    apply at_Returns in Ha1. destruct Ha1 as [-> _].
    simpl. unfold row_in_range at 2.
    destruct (label_out_of_range _ _ xMin xMax yMin yMax); simpl.
    + inversion Ha; subst. reflexivity.
    + inv_bind Ha. apply at_Returns in Ha0. destruct Ha0 as [-> _].
      inv_bind Ha. apply at_Returns in Ha0. destruct Ha0 as [-> _].
      inv_bind Ha. apply at_Returns in Ha0. destruct Ha0 as [-> _].
      inv_bind Ha. apply at_Returns in Ha0. destruct Ha0 as [-> _].
      inv_bind Ha. apply at_Returns in Ha0. destruct Ha0 as [-> _].
      inv_bind Ha. apply at_Returns in Ha0. destruct Ha0 as [-> _].
      inversion Ha; subst.
      rewrite <- app_assoc. reflexivity.
Qed.

(** C8 (as amended).  The boxes whose centre lies outside
    [[xMin, xMax) x [yMin, yMax)] are skipped: the label boxes that are
    processed are the boxes of the rows inside the bounds, in input order,
    and the object count is incremented for these only.  The boxes inside
    the bounds are written to consecutive slices of the leading dimension:
    the [k]-th of them, at the input row [i], is processed with the object
    count [k], on a tensor whose slice [k] is still zero, and the slice [k]
    it leaves is the slice [k] of the result, whatever its input row [i]; it
    writes to no other slice.
    The slices from the number of boxes inside the bounds on, as many as
    there are boxes outside, remain all zero. *)
Theorem out_of_range_boxes_leave_trailing_slices_zero :
  forall objectPositions objectDimensions objectYaws objectClassIds
         anchorDimensions anchorZHeights anchorYaws
         positiveThreshold negativeThreshold angle_threshold
         nbClasses downscalingFactor
         xStep yStep xMin xMax yMin yMax zMin zMax printTime T
         nbObjects labelBoxes,
  createPillarsTarget objectPositions objectDimensions objectYaws
    objectClassIds anchorDimensions anchorZHeights anchorYaws
    positiveThreshold negativeThreshold angle_threshold nbClasses
    downscalingFactor xStep yStep xMin xMax yMin yMax zMin zMax printTime
    = Returns T ->
  shape_at objectDimensions 0 = Returns nbObjects ->
  foldM (parse_label objectPositions objectDimensions objectYaws
           objectClassIds xMin xMax yMin yMax)
        (range 0 nbObjects) [] = Returns labelBoxes ->
  let inside := filter (row_in_range objectPositions xMin xMax yMin yMax)
                       (range 0 nbObjects) in
  let outside := filter (fun i => negb (row_in_range objectPositions
                                          xMin xMax yMin yMax i))
                        (range 0 nbObjects) in
  labelBoxes = List.map (row_box objectPositions objectDimensions objectYaws
                                 objectClassIds) inside /\
  List.map box_xy labelBoxes = List.map (row_xy objectPositions) inside /\
  (Z.of_nat (List.length inside) + Z.of_nat (List.length outside)
   = nbObjects)%Z /\
  nth_error (shape T) 0 = Some nbObjects /\
  (exists xSize ySize nbAnchors anchorBoxes anchorDiagonals,
     target_setup objectPositions objectDimensions objectYaws objectClassIds
       anchorDimensions anchorZHeights anchorYaws downscalingFactor
       xStep yStep xMin xMax yMin yMax
       xSize ySize nbAnchors nbObjects anchorBoxes anchorDiagonals
       labelBoxes /\
     forall k i, nth_error inside k = Some i ->
       exists tk tk',
         (forall idx, (Z.of_nat k <= hd 0%Z idx)%Z -> data tk idx = Fin 0) /\
         process_object positiveThreshold negativeThreshold angle_threshold
           downscalingFactor xStep yStep xMin yMin xSize ySize
           anchorDiagonals anchorBoxes (tk, Z.of_nat k)
           (row_box objectPositions objectDimensions objectYaws
                    objectClassIds i)
         = Returns (tk', (Z.of_nat k + 1)%Z) /\
         (forall idx, hd 0%Z idx <> Z.of_nat k -> data tk' idx = data tk idx) /\
         (forall idx, hd 0%Z idx = Z.of_nat k -> data T idx = data tk' idx)) /\
  forall o x y a c,
    (Z.of_nat (List.length inside) <= o)%Z ->
    data T [o; x; y; a; c] = Fin 0.
Proof.
  intros until labelBoxes. intros H HnO' HL'.
  apply createPillarsTarget_Returns in H.
  destruct H as (xSize & ySize & nbAnchors & nbObjects0 & anchorBoxes &
                 anchorDiagonals & labelBoxes0 & T0 & n & HxS & HyS & HnA & _ &
                 HnO & Hpos & HA & HL & HT0 & Hloop).
  rewrite HnO' in HnO. inversion HnO; subst nbObjects0.
  rewrite HL' in HL. inversion HL; subst labelBoxes0.
  apply resize_zeros_Returns in HT0. destruct HT0 as (Hsh & Hz & _).
  apply objects_loop in Hloop. destruct Hloop as (Hn & HsT & Hout & Hk).
  cbv zeta.
  pose proof HL' as Hboxes. apply parse_labels_boxes in Hboxes.
  cbn [app] in Hboxes.
  pose proof HL' as Hrows. apply parse_labels_rows in Hrows.
  cbn [map app] in Hrows.
  assert (Hlen : List.length labelBoxes
                 = List.length (filter (row_in_range objectPositions
                                          xMin xMax yMin yMax)
                                       (range 0 nbObjects))).
  { rewrite Hboxes at 1. apply length_map. }
  split; [exact Hboxes |]. split; [exact Hrows |].
  split; [| split; [| split]].
  - pose proof (filter_negb_length
                  (row_in_range objectPositions xMin xMax yMin yMax)
                  (range 0 nbObjects)) as Hf.
    rewrite range_length in Hf. lia.
  - rewrite HsT, Hsh. reflexivity.
  - exists xSize, ySize, nbAnchors, anchorBoxes, anchorDiagonals. split.
    { unfold target_setup, home_index. repeat split; assumption. }
    intros k i Hi.
    assert (Hnth : nth_error labelBoxes k
                   = Some (row_box objectPositions objectDimensions objectYaws
                                   objectClassIds i)).
    { rewrite Hboxes at 1. rewrite nth_error_map, Hi. reflexivity. }
    destruct (Hk k _ Hnth) as (tk & tk' & Hp & _ & Hfk & Hlast).
    exists tk, tk'. cbn [Z.add] in Hp, Hfk, Hlast.
    split; [| split; [| split]].
    + intros idx Hidx. rewrite Hfk by exact Hidx. apply Hz.
    + exact Hp.
    + apply process_object_frame in Hp. apply Hp.
    + intros idx Hidx. apply Hlast. exact Hidx.
  - intros o x y a c Ho. rewrite Hout; [apply Hz |].
    right. cbn [hd]. lia.
Qed.

(** ** The yaw residual *)






(** ** The emission loops of [createPillars] *)

Section EmissionProps.
Context {P : Type} {PL : PillarPointLike P}.
Variables (maxPointsPerPillar maxPillars : Z).
Variables (xStep yStep xMin yMin : float).

Let feat := features (PL := PL) xStep yStep xMin yMin.

Lemma emit_points_Returns (pts : list P) :
  forall pillarId pointId xIndex yIndex t t',
  emit_points maxPointsPerPillar xStep yStep xMin yMin pts pillarId pointId
              xIndex yIndex t = Returns t' ->
  shape t' = shape t /\
  (forall j p, nth_error pts j = Some p ->
     (pointId + Z.of_nat j < maxPointsPerPillar)%Z ->
     forall c v, nth_error (feat xIndex yIndex p) c = Some v ->
       data t' [0%Z; pillarId; (pointId + Z.of_nat j)%Z; Z.of_nat c] = v) /\
  (forall idx,
     (forall j c, (j < List.length pts)%nat ->
        (pointId + Z.of_nat j < maxPointsPerPillar)%Z ->
        idx <> [0%Z; pillarId; (pointId + Z.of_nat j)%Z; c]) ->
     data t' idx = data t idx).
Proof.
  induction pts as [| p rest IH]; intros pillarId pointId xIndex yIndex t t' H;
    cbn [emit_points] in H.
  - inversion H; subst. split; [reflexivity |]. split.
    + intros [| j] q Hq; discriminate.
    + reflexivity.
  - destruct (pointId >=? maxPointsPerPillar)%Z eqn:E.
    + inversion H; subst. split; [reflexivity |]. split.
      * intros j q _ Hlt. lia.
      * reflexivity.
    + inv_bind H. rename a into t1.
      apply write_channels_Returns in Ha. destruct Ha as (Hs1 & Hv1 & Hf1).
      apply IH in H. destruct H as (Hs & Hv & Hf).
      split; [congruence |]. split.
      * intros [| j] q Hq Hlt c v Hc; simpl in Hq.
        -- inversion Hq; subst q.
           replace (pointId + Z.of_nat 0)%Z with pointId by lia.
           rewrite Hf.
           ++ assert (Hlen : (c < List.length (feat xIndex yIndex p))%nat)
                by (apply nth_error_Some; congruence).
              destruct (Hv1 c Hlen) as [_ Hn].
              fold feat in Hn. rewrite Hc in Hn. simpl in Hn.
              inversion Hn; reflexivity.
           ++ intros j' c' _ _ Heq. inversion Heq. lia.
        -- replace (pointId + Z.of_nat (S j))%Z
             with (pointId + 1 + Z.of_nat j)%Z by lia.
           eapply Hv; eauto. lia.
      * intros idx Hidx. rewrite Hf.
        -- apply Hf1. intros k _ Heq.
           apply (Hidx 0%nat (0 + Z.of_nat k)%Z); [simpl; lia | lia |].
           replace (pointId + Z.of_nat 0)%Z with pointId by lia.
           exact Heq.
        -- intros j c Hj Hlt Heq.
           apply (Hidx (S j) c); [simpl; lia | lia |].
           replace (pointId + Z.of_nat (S j))%Z
             with (pointId + 1 + Z.of_nat j)%Z by lia.
           exact Heq.
Qed.

(** The points of a pillar after [xc], [yc], [zc] were assigned. *)
Lemma center_points_nth (pts : list P) (j : nat) :
  nth_error (center_points pts) j
  = option_map
      (fun p => set_c p (fsub (p_x p) (mean_field p_x pts))
                        (fsub (p_y p) (mean_field p_y pts))
                        (fsub (p_z p) (mean_field p_z pts)))
      (nth_error pts j).
Proof. unfold center_points. apply nth_error_map. Qed.

Lemma center_points_length (pts : list P) :
  List.length (center_points pts) = List.length pts.
Proof. unfold center_points. apply length_map. Qed.

Lemma emit_pillars_Returns (entries : PillarMap P) :
  forall pillarId t ind t' ind',
  emit_pillars maxPointsPerPillar maxPillars xStep yStep xMin yMin
               entries pillarId t ind = Returns (t', ind') ->
  (forall i e, nth_error entries i = Some e ->
     (pillarId + Z.of_nat i < maxPillars)%Z ->
     exists xIndex yIndex,
       static_cast_int (cell_index (mean_field p_x (snd e)) xMin xStep)
         = Some xIndex /\
       static_cast_int (cell_index (mean_field p_y (snd e)) yMin yStep)
         = Some yIndex /\
       data ind' [0; pillarId + Z.of_nat i; 1]%Z = xIndex /\
       data ind' [0; pillarId + Z.of_nat i; 2]%Z = yIndex /\
       (forall j p, nth_error (center_points (snd e)) j = Some p ->
          (Z.of_nat j < maxPointsPerPillar)%Z ->
          forall c v, nth_error (feat xIndex yIndex p) c = Some v ->
            data t' [0%Z; (pillarId + Z.of_nat i)%Z; Z.of_nat j; Z.of_nat c]
            = v) /\
       (forall b j c,
          (Z.of_nat (List.length (snd e)) <= j \/ maxPointsPerPillar <= j
           \/ j < 0)%Z ->
          data t' [b; (pillarId + Z.of_nat i)%Z; j; c]
          = data t [b; (pillarId + Z.of_nat i)%Z; j; c])) /\
  (forall b s j c,
     (s < pillarId \/ pillarId + Z.of_nat (List.length entries) <= s
      \/ maxPillars <= s)%Z ->
     data t' [b; s; j; c] = data t [b; s; j; c]) /\
  (forall b s c,
     (s < pillarId \/ pillarId + Z.of_nat (List.length entries) <= s
      \/ maxPillars <= s)%Z ->
     data ind' [b; s; c] = data ind [b; s; c]).
Proof.
  induction entries as [| e rest IH]; intros pillarId t ind t' ind' H;
    cbn [emit_pillars] in H.
  - inversion H; subst. split; [| split; reflexivity].
    intros [| i] e He; discriminate.
  - destruct (pillarId >=? maxPillars)%Z eqn:E.
    + inversion H; subst. split; [| split; reflexivity].
      intros i e' _ Hlt. lia.
    + inv_bind H. rename a into xIndex. inv_bind H. rename a into yIndex.
      inv_bind H. rename a into ind1. inv_bind H. rename a into ind2.
      inv_bind H. rename a into t1.
      apply cast_Returns in Ha. apply cast_Returns in Ha0.
      apply mutable_at_Returns in Ha1. destruct Ha1 as (_ & _ & Hx1 & Hxf).
      apply mutable_at_Returns in Ha2. destruct Ha2 as (_ & _ & Hy2 & Hyf).
      apply emit_points_Returns in Ha3. destruct Ha3 as (_ & Hpv & Hpf).
      apply IH in H. destruct H as (Hrest & Hft & Hfi).
      split; [| split].
      * intros [| i] e' He' Hlt; simpl in He'.
        -- inversion He'; subst e'.
           replace (pillarId + Z.of_nat 0)%Z with pillarId by lia.
           exists xIndex, yIndex.
           split; [exact Ha |]. split; [exact Ha0 |].
           split; [| split; [| split]].
           ++ rewrite Hfi by lia. rewrite Hyf by congruence. exact Hx1.
           ++ rewrite Hfi by lia. exact Hy2.
           ++ intros j p Hp Hj c v Hc. rewrite Hft by lia.
              specialize (Hpv j p Hp ltac:(lia) c v Hc).
              replace (0 + Z.of_nat j)%Z with (Z.of_nat j) in Hpv by lia.
              exact Hpv.
           ++ intros b j c Hj. rewrite Hft by lia.
              apply Hpf. intros j' c' Hj' Hlt' Heq.
              rewrite center_points_length in Hj'.
              inversion Heq. lia.
        -- replace (pillarId + Z.of_nat (S i))%Z
             with (pillarId + 1 + Z.of_nat i)%Z by lia.
           destruct (Hrest i e' He' ltac:(lia))
             as (xI & yI & Hc1 & Hc2 & Hi1 & Hi2 & Hv & Hz).
           exists xI, yI. repeat (split; [assumption |]).
           intros b j c Hj. rewrite Hz by exact Hj.
           apply Hpf. intros j' c' _ _ Heq. inversion Heq. lia.
      * intros b s j c Hs. simpl List.length in Hs.
        rewrite Hft by lia.
        apply Hpf. intros j' c' _ _ Heq. inversion Heq. lia.
      * intros b s c Hs. simpl List.length in Hs.
        rewrite Hfi by lia.
        rewrite Hyf by (intros Heq; inversion Heq; lia).
        apply Hxf. intros Heq; inversion Heq; lia.
Qed.
End EmissionProps.

(** ** The binning loop of [createPillars] *)

Lemma key_eqb_eq (k k' : Key) : key_eqb k k' = true <-> k = k'.
Proof.
  destruct k as [a b], k' as [a' b']. unfold key_eqb. simpl.
  rewrite andb_true_iff, !Z.eqb_eq. split.
  - intros [-> ->]. reflexivity.
  - intros H. inversion H. auto.
Qed.

Lemma key_eqb_refl (k : Key) : key_eqb k k = true.
Proof. apply key_eqb_eq. reflexivity. Qed.

Lemma key_eqb_sym (k k' : Key) : key_eqb k k' = key_eqb k' k.
Proof.
  destruct (key_eqb k k') eqn:E1, (key_eqb k' k) eqn:E2; try reflexivity.
  - apply key_eqb_eq in E1. subst. rewrite key_eqb_refl in E2. discriminate.
  - apply key_eqb_eq in E2. subst. rewrite key_eqb_refl in E1. discriminate.
Qed.

Lemma lookup_emplace_back {P} (k k' : Key) (p : P) (m : PillarMap P) :
  lookup k (emplace_back k' p m)
  = if key_eqb k k' then lookup k m ++ [p] else lookup k m.
Proof.
  induction m as [| [k2 ps] m IH]; simpl.
  - destruct (key_eqb k k'); reflexivity.
  - destruct (key_eqb k' k2) eqn:E2; simpl.
    + apply key_eqb_eq in E2. subst k2.
      destruct (key_eqb k k'); reflexivity.
    + destruct (key_eqb k k2) eqn:E; [| exact IH].
      apply key_eqb_eq in E. subst k2.
      rewrite key_eqb_sym, E2. reflexivity.
Qed.

Lemma keys_emplace_back {P} (k : Key) (p : P) (m : PillarMap P) :
  List.map fst (emplace_back k p m)
  = if existsb (key_eqb k) (List.map fst m) then List.map fst m
    else List.map fst m ++ [k].
Proof.
  induction m as [| [k2 ps] m IH]; simpl; [reflexivity |].
  destruct (key_eqb k k2) eqn:E; simpl; [reflexivity |].
  rewrite IH. destruct (existsb (key_eqb k) (List.map fst m)); reflexivity.
Qed.

Lemma existsb_key_In (k : Key) (ks : list Key) :
  existsb (key_eqb k) ks = true <-> In k ks.
Proof.
  rewrite existsb_exists. split.
  - intros [k' [Hin Heq]]. apply key_eqb_eq in Heq. subst. exact Hin.
  - intros Hin. exists k. split; [exact Hin | apply key_eqb_refl].
Qed.

Lemma NoDup_keys_emplace_back {P} (k : Key) (p : P) (m : PillarMap P) :
  NoDup (List.map fst m) -> NoDup (List.map fst (emplace_back k p m)).
Proof.
  intros H. rewrite keys_emplace_back.
  destruct (existsb (key_eqb k) (List.map fst m)) eqn:E; [exact H |].
  apply NoDup_app; [exact H | repeat constructor; intros [] | ].
  intros k' Hin [Heq | []]. subst k'.
  apply existsb_key_In in Hin. congruence.
Qed.

Lemma lookup_In {P} (k : Key) (ps : list P) (m : PillarMap P) :
  NoDup (List.map fst m) -> In (k, ps) m -> lookup k m = ps.
Proof.
  induction m as [| [k2 ps2] m IH]; simpl; intros Hnd Hin; [tauto |].
  inversion Hnd as [| ? ? Hnotin Hnd']; subst.
  destruct Hin as [Heq | Hin].
  - inversion Heq; subst. rewrite key_eqb_refl. reflexivity.
  - destruct (key_eqb k k2) eqn:E; [| apply IH; assumption].
    apply key_eqb_eq in E. subst k2. exfalso. apply Hnotin.
    apply in_map_iff. exists (k, ps). split; [reflexivity | exact Hin].
Qed.

Lemma lookup_not_nil {P} (k : Key) (m : PillarMap P) :
  lookup k m <> [] -> In k (List.map fst m).
Proof.
  induction m as [| [k2 ps2] m IH]; simpl; intros H; [congruence |].
  destruct (key_eqb k k2) eqn:E.
  - apply key_eqb_eq in E. left. congruence.
  - right. apply IH. exact H.
Qed.

Section Binning.
Variable P : Type.
(** Per input row: whether the loop skips it, the key it computes and the
    point it builds. *)
Variable skip : Z -> bool.
Variable key_of : Z -> option Key.
Variable point_of : Z -> P.
Variable bin : PillarMap P -> Z -> Outcome (PillarMap P).

Hypothesis bin_spec : forall m i m',
  bin m i = Returns m' ->
  if skip i then m' = m
  else exists k, key_of i = Some k /\
                 m' = emplace_back k (point_of i) m.

Lemma bin_loop (l : list Z) :
  forall m0 m,
  foldM bin l m0 = Returns m ->
  (forall k, lookup k m
             = lookup k m0 ++
               List.map point_of (filter (row_in_cell skip key_of k) l)) /\
  (NoDup (List.map fst m0) -> NoDup (List.map fst m)) /\
  (Forall (fun e => snd e <> []) m0 -> Forall (fun e => snd e <> []) m).
Proof.
  induction l as [| i l IH]; intros m0 m H; simpl in H.
  - inversion H; subst. repeat split; auto.
    intros k. simpl. rewrite app_nil_r. reflexivity.
  - inv_bind H. rename a into m1.
    apply IH in H. destruct H as (Hl & Hnd & Hne).
    apply bin_spec in Ha.
    destruct (skip i) eqn:Es.
    + subst m1. split; [| split; assumption].
      intros k. rewrite Hl. simpl. unfold row_in_cell at 2.
      rewrite Es. reflexivity.
    + destruct Ha as (k' & Hk' & ->). split; [| split].
      * intros k. rewrite Hl, lookup_emplace_back. simpl.
        unfold row_in_cell at 2. rewrite Es, Hk'. simpl.
        destruct (key_eqb k k'); [| reflexivity].
        simpl. rewrite <- app_assoc. reflexivity.
      * intros H0. apply Hnd. apply NoDup_keys_emplace_back. exact H0.
      * intros H0. apply Hne. clear - H0.
        induction m0 as [| [k2 ps] m0 IH]; simpl.
        -- repeat constructor. simpl. congruence.
        -- inversion H0; subst.
           destruct (key_eqb k' k2); constructor; simpl; auto.
           intros Heq. apply app_eq_nil in Heq. destruct Heq; congruence.
Qed.
End Binning.

(** ** The means of a pillar *)

(** The mean the emission loop takes over the points built from the rows
    [rows] is the mean of a column of the input over these rows. *)
Lemma mean_field_rows {P} {PL : PillarPointLike P} (points : NdArray float)
    (row_point : Z -> P) (f : P -> float) (c : Z) (rows : list Z) :
  (forall i, f (row_point i) = data points [i; c]) ->
  mean_field f (List.map row_point rows) = column_mean points c rows.
Proof.
  intros Hf. unfold mean_field, sum_field, column_mean.
  rewrite length_map. f_equal.
  generalize (Fin 0). induction rows as [| i rows IH]; intros a;
    [reflexivity |].
  cbn [List.map fold_left]. rewrite Hf. apply IH.
Qed.

(** ** The pillars written by [createPillars] *)

Lemma bin_point4_spec points xStep yStep xMin xMax yMin yMax zMin zMax
    minDistance m i m' :
  bin_point4 points xStep yStep xMin xMax yMin yMax zMin zMax minDistance m i
    = Returns m' ->
  if row_skipped 4 points xMin xMax yMin yMax zMin zMax minDistance i
  then m' = m
  else exists k, row_key points xStep yStep xMin yMin i = Some k /\
                 m' = emplace_back k (row_point4 points i) m.
Proof.
  unfold bin_point4, row_skipped, row_key, row_point4. simpl (4 =? 4)%Z.
  intros H.
  inv_bind H. apply at_Returns in Ha. destruct Ha as [-> _].
  inv_bind H. apply at_Returns in Ha. destruct Ha as [-> _].
  inv_bind H. apply at_Returns in Ha. destruct Ha as [-> _].
  destruct (rejected4 _ _ _ _ _ _ _ _ _ _).
  - inversion H; reflexivity.
  - inv_bind H. apply cast_Returns in Ha. rewrite Ha.
    inv_bind H. apply cast_Returns in Ha0. rewrite Ha0.
    inv_bind H. apply at_Returns in Ha1. destruct Ha1 as [-> _].
    inversion H; subst. eexists; split; reflexivity.
Qed.

Lemma bin_point7_spec points xStep yStep xMin xMax yMin yMax zMin zMax
    minDistance m i m' :
  bin_point7 points xStep yStep xMin xMax yMin yMax zMin zMax minDistance m i
    = Returns m' ->
  if row_skipped 7 points xMin xMax yMin yMax zMin zMax minDistance i
  then m' = m
  else exists k, row_key points xStep yStep xMin yMin i = Some k /\
                 m' = emplace_back k (row_point7 points i) m.
Proof.
  unfold bin_point7, row_skipped, row_key, row_point7. simpl (7 =? 4)%Z.
  intros H.
  inv_bind H. apply at_Returns in Ha. destruct Ha as [-> _].
  inv_bind H. apply at_Returns in Ha. destruct Ha as [-> _].
  inv_bind H. apply at_Returns in Ha. destruct Ha as [-> _].
  destruct (rejected7 _ _ _ _ _ _ _ _ _ _).
  - inversion H; reflexivity.
  - inv_bind H. apply cast_Returns in Ha. rewrite Ha.
    inv_bind H. apply cast_Returns in Ha0. rewrite Ha0.
    inv_bind H. apply at_Returns in Ha1. destruct Ha1 as [-> _].
    inv_bind H. apply at_Returns in Ha1. destruct Ha1 as [-> _].
    inv_bind H. apply at_Returns in Ha1. destruct Ha1 as [-> _].
    inv_bind H. apply at_Returns in Ha1. destruct Ha1 as [-> _].
    inversion H; subst. eexists; split; reflexivity.
Qed.

Section PillarsGeneric.
Context {P : Type} {PL : PillarPointLike P}.
Variables (ncols : Z) (points : NdArray float).
Variables (maxPointsPerPillar maxPillars : Z).
Variables (xStep yStep xMin xMax yMin yMax zMin zMax minDistance : float).
Variable (nrows : Z).
Variable row_point : Z -> P.
Variable bin : PillarMap P -> Z -> Outcome (PillarMap P).

Let skipped := row_skipped ncols points xMin xMax yMin yMax zMin zMax
                           minDistance.
Let key := row_key points xStep yStep xMin yMin.
Let rows_of := rows_of_cell ncols points xStep yStep xMin xMax yMin yMax
                            zMin zMax minDistance nrows.

Hypothesis bin_spec : forall m i m',
  bin m i = Returns m' ->
  if skipped i then m' = m
  else exists k, key i = Some k /\ m' = emplace_back k (row_point i) m.

(** [set_c] assigns [xc], [yc], [zc] only. *)
Hypothesis set_c_x : forall p a b c, p_x (set_c p a b c) = p_x p.
Hypothesis set_c_y : forall p a b c, p_y (set_c p a b c) = p_y p.
Hypothesis set_c_z : forall p a b c, p_z (set_c p a b c) = p_z p.
Hypothesis set_c_i : forall p a b c,
  p_intensity (set_c p a b c) = p_intensity p.
Hypothesis set_c_xc : forall p a b c, p_xc (set_c p a b c) = a.
Hypothesis set_c_yc : forall p a b c, p_yc (set_c p a b c) = b.
Hypothesis set_c_zc : forall p a b c, p_zc (set_c p a b c) = c.
Hypothesis set_c_extra : forall p a b c,
  p_extra (set_c p a b c) = p_extra p.

Hypothesis point_x : forall i, p_x (row_point i) = data points [i; 0%Z].
Hypothesis point_y : forall i, p_y (row_point i) = data points [i; 1%Z].
Hypothesis point_z : forall i, p_z (row_point i) = data points [i; 2%Z].
Hypothesis point_i : forall i,
  p_intensity (row_point i) = clamp (data points [i; 3%Z]) (Fin 0) (Fin 1).
Hypothesis point_extra : forall i, ncols = 7%Z ->
  p_extra (row_point i)
  = [data points [i; 4%Z]; data points [i; 5%Z]; data points [i; 6%Z]].

(** The entries of the map after the binning loop: one entry per occupied
    cell, holding the points of the rows of the cell in input order. *)
Lemma binned_entries m entries :
  foldM bin (range 0 nrows) [] = Returns m ->
  Permutation entries m ->
  NoDup (List.map fst entries) /\
  (forall k, In k (List.map fst entries) <-> rows_of k <> []) /\
  (forall e, In e entries ->
     snd e = List.map row_point (rows_of (fst e)) /\ snd e <> []).
Proof.
  intros Hbin Hperm.
  apply (bin_loop skipped key row_point bin bin_spec) in Hbin.
  destruct Hbin as (Hlook & Hnd & Hne).
  specialize (Hnd (NoDup_nil _)). specialize (Hne (Forall_nil _)).
  simpl in Hlook. fold (rows_of_cell ncols points xStep yStep xMin xMax yMin
                          yMax zMin zMax minDistance nrows) in Hlook.
  assert (Hlook' : forall k, lookup k m = List.map row_point (rows_of k))
    by exact Hlook.
  clear Hlook.
  assert (Hin : forall e, In e entries ->
            snd e = List.map row_point (rows_of (fst e)) /\ snd e <> []).
  { intros [k ps] He. simpl.
    assert (Hm : In (k, ps) m) by (eapply Permutation_in; eauto).
    rewrite <- Hlook'. rewrite (@lookup_In _ k ps m Hnd Hm).
    split; [reflexivity |].
    rewrite Forall_forall in Hne. apply (Hne _ Hm). }
  split; [| split; [| exact Hin]].
  - eapply Permutation_NoDup; [| exact Hnd].
    apply Permutation_map. apply Permutation_sym. exact Hperm.
  - intros k. split.
    + intros Hk. apply in_map_iff in Hk. destruct Hk as (e & <- & He).
      destruct (Hin e He) as [Hs Hn]. intros Hnil.
      rewrite Hnil in Hs. simpl in Hs. congruence.
    + intros Hk.
      assert (Hl : lookup k m <> []).
      { rewrite Hlook'. intros Hnil. apply map_eq_nil in Hnil. congruence. }
      apply lookup_not_nil in Hl.
      eapply Permutation_in; [| exact Hl].
      apply Permutation_map. apply Permutation_sym. exact Hperm.
Qed.

Lemma pillars_generic m entries t0 ind0 tensor indices :
  foldM bin (range 0 nrows) [] = Returns m ->
  Permutation entries m ->
  (forall idx, data t0 idx = Fin 0) ->
  (forall idx, data ind0 idx = 0%Z) ->
  (0 <= maxPillars)%Z ->
  emit_pillars maxPointsPerPillar maxPillars xStep yStep xMin yMin
               entries 0%Z t0 ind0 = Returns (tensor, indices) ->
  pillars_written ncols points maxPointsPerPillar maxPillars
    xStep yStep xMin xMax yMin yMax zMin zMax minDistance nrows
    (List.map fst entries) tensor indices.
Proof.
  intros Hbin Hperm Ht0 Hi0 HmaxP Hemit.
  destruct (binned_entries Hbin Hperm) as (HndE & Hocc & Hin).
  apply emit_pillars_Returns in Hemit.
  destruct Hemit as (Hent & Hft & Hfi).
  unfold pillars_written. cbv zeta. fold rows_of.
  split; [exact HndE |]. split; [exact Hocc |]. split; [| split].
  - intros s k Hs.
    assert (Hlt : (s < Z.to_nat maxPillars)%nat).
    { assert (Hsome : nth_error (firstn (Z.to_nat maxPillars)
                                        (List.map fst entries)) s <> None)
        by congruence.
      apply nth_error_Some in Hsome. rewrite length_firstn in Hsome. lia. }
    rewrite nth_error_firstn in Hs.
    destruct (Nat.ltb_spec s (Z.to_nat maxPillars)) as [_ | Hge]; [| lia].
    rewrite nth_error_map in Hs.
    destruct (nth_error entries s) as [e |] eqn:Ee; [| discriminate].
    simpl in Hs. inversion Hs; subst k. clear Hs.
    destruct (Hin e (nth_error_In _ _ Ee)) as [Hse Hsn].
    destruct (Hent s e Ee ltac:(lia))
      as (xIndex & yIndex & Hcx & Hcy & Hix & Hiy & Hv & Hz).
    simpl in Hix, Hiy, Hv, Hz.
    pose proof (mean_field_rows points row_point p_x 0 (rows_of (fst e))
                  point_x) as Emx.
    pose proof (mean_field_rows points row_point p_y 1 (rows_of (fst e))
                  point_y) as Emy.
    pose proof (mean_field_rows points row_point p_z 2 (rows_of (fst e))
                  point_z) as Emz.
    rewrite <- Hse in Emx, Emy, Emz.
    rewrite Emx in Hcx. rewrite Emy in Hcy.
    exists xIndex, yIndex.
    split; [exact Hcx |]. split; [exact Hcy |].
    split; [exact Hix |]. split; [exact Hiy |]. split.
    + intros j i Hj Hjlt.
      assert (Hp : nth_error (center_points (snd e)) j
                   = Some (set_c (row_point i)
                             (fsub (p_x (row_point i)) (mean_field p_x (snd e)))
                             (fsub (p_y (row_point i)) (mean_field p_y (snd e)))
                             (fsub (p_z (row_point i)) (mean_field p_z (snd e))))).
      { rewrite center_points_nth. rewrite Hse at 1.
        rewrite nth_error_map, Hj. reflexivity. }
      specialize (Hv j _ Hp Hjlt).
      pose proof (Hv 0%nat _ eq_refl) as H0.
      pose proof (Hv 1%nat _ eq_refl) as H1.
      pose proof (Hv 2%nat _ eq_refl) as H2.
      pose proof (Hv 3%nat _ eq_refl) as H3.
      pose proof (Hv 4%nat _ eq_refl) as H4.
      pose proof (Hv 5%nat _ eq_refl) as H5.
      pose proof (Hv 6%nat _ eq_refl) as H6.
      pose proof (Hv 7%nat _ eq_refl) as H7.
      pose proof (Hv 8%nat _ eq_refl) as H8.
      simpl in H0, H1, H2, H3, H4, H5, H6, H7, H8.
      rewrite set_c_x, point_x in H0, H7.
      rewrite set_c_y, point_y in H1, H8.
      rewrite set_c_z, point_z in H2.
      rewrite set_c_i, point_i in H3.
      rewrite set_c_xc, point_x, Emx in H4.
      rewrite set_c_yc, point_y, Emy in H5.
      rewrite set_c_zc, point_z, Emz in H6.
      repeat (split; [assumption |]).
      intros E7.
      assert (Hx : forall c v,
                nth_error [data points [i; 4%Z]; data points [i; 5%Z];
                           data points [i; 6%Z]] c = Some v ->
                data tensor [0%Z; Z.of_nat s; Z.of_nat j; Z.of_nat (9 + c)]
                = v).
      { intros c v Hc. apply Hv. unfold features.
        rewrite nth_error_app2 by (simpl; lia).
        replace (9 + c - _)%nat with c by (simpl; lia).
        rewrite set_c_extra, (point_extra i E7). exact Hc. }
      pose proof (Hx 0%nat _ eq_refl) as H9.
      pose proof (Hx 1%nat _ eq_refl) as H10.
      pose proof (Hx 2%nat _ eq_refl) as H11.
      repeat split; assumption.
    + intros b j c Hj. rewrite Hz; [apply Ht0 |].
      rewrite Hse, length_map. exact Hj.
  - intros b s j c Hs. rewrite Hft; [apply Ht0 |].
    rewrite length_firstn, length_map in Hs. lia.
  - intros b s c Hs. rewrite Hfi; [apply Hi0 |].
    rewrite length_firstn, length_map in Hs. lia.
Qed.
End PillarsGeneric.

Lemma createPillars_pillars
    (iteration_order : forall P : Type, PillarMap P -> PillarMap P)
    points maxPointsPerPillar maxPillars
    xStep yStep xMin xMax yMin yMax zMin zMax printTime minDistance
    tensor indices :
  (forall P (m : PillarMap P), Permutation (iteration_order P m) m) ->
  createPillars iteration_order points maxPointsPerPillar maxPillars
    xStep yStep xMin xMax yMin yMax zMin zMax printTime minDistance
    = Returns (tensor, indices) ->
  exists nrows ncols cells,
    shape points = [nrows; ncols] /\ (ncols = 4 \/ ncols = 7)%Z /\
    (0 <= maxPillars)%Z /\ (0 <= maxPointsPerPillar)%Z /\
    pillars_written ncols points maxPointsPerPillar maxPillars
      xStep yStep xMin xMax yMin yMax zMin zMax minDistance nrows
      cells tensor indices.
Proof.
  intros Horder H. unfold createPillars in H.
  inv_bind H. rename a into ncols.
  assert (Hshape : forall nrows, shape_at points 0 = Returns nrows ->
            (ndim points =? 2)%Z = true -> shape points = [nrows; ncols]).
  { intros nrows H0 H2. unfold shape_at, ndim in *.
    apply Z.eqb_eq in H2.
    destruct (shape points) as [| a [| b [| c l]]];
      simpl List.length in H2; try lia.
    simpl in *. inversion H0. inversion Ha. reflexivity. }
  destruct (ncols =? 4)%Z eqn:E4.
  - apply Z.eqb_eq in E4.
    destruct (ndim points =? 2)%Z eqn:E2; cbn [negb orb] in H;
      [| discriminate].
    inv_bind H. rename a into nrows. inv_bind H. rename a into m.
    inv_bind H. rename a into t0. inv_bind H. rename a into ind0.
    apply resize_zeros_Returns in Ha2. destruct Ha2 as (_ & Hz & Hdims).
    apply resize_zeros_Returns in Ha3. destruct Ha3 as (_ & Hzi & _).
    exists nrows, ncols, (List.map fst (iteration_order _ m)).
    split; [apply Hshape; [assumption | reflexivity] |]. split; [left; exact E4 |].
    split; [apply Hdims; simpl; tauto |].
    split; [apply Hdims; simpl; tauto |].
    subst ncols.
    eapply pillars_generic with (row_point := row_point4 points);
      try eassumption; try reflexivity.
    + intros m0 i m' Hb. apply bin_point4_spec in Hb. exact Hb.
    + intros i E. discriminate E.
    + apply Horder.
    + apply Hdims; simpl; tauto.
  - destruct (ncols =? 7)%Z eqn:E7; [| discriminate].
    apply Z.eqb_eq in E7.
    destruct (ndim points =? 2)%Z eqn:E2; cbn [negb orb] in H;
      [| discriminate].
    inv_bind H. rename a into nrows. inv_bind H. rename a into m.
    inv_bind H. rename a into t0. inv_bind H. rename a into ind0.
    apply resize_zeros_Returns in Ha2. destruct Ha2 as (_ & Hz & Hdims).
    apply resize_zeros_Returns in Ha3. destruct Ha3 as (_ & Hzi & _).
    exists nrows, ncols, (List.map fst (iteration_order _ m)).
    split; [apply Hshape; [assumption | reflexivity] |]. split; [right; exact E7 |].
    split; [apply Hdims; simpl; tauto |].
    split; [apply Hdims; simpl; tauto |].
    subst ncols.
    eapply pillars_generic with (row_point := row_point7 points);
      try eassumption; try reflexivity.
    + intros m0 i m' Hb. apply bin_point7_spec in Hb. exact Hb.
    + apply Horder.
    + apply Hdims; simpl; tauto.
Qed.

Lemma nth_error_firstn_Some {A} (n : nat) (l : list A) (j : nat) (a : A) :
  nth_error (firstn n l) j = Some a <-> (j < n)%nat /\ nth_error l j = Some a.
Proof.
  rewrite nth_error_firstn.
  destruct (Nat.ltb_spec j n); split; intros H'; try tauto; try discriminate.
  destruct H'. lia.
Qed.

(** C5.  The pillars written are the first [maxPillars] occupied cells in
    the iteration order of the map, so there are at most [maxPillars] of
    them; the rows written for a pillar are the first [maxPointsPerPillar]
    input points of its cell in input order, so there are at most
    [maxPointsPerPillar] of them; every other point slot of a written
    pillar, and every pillar slot after the written ones (in the feature
    tensor and in the index tensor), is zero. *)
Theorem pillar_and_point_capacities :
  forall (iteration_order : forall P : Type, PillarMap P -> PillarMap P)
         points maxPointsPerPillar maxPillars
         xStep yStep xMin xMax yMin yMax zMin zMax printTime minDistance
         tensor indices,
  (forall P (m : PillarMap P), Permutation (iteration_order P m) m) ->
  createPillars iteration_order points maxPointsPerPillar maxPillars
    xStep yStep xMin xMax yMin yMax zMin zMax printTime minDistance
    = Returns (tensor, indices) ->
  exists nrows ncols (cells : list Key),
    let rows_of := rows_of_cell ncols points xStep yStep xMin xMax yMin yMax
                                zMin zMax minDistance nrows in
    let written := firstn (Z.to_nat maxPillars) cells in
    shape points = [nrows; ncols] /\
    NoDup cells /\
    (forall k, In k cells <-> rows_of k <> []) /\
    (Z.of_nat (List.length written) <= maxPillars)%Z /\
    (forall s k, nth_error written s = Some k ->
       let kept := firstn (Z.to_nat maxPointsPerPillar) (rows_of k) in
       (Z.of_nat (List.length kept) <= maxPointsPerPillar)%Z /\
       (forall j i, nth_error kept j = Some i ->
          data tensor [0; Z.of_nat s; Z.of_nat j; 0]%Z = data points [i; 0%Z] /\
          data tensor [0; Z.of_nat s; Z.of_nat j; 1]%Z = data points [i; 1%Z] /\
          data tensor [0; Z.of_nat s; Z.of_nat j; 2]%Z = data points [i; 2%Z] /\
          data tensor [0; Z.of_nat s; Z.of_nat j; 3]%Z
            = clamp (data points [i; 3%Z]) (Fin 0) (Fin 1)) /\
       (forall b j c, (j < 0 \/ Z.of_nat (List.length kept) <= j)%Z ->
          data tensor [b; Z.of_nat s; j; c] = Fin 0)) /\
    (forall b s j c, (s < 0 \/ Z.of_nat (List.length written) <= s)%Z ->
       data tensor [b; s; j; c] = Fin 0) /\
    (forall b s c, (s < 0 \/ Z.of_nat (List.length written) <= s)%Z ->
       data indices [b; s; c] = 0%Z).
Proof.
  intros until indices. intros Horder H.
  destruct (createPillars_pillars _ _ _ _ _ _ _ _ _ _ _ _ _ _ Horder H)
    as (nrows & ncols & cells & Hsh & _ & HmaxP & HmaxPPP & Hw).
  exists nrows, ncols, cells. cbv zeta.
  destruct Hw as (Hnd & Hocc & Hslots & Hzt & Hzi).
  split; [exact Hsh |]. split; [exact Hnd |]. split; [exact Hocc |].
  split; [rewrite length_firstn; lia |].
  split; [| split; assumption].
  intros s k Hs.
  destruct (Hslots s k Hs) as (xI & yI & _ & _ & _ & _ & Hrows & Hzero).
  split; [rewrite length_firstn; lia |]. split.
  - intros j i Hj. apply nth_error_firstn_Some in Hj. destruct Hj as [Hlt Hj].
    destruct (Hrows j i Hj ltac:(lia)) as (H0 & H1 & H2 & H3 & _).
    repeat split; assumption.
  - intros b j c Hj. apply Hzero. rewrite length_firstn in Hj. lia.
Qed.


(** ** The best anchor of a search *)

Lemma foldM_fold_left {A S S'} (f : S -> A -> Outcome S) (g : S' -> A -> S')
    (R : S -> S' -> Prop) :
  (forall s s' a s1, R s s' -> f s a = Returns s1 -> R s1 (g s' a)) ->
  forall l s s' s1, R s s' -> foldM f l s = Returns s1 ->
                    R s1 (fold_left g l s').
Proof.
  intros Hstep l. induction l as [| a l IH]; intros s s' s1 HR H; simpl in H.
  - inversion H; subst. exact HR.
  - inv_bind H. simpl. eapply IH; [| exact H]. eapply Hstep; eauto.
Qed.

Lemma match_anchors_track
    positiveThreshold negativeThreshold angle_threshold anchorDiagonals
    lb oc xId yId x y (abs : list BoundingBox3D) :
  forall n st st',
  match_anchors positiveThreshold negativeThreshold angle_threshold
    anchorDiagonals lb oc xId yId x y abs n st = Returns st' ->
  track st' = best_anchors angle_threshold lb x y abs n (track st).
Proof.
  induction abs as [| ab abs IH]; intros n st st' H; simpl in H.
  - inversion H; subst. reflexivity.
  - inv_bind H. apply IH in H. rewrite H. simpl. f_equal.
    unfold match_anchor in Ha. inv_bind Ha. inversion Ha; subst.
    unfold track, best_step. simpl.
    destruct (fltb (maxIou st) _); reflexivity.
Qed.

Lemma search_track
    positiveThreshold negativeThreshold angle_threshold downscalingFactor
    xStep yStep xMin yMin anchorDiagonals lb oc abs xStart xEnd yStart yEnd
    t st :
  search positiveThreshold negativeThreshold angle_threshold
    downscalingFactor xStep yStep xMin yMin anchorDiagonals
    lb oc abs xStart xEnd yStart yEnd t = Returns st ->
  track st = best_match angle_threshold downscalingFactor xStep yStep xMin yMin
               lb abs xStart xEnd yStart yEnd.
Proof.
  unfold search, best_match. intros H.
  eapply foldM_fold_left with (R := fun s acc => track s = acc) (3 := H);
    [| reflexivity].
  intros s acc xId s1 HR Hcol. unfold search_column in Hcol.
  eapply foldM_fold_left with (R := fun s acc => track s = acc) (3 := Hcol);
    [| exact HR].
  intros s2 acc2 yId s3 HR2 Hm.
  apply match_anchors_track in Hm. rewrite Hm, HR2. reflexivity.
Qed.

(** The state of the [k]-th label box when the fallback ran for it. *)
Lemma target_fallback_slice
    objectPositions objectDimensions objectYaws objectClassIds
    anchorDimensions anchorZHeights anchorYaws
    positiveThreshold negativeThreshold angle_threshold
    nbClasses downscalingFactor
    xStep yStep xMin xMax yMin yMax zMin zMax printTime T
    xSize ySize nbAnchors nbObjects anchorBoxes anchorDiagonals labelBoxes
    k lb offset xC yC maxIou' best bestId :
  createPillarsTarget objectPositions objectDimensions objectYaws
    objectClassIds anchorDimensions anchorZHeights anchorYaws
    positiveThreshold negativeThreshold angle_threshold nbClasses
    downscalingFactor xStep yStep xMin xMax yMin yMax zMin zMax printTime
    = Returns T ->
  target_setup objectPositions objectDimensions objectYaws objectClassIds
    anchorDimensions anchorZHeights anchorYaws downscalingFactor
    xStep yStep xMin xMax yMin yMax
    xSize ySize nbAnchors nbObjects anchorBoxes anchorDiagonals labelBoxes ->
  nth_error labelBoxes k = Some lb ->
  object_window lb downscalingFactor xStep yStep xMin yMin offset xC yC ->
  best_match angle_threshold downscalingFactor xStep yStep xMin yMin lb
    anchorBoxes
    (clip_int (xC - offset) 0 xSize) (clip_int (xC + offset) 0 xSize)
    (clip_int (yC - offset) 0 ySize) (clip_int (yC + offset) 0 ySize)
  = (maxIou', best, bestId) ->
  fltb maxIou' positiveThreshold = true ->
  forall c, (c < 10)%nat ->
    nth_error (fallback_row downscalingFactor xStep yStep xMin yMin lb best
                 (clip_int xC 0 (xSize - 1)) (clip_int yC 0 (ySize - 1))) c
    = Some (data T [Z.of_nat k; clip_int xC 0 (xSize - 1);
                    clip_int yC 0 (ySize - 1); bestId; Z.of_nat c]).
Proof.
  intros H (HxS & HyS & HnA & HnO & HA & HL) Hnth (Ho & HxC & HyC) Hbest Hlt
         c Hc.
  apply target_object_slice in H.
  destruct H as (xSize' & ySize' & nbAnchors' & nbObjects' & anchorBoxes' &
                 anchorDiagonals' & labelBoxes' & HxS' & HyS' & HnA' & HnO' &
                 HA' & HL' & HsT & _ & Hk).
  rewrite HxS in HxS'. inversion HxS'; subst xSize'.
  rewrite HyS in HyS'. inversion HyS'; subst ySize'.
  rewrite HnA in HnA'. inversion HnA'; subst nbAnchors'.
  rewrite HnO in HnO'. inversion HnO'; subst nbObjects'.
  rewrite HA in HA'. inversion HA'; subst anchorBoxes' anchorDiagonals'.
  rewrite HL in HL'. inversion HL'; subst labelBoxes'.
  destruct (Hk k lb Hnth)
    as (Hin & offset' & xC' & yC' & tk & found & tk' & Ho' & HxC' & HyC' &
        Hsk & _ & Hs & Hfb & Hlast).
  rewrite Ho in Ho'. inversion Ho'; subst offset'.
  rewrite HxC in HxC'. inversion HxC'; subst xC'.
  rewrite HyC in HyC'. inversion HyC'; subst yC'.
  pose proof Hs as Ht. apply search_track in Ht. rewrite Hbest in Ht.
  pose proof Hs as Hsf. apply search_shape in Hsf. rewrite Hsk in Hsf.
  destruct found as [ft fm fb fi]. unfold track in Ht. simpl in Ht, Hfb, Hsf.
  inversion Ht; subst fm fb fi. rewrite Hlt in Hfb.
  edestruct fallback_home_cell as (_ & _ & Hv);
    [exact HxS | exact HyS | exact HxC | exact HyC | exact Hin | exact Hsf
     | exact Hfb |].
  rewrite Hlast by reflexivity. apply Hv. exact Hc.
Qed.

(** C1 (as amended).  When the largest IOU found over the search window of
    an object is below [positiveThreshold] (the test
    [maxIou < positiveThreshold] of the fallback; 0 is the largest IOU when
    no candidate has an IOU above 0), the returned tensor holds, at the home
    cell [(xId, yId)] of the object (its grid cell, clipped to the grid) and
    at the best anchor found, the label 1 and in channels 1 and 2 the
    offsets of the label box from the world coordinates of that home cell,
    divided by the diagonal of the best anchor.  The position at which the
    best anchor was placed during the search is not used. *)
Theorem fallback_offsets_from_home_cell :
  forall objectPositions objectDimensions objectYaws objectClassIds
         anchorDimensions anchorZHeights anchorYaws
         positiveThreshold negativeThreshold angle_threshold
         nbClasses downscalingFactor
         xStep yStep xMin xMax yMin yMax zMin zMax printTime T
         xSize ySize nbAnchors nbObjects anchorBoxes anchorDiagonals labelBoxes
         k lb offset xC yC maxIou' best bestId,
  createPillarsTarget objectPositions objectDimensions objectYaws
    objectClassIds anchorDimensions anchorZHeights anchorYaws
    positiveThreshold negativeThreshold angle_threshold nbClasses
    downscalingFactor xStep yStep xMin xMax yMin yMax zMin zMax printTime
    = Returns T ->
  target_setup objectPositions objectDimensions objectYaws objectClassIds
    anchorDimensions anchorZHeights anchorYaws downscalingFactor
    xStep yStep xMin xMax yMin yMax
    xSize ySize nbAnchors nbObjects anchorBoxes anchorDiagonals labelBoxes ->
  nth_error labelBoxes k = Some lb ->
  object_window lb downscalingFactor xStep yStep xMin yMin offset xC yC ->
  best_match angle_threshold downscalingFactor xStep yStep xMin yMin lb
    anchorBoxes
    (clip_int (xC - offset) 0 xSize) (clip_int (xC + offset) 0 xSize)
    (clip_int (yC - offset) 0 ySize) (clip_int (yC + offset) 0 ySize)
  = (maxIou', best, bestId) ->
  fltb maxIou' positiveThreshold = true ->
  let xId := clip_int xC 0 (xSize - 1) in
  let yId := clip_int yC 0 (ySize - 1) in
  let diag := fsqrt (fadd (fpow2 (box_width best)) (fpow2 (box_length best))) in
  data T [Z.of_nat k; xId; yId; bestId; 0%Z] = Fin 1 /\
  data T [Z.of_nat k; xId; yId; bestId; 1%Z]
    = fdiv (fsub (box_x lb) (cell_coord xId xStep downscalingFactor xMin)) diag /\
  data T [Z.of_nat k; xId; yId; bestId; 2%Z]
    = fdiv (fsub (box_y lb) (cell_coord yId yStep downscalingFactor yMin)) diag.
Proof.
  intros until bestId. intros H Hsetup Hnth Hwin Hbest Hlt.
  assert (Hv := fun c => @target_fallback_slice _ _ _ _ _ _ _ _ _ _ _ _ _ _
                         _ _ _ _ _ _ _ _ _ _ _ _ _ _ _ _ _ _ _ _ _ _ _
                         H Hsetup Hnth Hwin Hbest Hlt c).
  cbv zeta.
  pose proof (Hv 0%nat ltac:(lia)) as H0.
  pose proof (Hv 1%nat ltac:(lia)) as H1.
  pose proof (Hv 2%nat ltac:(lia)) as H2.
  simpl in H0, H1, H2.
  inversion H0. inversion H1. inversion H2.
  repeat split; reflexivity.
Qed.

Lemma best_match_untouched
    angle_threshold downscalingFactor xStep yStep xMin yMin lb abs
    xStart xEnd yStart yEnd :
  (forall xId yId ab,
     In xId (range xStart xEnd) -> In yId (range yStart yEnd) -> In ab abs ->
     fltb (Fin 0)
          (iou (place ab (cell_coord xId xStep downscalingFactor xMin)
                         (cell_coord yId yStep downscalingFactor yMin)
                         (anchor_yaw angle_threshold lb ab)) lb) = false) ->
  best_match angle_threshold downscalingFactor xStep yStep xMin yMin lb abs
             xStart xEnd yStart yEnd = (Fin 0, zero_box, 0%Z).
Proof.
  unfold best_match. intros Hall.
  assert (Hanchors : forall x y l n,
            (forall ab, In ab l ->
               fltb (Fin 0) (iou (place ab x y (anchor_yaw angle_threshold lb ab))
                                 lb) = false) ->
            best_anchors angle_threshold lb x y l n (Fin 0, zero_box, 0%Z)
            = (Fin 0, zero_box, 0%Z)).
  { intros x y l. induction l as [| ab l IH]; intros n Hl; simpl;
      [reflexivity |].
    unfold best_step at 1. simpl fst.
    rewrite (Hl ab (or_introl eq_refl)).
    apply IH. intros ab' Hin. apply Hl. right. exact Hin. }
  assert (Hcols : forall xId l,
            In xId (range xStart xEnd) -> incl l (range yStart yEnd) ->
            fold_left
              (fun acc' yId =>
                 best_anchors angle_threshold lb
                   (cell_coord xId xStep downscalingFactor xMin)
                   (cell_coord yId yStep downscalingFactor yMin) abs 0%Z acc')
              l (Fin 0, zero_box, 0%Z) = (Fin 0, zero_box, 0%Z)).
  { intros xId l Hx. induction l as [| yId l IH]; intros Hl; simpl;
      [reflexivity |].
    rewrite Hanchors.
    - apply IH. intros y Hy. apply Hl. right. exact Hy.
    - intros ab Hab. apply Hall; auto. apply Hl. left. reflexivity. }
  assert (Hrows : forall l, incl l (range xStart xEnd) ->
            fold_left
              (fun acc xId =>
                 fold_left
                   (fun acc' yId =>
                      best_anchors angle_threshold lb
                        (cell_coord xId xStep downscalingFactor xMin)
                        (cell_coord yId yStep downscalingFactor yMin) abs 0%Z
                        acc')
                   (range yStart yEnd) acc)
              l (Fin 0, zero_box, 0%Z) = (Fin 0, zero_box, 0%Z)).
  { induction l as [| xId l IH]; intros Hl; simpl; [reflexivity |].
    rewrite Hcols.
    - apply IH. intros x Hx. apply Hl. right. exact Hx.
    - apply Hl. left. reflexivity.
    - apply incl_refl. }
  apply Hrows. apply incl_refl.
Qed.

(** C10 (as amended).  If the positive threshold is above 0 and, for a
    label box inside the bounds, no candidate of the search window has an
    IOU above 0 (the window may be empty), then the search leaves the best
    anchor zero-initialized (all dimensions 0, anchor id 0), the fallback
    writes the label 1 for anchor 0 at the home cell, and the regression
    channels 1 to 6 it writes there, divisions by the zero dimensions and
    logarithms of such quotients, are infinities or NaN. *)
Theorem fallback_with_zero_anchor_not_finite :
  forall objectPositions objectDimensions objectYaws objectClassIds
         anchorDimensions anchorZHeights anchorYaws
         positiveThreshold negativeThreshold angle_threshold
         nbClasses downscalingFactor
         xStep yStep xMin xMax yMin yMax zMin zMax printTime T
         xSize ySize nbAnchors nbObjects anchorBoxes anchorDiagonals labelBoxes
         k lb offset xC yC,
  createPillarsTarget objectPositions objectDimensions objectYaws
    objectClassIds anchorDimensions anchorZHeights anchorYaws
    positiveThreshold negativeThreshold angle_threshold nbClasses
    downscalingFactor xStep yStep xMin xMax yMin yMax zMin zMax printTime
    = Returns T ->
  target_setup objectPositions objectDimensions objectYaws objectClassIds
    anchorDimensions anchorZHeights anchorYaws downscalingFactor
    xStep yStep xMin xMax yMin yMax
    xSize ySize nbAnchors nbObjects anchorBoxes anchorDiagonals labelBoxes ->
  nth_error labelBoxes k = Some lb ->
  object_window lb downscalingFactor xStep yStep xMin yMin offset xC yC ->
  fltb (Fin 0) positiveThreshold = true ->
  (forall xId yId ab,
     In xId (range (clip_int (xC - offset) 0 xSize)
                   (clip_int (xC + offset) 0 xSize)) ->
     In yId (range (clip_int (yC - offset) 0 ySize)
                   (clip_int (yC + offset) 0 ySize)) ->
     In ab anchorBoxes ->
     fltb (Fin 0)
          (iou (place ab (cell_coord xId xStep downscalingFactor xMin)
                         (cell_coord yId yStep downscalingFactor yMin)
                         (anchor_yaw angle_threshold lb ab)) lb) = false) ->
  let xId := clip_int xC 0 (xSize - 1) in
  let yId := clip_int yC 0 (ySize - 1) in
  best_match angle_threshold downscalingFactor xStep yStep xMin yMin lb
    anchorBoxes
    (clip_int (xC - offset) 0 xSize) (clip_int (xC + offset) 0 xSize)
    (clip_int (yC - offset) 0 ySize) (clip_int (yC + offset) 0 ySize)
  = (Fin 0, zero_box, 0%Z) /\
  data T [Z.of_nat k; xId; yId; 0; 0]%Z = Fin 1 /\
  forall c, (1 <= c <= 6)%nat ->
    is_finite (data T [Z.of_nat k; xId; yId; 0%Z; Z.of_nat c]) = false.
Proof.
  intros until yC. intros H Hsetup Hnth Hwin HpT Hall. cbv zeta.
  pose proof Hall as Hbest. apply best_match_untouched in Hbest.
  assert (Hv := fun c => @target_fallback_slice _ _ _ _ _ _ _ _ _ _ _ _ _ _
                         _ _ _ _ _ _ _ _ _ _ _ _ _ _ _ _ _ _ _ _ _ _ _
                         H Hsetup Hnth Hwin Hbest HpT c).
  split; [exact Hbest |]. split.
  - pose proof (Hv 0%nat ltac:(lia)) as H0. simpl in H0.
    inversion H0. reflexivity.
  - intros c Hc. eapply fallback_row_zero_box; [exact Hc |].
    apply Hv. lia.
Qed.

(** * Worked examples *)

(** ** Evaluation of calls on literal inputs

    The reals do not compute.  The tactics below evaluate a call step by
    step: comparisons of literals are decided by [lra], closed rational
    expressions are replaced by the literal the same expression has in [Q],
    and floors, ceilings and square roots of literals by their values. *)

Ltac decide_R :=
  repeat match goal with
  | |- context [Rltb ?a ?b] =>
      first [ rewrite (@Rltb_true a b) by lra | rewrite (@Rltb_false a b) by lra ]
  | |- context [Reqb ?a ?b] =>
      first [ rewrite (@Reqb_true a b) by lra | rewrite (@Reqb_false a b) by lra ]
  end.

Ltac R2Q e :=
  match e with
  | (?a + ?b)%R => let a' := R2Q a in let b' := R2Q b in constr:(Qplus a' b')
  | (?a - ?b)%R => let a' := R2Q a in let b' := R2Q b in constr:(Qminus a' b')
  | (?a * ?b)%R => let a' := R2Q a in let b' := R2Q b in constr:(Qmult a' b')
  | (?a / ?b)%R => let a' := R2Q a in let b' := R2Q b in constr:(Qdiv a' b')
  | (- ?a)%R => let a' := R2Q a in constr:(Qopp a')
  | (/ ?a)%R => let a' := R2Q a in constr:(Qinv a')
  | IZR ?z => constr:(inject_Z z)
  end.

Ltac Rlit e :=
  let q := R2Q e in
  let q' := eval vm_compute in (Qred q) in
  match q' with
  | Qmake ?n 1%positive => constr:(IZR n)
  | Qmake ?n ?d => constr:((IZR n / IZR (Zpos d))%R)
  end.

Ltac is_Rlit e :=
  match e with
  | IZR _ => idtac
  | (IZR _ / IZR _)%R => idtac
  end.

Ltac norm_R e :=
  tryif is_Rlit e then fail else
  (let e' := Rlit e in replace e with e' by (field; lra)).

Ltac norm_fins :=
  repeat match goal with
  | |- context [Fin ?e] => norm_R e
  end.

Ltac eval_floor :=
  repeat match goal with
  | |- context [Zfloor ?e] =>
      try norm_R e;
      match goal with
      | |- context [Zfloor ?e'] =>
        let q := R2Q e' in
        let z := eval vm_compute in (Qfloor q) in
        rewrite (@Zfloor_eq z e') by (split; lra)
      end
  | |- context [Zceil ?e] =>
      try norm_R e;
      match goal with
      | |- context [Zceil ?e'] =>
        let q := R2Q e' in
        let z := eval vm_compute in (Qceiling q) in
        rewrite (@Zceil_eq z e') by (split; lra)
      end
  end.

Ltac eval_sqrt :=
  repeat match goal with
  | |- context [sqrt ?e] =>
      let e' := Rlit e in
      let r := match e' with
               | IZR ?n => let n' := eval vm_compute in (Z.sqrt n) in constr:(IZR n')
               | (IZR ?n / IZR ?d)%R =>
                   let n' := eval vm_compute in (Z.sqrt n) in
                   let d' := eval vm_compute in (Z.sqrt d) in
                   constr:((IZR n' / IZR d')%R)
               end in
      replace (sqrt e) with r by (symmetry; apply sqrt_lem_1; lra)
  end.

Ltac fcbv :=
  cbv beta iota zeta delta
      [iou boundingBox3DToTopDown rotatedX rotatedY fadd fsub fmul fneg fdiv fcos fsin fabs
       pt_x pt_y box_x box_y box_z box_length box_width box_height box_yaw box_base_yaw
       edges combine tl firstn app flat_map fold_left clip clip_edge
       sutherlandHodgmanClip fst snd fltb fgeb fleb fgtb andb negb orb
       xIntersect yIntersect polygonArea shoelace last place].

Ltac is_literal p :=
  match p with
  | nil => idtac
  | cons _ ?t => is_literal t
  end.

Ltac norm_abs :=
  repeat match goal with
  | |- context [Rabs ?e] =>
      let e' := Rlit e in
      replace e with e' by (field; lra);
      first [ rewrite (Rabs_right e') by lra | rewrite (Rabs_left e') by lra ]
  end.

Ltac eval_areas :=
  repeat match goal with
  | |- context [polygonArea ?p] =>
      is_literal p;
      let E := fresh "E" in
      eassert (E : polygonArea p = _);
      [ repeat (fcbv; decide_R); norm_abs; norm_fins; reflexivity
      | rewrite E; clear E ]
  end.

Ltac eval_clips :=
  repeat match goal with
  | |- context [clip ?p ?a ?b ?c ?d] =>
      is_literal p;
      let E := fresh "E" in
      eassert (E : clip p a b c d = _);
      [ repeat (fcbv; decide_R); norm_fins; reflexivity | rewrite E; clear E ]
  end.

Ltac eval_corners :=
  repeat match goal with
  | |- context [boundingBox3DToTopDown ?b] =>
      let E := fresh "E" in
      eassert (E : boundingBox3DToTopDown b = _);
      [ fcbv; rewrite ?cos_0, ?sin_0; norm_fins; reflexivity
      | rewrite !E; clear E ]
  end.

(** IOU of two boxes of yaw 0 given by literals. *)
Ltac eval_iou :=
  unfold iou; eval_corners;
  unfold sutherlandHodgmanClip;
  cbv beta iota zeta delta [edges combine tl firstn app fold_left fst snd pt_x pt_y];
  eval_clips; eval_areas;
  repeat (fcbv; decide_R); norm_fins.

Ltac eval_Z :=
  repeat match goal with
  | |- context [range ?a ?b] =>
      let l := eval vm_compute in (range a b) in
      replace (range a b) with l by (vm_compute; reflexivity)
  | |- context [clip_int ?a ?b ?c] =>
      let l := eval vm_compute in (clip_int a b c) in
      replace (clip_int a b c) with l by (vm_compute; reflexivity)
  | |- context [in_bounds ?a ?b] =>
      let l := eval vm_compute in (in_bounds a b) in
      replace (in_bounds a b) with l by (vm_compute; reflexivity)
  | |- context [int_add ?a ?b] =>
      let l := eval vm_compute in (int_add a b) in
      replace (int_add a b) with l by (vm_compute; reflexivity)
  | |- context [int_sub ?a ?b] =>
      let l := eval vm_compute in (int_sub a b) in
      replace (int_sub a b) with l by (vm_compute; reflexivity)
  | |- context [int_product ?a] =>
      let l := eval vm_compute in (int_product a) in
      replace (int_product a) with l by (vm_compute; reflexivity)
  end.

Ltac fstep :=
  cbn [fadd fsub fmul fneg fdiv fabs fsqrt ffloor fceil fpow2 of_int fltb fleb fgtb fgeb
       static_cast_int static_cast_uint32 cast bind clamp
       box_x box_y box_z box_length box_width box_height box_yaw box_base_yaw box_classId
       fst snd andb orb negb].

Ltac feval :=
  repeat (first [ progress fstep
                | progress unfold fpow2, of_int, fgtb, fgeb
                | progress decide_R
                | progress eval_sqrt
                | progress eval_floor
                | progress rewrite ?Ztrunc_IZR ]).

Ltac eval_at :=
  repeat match goal with
  | |- context [at_ ?a ?idx] =>
      let E := fresh "E" in
      eassert (E : at_ a idx = _);
      [ cbv [at_ in_bounds shape data array2 array1 nth Z.to_nat Pos.to_nat
             Pos.iter_op Nat.add List.length Z.of_nat Pos.of_succ_nat Pos.succ
             Z.leb Z.ltb Z.compare Pos.compare Pos.compare_cont andb];
        reflexivity
      | rewrite E; clear E ]
  | |- context [shape_at ?a ?k] =>
      let v := eval cbv [shape_at shape array2 array1 nth_error List.length
                         Z.of_nat Pos.of_succ_nat Pos.succ] in (shape_at a k) in
      change (shape_at a k) with v
  end.

Ltac eval_bool :=
  repeat match goal with
  | |- context [if ?b then _ else _] =>
      lazymatch b with
      | context [Fin] => fail
      | context [Rltb] => fail
      | context [Reqb] => fail
      | _ => idtac
      end;
      let v := eval vm_compute in b in
      match v with
      | true => replace b with true by (vm_compute; reflexivity)
      | false => replace b with false by (vm_compute; reflexivity)
      end
  end.

Lemma mutable_at_in_bounds {A} (t : NdArray A) idx v :
  in_bounds (shape t) idx = true ->
  mutable_at t idx v
  = Returns (mkArray (shape t) (fun j => if index_eqb j idx then v else data t j)).
Proof. unfold mutable_at. intros ->. reflexivity. Qed.

Ltac run_step :=
  first
    [ progress cbn [bind foldM write_channels match_anchors cast fst snd
                    s_tensor maxIou bestAnchor bestAnchorId shape app]
    | progress eval_Z
    | progress eval_at
    | progress eval_bool
    | rewrite mutable_at_in_bounds
        by (cbn [shape];
            repeat match goal with H : shape _ = _ |- _ => rewrite H end;
            reflexivity)
    | progress feval ].

Lemma ffmod_0 (y : R) : y <> 0%R -> ffmod (Fin 0) (Fin y) = Fin 0.
Proof.
  intros Hy. simpl. rewrite Reqb_false by exact Hy. f_equal.
  unfold Rdiv. rewrite Rmult_0_l.
  change 0%R with (IZR 0). rewrite Ztrunc_IZR. simpl. lra.
Qed.

Lemma delta_yaw_no_equal_yaws lb ab a :
  box_yaw lb = Fin a -> box_base_yaw ab = Fin a -> delta_yaw_no lb ab = Fin 0.
Proof.
  intros Hl Hb. unfold delta_yaw_no, M_PI. rewrite Hl, Hb. simpl fsub.
  replace (a + - a)%R with 0%R by lra. apply ffmod_0.
  pose proof PI_RGT_0. lra.
Qed.

Lemma delta_yaw_o_equal_yaws lb ab a :
  box_yaw lb = Fin a -> box_base_yaw ab = Fin a -> delta_yaw_o lb ab = Fin 0.
Proof.
  intros Hl Hb. unfold delta_yaw_o, M_PI. rewrite Hl, Hb. simpl fsub. simpl fmul.
  replace (a + - a)%R with 0%R by lra. apply ffmod_0.
  pose proof PI_RGT_0. lra.
Qed.


(** ** One object between two cells *)

Lemma iou_ex_0 : iou (ex_anchor (Fin 0) (Fin (-2))) ex_label = Fin (1/7).
Proof. unfold ex_anchor, ex_label. eval_iou. reflexivity. Qed.

Lemma iou_ex_1 : iou (ex_anchor (Fin 4) (Fin (-2))) ex_label = Fin (3/5).
Proof. unfold ex_anchor, ex_label. eval_iou. reflexivity. Qed.

Lemma ex_anchor_yaw x y :
  anchor_yaw (Fin (1/10)) ex_label (ex_anchor x y) = Fin 0.
Proof.
  unfold anchor_yaw.
  rewrite (@delta_yaw_no_equal_yaws ex_label (ex_anchor x y) 0%R) by reflexivity.
  simpl. rewrite Rabs_R0. rewrite Rltb_true by lra. reflexivity.
Qed.

Lemma ex1_window :
  object_window ex_label 1 (Fin 4) (Fin 4) (Fin 0) (Fin (-2)) 2 0 0.
Proof.
  unfold object_window, search_offset, home_index, grid_index, ex_label.
  feval. repeat split; reflexivity.
Qed.

Lemma ex1_setup :
  target_setup ex1_positions ex1_dimensions ex1_yaws ex1_classIds
    ex_anchorDimensions ex_anchorZHeights ex_anchorYaws 1
    (Fin 4) (Fin 4) (Fin 0) (Fin 8) (Fin (-2)) (Fin 2)
    2 1 1 1 [ex_anchor0] [Fin 5] [ex_label].
Proof.
  unfold target_setup, home_index, grid_index.
  unfold ex1_positions, ex1_dimensions, ex1_yaws, ex1_classIds,
    ex_anchorDimensions, ex_anchorZHeights, ex_anchorYaws.
  repeat run_step.
  unfold parse_anchor, parse_label, label_out_of_range.
  repeat run_step.
  repeat split; reflexivity.
Qed.

Lemma ex1_best :
  best_match (Fin (1/10)) 1 (Fin 4) (Fin 4) (Fin 0) (Fin (-2)) ex_label
    [ex_anchor0] (clip_int (0 - 2) 0 2) (clip_int (0 + 2) 0 2)
    (clip_int (0 - 2) 0 1) (clip_int (0 + 2) 0 1)
  = (Fin (3/5), ex_anchor (Fin 4) (Fin (-2)), 0%Z).
Proof.
  unfold best_match. eval_Z.
  cbn [fold_left best_anchors]. unfold best_step, ex_anchor0.
  rewrite !ex_anchor_yaw.
  unfold cell_coord, place, ex_anchor0, ex_anchor.
  cbn [box_z box_length box_width box_height box_base_yaw box_classId].
  feval. norm_fins.
  fold (ex_anchor (Fin 0) (Fin (-2))). fold (ex_anchor (Fin 4) (Fin (-2))).
  rewrite iou_ex_0. feval. rewrite iou_ex_1. feval. reflexivity.
Qed.

Lemma ex1_search :
  exists t,
  search (Fin (7/10)) (Fin (3/10)) (Fin (1/10)) 1 (Fin 4) (Fin 4) (Fin 0) (Fin (-2))
         [Fin 5] ex_label 0 [ex_anchor0] 0 2 0 1 ex1_T0
  = Returns (mkSearch t (Fin (3/5)) (ex_anchor (Fin 4) (Fin (-2))) 0)
  /\ shape t = [1; 2; 1; 1; 10]%Z.
Proof.
  eexists. split.
  - unfold search, search_column. repeat run_step.
    unfold match_anchor, ex_anchor0. rewrite !ex_anchor_yaw.
    unfold cell_coord, place, ex_anchor0, ex_anchor.
    cbn [box_z box_length box_width box_height box_base_yaw box_classId].
    feval. norm_fins.
    fold (ex_anchor (Fin 0) (Fin (-2))). fold (ex_anchor (Fin 4) (Fin (-2))).
    rewrite iou_ex_0. unfold ex1_T0.
    repeat run_step.
    rewrite iou_ex_1.
    repeat run_step.
    reflexivity.
  - reflexivity.
Qed.

(** The call returns; the home cell of the object holds the label 1 and the
    offset [(3 - 0) / 5], the cell next to it the label -1. *)
Lemma ex1_returns :
  exists T, ex1_call = Returns T /\
    data T [0;0;0;0;0]%Z = Fin 1 /\
    data T [0;0;0;0;1]%Z = Fin (3/5) /\
    data T [0;0;0;0;2]%Z = Fin 0 /\
    data T [0;1;0;0;0]%Z = Fin (-1).
Proof.
  destruct ex1_search as (t & Hs & Hsh).
  eexists. split.
  - unfold ex1_call, createPillarsTarget, grid_index.
    unfold ex1_positions, ex1_dimensions, ex1_yaws, ex1_classIds,
      ex_anchorDimensions, ex_anchorZHeights, ex_anchorYaws.
    repeat run_step.
    unfold parse_anchor, parse_label, label_out_of_range.
    repeat run_step.
    unfold resize_zeros. repeat run_step.
    unfold process_object, grid_index. repeat run_step.
    fold ex_label. fold ex1_T0.
    change (mkBox (Fin 0) (Fin 0) (Fin 0) (Fin 4) (Fin 3) (Fin 1) (Fin 0) (Fin 0) (Fin 0))
      with ex_anchor0.
    rewrite Hs.
    repeat run_step.
    unfold fallback, fallback_cell. repeat run_step.
    unfold fallback_row. repeat run_step.
    reflexivity.
  - cbn [data]. repeat run_step.
    unfold ex_label, ex_anchor, cell_coord. feval. norm_fins.
    repeat split; reflexivity.
Qed.

Lemma ex1_below_threshold : fltb (Fin (3/5)) (Fin (7/10)) = true.
Proof. feval. reflexivity. Qed.

(** C1 (counterexample to the claim as stated).  One anchor shape of 4 x 3,
    cells of 4 x 4 over [0,8) x [-2,2), one object of 4 x 3 at (3,-2).  The
    best anchor of the search is the one placed at x = 4, with IOU 3/5,
    below the positive threshold 7/10.  The home cell of the object is the
    cell at x = 0.  The fallback writes (3 - 0) / 5 into channel 1 there,
    not (3 - 4) / 5, the offset from the placement of the best anchor. *)
Lemma fallback_offset_ignores_best_anchor_placement :
  exists T,
    ex1_call = Returns T /\
    best_match (Fin (1/10)) 1 (Fin 4) (Fin 4) (Fin 0) (Fin (-2)) ex_label
      [ex_anchor0] 0 2 0 1
    = (Fin (3/5), ex_anchor (Fin 4) (Fin (-2)), 0%Z) /\
    fltb (Fin (3/5)) (Fin (7/10)) = true /\
    data T [0; 0; 0; 0; 0]%Z = Fin 1 /\
    data T [0; 0; 0; 0; 1]%Z = Fin (3/5) /\
    fdiv (fsub (box_x ex_label) (box_x (ex_anchor (Fin 4) (Fin (-2)))))
         (fsqrt (fadd (fpow2 (box_width (ex_anchor (Fin 4) (Fin (-2)))))
                      (fpow2 (box_length (ex_anchor (Fin 4) (Fin (-2)))))))
    = Fin (-1/5) /\
    data T [0; 0; 0; 0; 1]%Z
    <> fdiv (fsub (box_x ex_label) (box_x (ex_anchor (Fin 4) (Fin (-2)))))
            (fsqrt (fadd (fpow2 (box_width (ex_anchor (Fin 4) (Fin (-2)))))
                         (fpow2 (box_length (ex_anchor (Fin 4) (Fin (-2))))))).
Proof.
  destruct ex1_returns as (T & HT & H0 & H1 & _).
  assert (Hq : fdiv (fsub (box_x ex_label) (box_x (ex_anchor (Fin 4) (Fin (-2)))))
         (fsqrt (fadd (fpow2 (box_width (ex_anchor (Fin 4) (Fin (-2)))))
                      (fpow2 (box_length (ex_anchor (Fin 4) (Fin (-2)))))))
    = Fin (-1/5)).
  { unfold ex_label, ex_anchor. feval. norm_fins. reflexivity. }
  exists T. repeat split; try assumption.
  - exact ex1_best.
  - exact ex1_below_threshold.
  - rewrite H1, Hq. intros E. injection E as E. lra.
Qed.

(** C1 (as amended), on the same call. *)
Lemma fallback_offsets_from_home_cell_example :
  exists T,
    ex1_call = Returns T /\
    data T [0; 0; 0; 0; 0]%Z = Fin 1 /\
    data T [0; 0; 0; 0; 1]%Z
    = fdiv (fsub (Fin 3) (cell_coord 0 (Fin 4) 1 (Fin 0)))
           (fsqrt (fadd (fpow2 (Fin 3)) (fpow2 (Fin 4)))) /\
    data T [0; 0; 0; 0; 2]%Z
    = fdiv (fsub (Fin (-2)) (cell_coord 0 (Fin 4) 1 (Fin (-2))))
           (fsqrt (fadd (fpow2 (Fin 3)) (fpow2 (Fin 4)))).
Proof.
  destruct ex1_returns as (T & HT & _).
  exists T. split; [exact HT |].
  unfold ex1_call in HT.
  exact (@fallback_offsets_from_home_cell _ _ _ _ _ _ _ _ _ _ _ _ _ _ _ _ _ _
           _ _ _ T _ _ _ _ _ _ _ 0%nat _ _ _ _ _ _ _
           HT ex1_setup eq_refl ex1_window ex1_best ex1_below_threshold).
Defined.

(** C2, on the same call. *)
Lemma channel8_always_zero_example :
  exists T,
    ex1_call = Returns T /\
    forall o x y a, data T [o; x; y; a; 8%Z] = Fin 0.
Proof.
  destruct ex1_returns as (T & HT & _).
  exists T. split; [exact HT |].
  unfold ex1_call in HT.
  exact (proj2 (proj2 (@channel8_always_zero _ _ _ _ _ _ _ _ _ _ _ _ _ _ _ _ _ _
                         _ _ _ T HT))).
Defined.

(** ** Two objects, the first outside the bounds, the second away from every
    anchor of its window *)

Lemma iou_ex2 : iou (ex_anchor (Fin 0) (Fin 0)) ex2_label = Fin 0.
Proof. unfold ex_anchor, ex2_label. eval_iou. reflexivity. Qed.

Lemma ex2_anchor_yaw x y :
  anchor_yaw (Fin (1/10)) ex2_label (ex_anchor x y) = Fin 0.
Proof.
  unfold anchor_yaw.
  rewrite (@delta_yaw_no_equal_yaws ex2_label (ex_anchor x y) 0%R) by reflexivity.
  simpl. rewrite Rabs_R0. rewrite Rltb_true by lra. reflexivity.
Qed.

Lemma ex2_window :
  object_window ex2_label 1 (Fin 10) (Fin 10) (Fin 0) (Fin 0) 1 0 0.
Proof.
  unfold object_window, search_offset, home_index, grid_index, ex2_label.
  feval. repeat split; reflexivity.
Qed.

Lemma ex2_setup :
  target_setup ex2_positions ex2_dimensions ex2_yaws ex2_classIds
    ex_anchorDimensions ex_anchorZHeights ex_anchorYaws 1
    (Fin 10) (Fin 10) (Fin 0) (Fin 20) (Fin 0) (Fin 20)
    2 2 1 2 [ex_anchor0] [Fin 5] [ex2_label].
Proof.
  unfold target_setup, home_index, grid_index.
  unfold ex2_positions, ex2_dimensions, ex2_yaws, ex2_classIds,
    ex_anchorDimensions, ex_anchorZHeights, ex_anchorYaws.
  repeat run_step.
  unfold parse_anchor, parse_label, label_out_of_range.
  repeat run_step.
  repeat split; reflexivity.
Qed.

Lemma ex2_inside :
  filter (row_in_range ex2_positions (Fin 0) (Fin 20) (Fin 0) (Fin 20))
         (range 0 2) = [1%Z].
Proof.
  eval_Z. cbn [filter]. unfold row_in_range, label_out_of_range, ex2_positions.
  cbn [data array2]. 
  change (nth (Z.to_nat 0) (nth (Z.to_nat 0) [[Fin 100; Fin 5; Fin 0]; [Fin 5; Fin 5; Fin 0]] []) (Fin 0)) with (Fin 100).
  change (nth (Z.to_nat 1) (nth (Z.to_nat 0) [[Fin 100; Fin 5; Fin 0]; [Fin 5; Fin 5; Fin 0]] []) (Fin 0)) with (Fin 5).
  change (nth (Z.to_nat 0) (nth (Z.to_nat 1) [[Fin 100; Fin 5; Fin 0]; [Fin 5; Fin 5; Fin 0]] []) (Fin 0)) with (Fin 5).
  change (nth (Z.to_nat 1) (nth (Z.to_nat 1) [[Fin 100; Fin 5; Fin 0]; [Fin 5; Fin 5; Fin 0]] []) (Fin 0)) with (Fin 5).
  feval. reflexivity.
Qed.

Lemma ex2_no_overlap :
  forall xId yId ab,
    In xId (range (clip_int (0 - 1) 0 2) (clip_int (0 + 1) 0 2)) ->
    In yId (range (clip_int (0 - 1) 0 2) (clip_int (0 + 1) 0 2)) ->
    In ab [ex_anchor0] ->
    fltb (Fin 0)
         (iou (place ab (cell_coord xId (Fin 10) 1 (Fin 0))
                        (cell_coord yId (Fin 10) 1 (Fin 0))
                        (anchor_yaw (Fin (1/10)) ex2_label ab)) ex2_label)
    = false.
Proof.
  intros xId yId ab Hx Hy Hab.
  vm_compute in Hx, Hy.
  destruct Hx as [<- | []]. destruct Hy as [<- | []]. destruct Hab as [<- | []].
  unfold ex_anchor0. rewrite ex2_anchor_yaw.
  unfold cell_coord, place, ex_anchor.
  cbn [box_z box_length box_width box_height box_base_yaw box_classId].
  feval. norm_fins.
  fold (ex_anchor (Fin 0) (Fin 0)).
  rewrite iou_ex2. feval. reflexivity.
Qed.

Lemma ex2_search :
  exists t,
  search (Fin (1/2)) (Fin (3/10)) (Fin (1/10)) 1 (Fin 10) (Fin 10) (Fin 0) (Fin 0)
         [Fin 5] ex2_label 0 [ex_anchor0] 0 1 0 1 ex2_T0
  = Returns (mkSearch t (Fin 0) zero_box 0)
  /\ shape t = [2; 2; 2; 1; 10]%Z.
Proof.
  eexists. split.
  - unfold search, search_column. repeat run_step.
    unfold match_anchor, ex_anchor0. rewrite !ex2_anchor_yaw.
    unfold cell_coord, place, ex_anchor.
    cbn [box_z box_length box_width box_height box_base_yaw box_classId].
    feval. norm_fins.
    fold (ex_anchor (Fin 0) (Fin 0)).
    rewrite iou_ex2. unfold ex2_T0.
    repeat run_step.
    reflexivity.
  - reflexivity.
Qed.

(** The call returns; slice 0 of the leading dimension, the input index of
    the object outside the bounds, holds the label 1 written for the second
    object. *)
Lemma ex2_returns :
  exists T, ex2_call = Returns T /\ data T [0;0;0;0;0]%Z = Fin 1.
Proof.
  destruct ex2_search as (t & Hs & Hsh).
  eexists. split.
  - unfold ex2_call, createPillarsTarget, grid_index.
    unfold ex2_positions, ex2_dimensions, ex2_yaws, ex2_classIds,
      ex_anchorDimensions, ex_anchorZHeights, ex_anchorYaws.
    repeat run_step.
    unfold parse_anchor, parse_label, label_out_of_range.
    repeat run_step.
    unfold resize_zeros. repeat run_step.
    unfold process_object, grid_index. repeat run_step.
    fold ex2_label. fold ex2_T0.
    change (mkBox (Fin 0) (Fin 0) (Fin 0) (Fin 4) (Fin 3) (Fin 1) (Fin 0) (Fin 0) (Fin 0))
      with ex_anchor0.
    rewrite Hs.
    repeat run_step.
    unfold fallback, fallback_cell. repeat run_step.
    unfold fallback_row. repeat run_step.
    reflexivity.
  - cbn [data]. repeat run_step. reflexivity.
Qed.

Lemma ex2_first_row_outside :
  row_in_range ex2_positions (Fin 0) (Fin 20) (Fin 0) (Fin 20) 0 = false.
Proof.
  unfold row_in_range, label_out_of_range, ex2_positions. cbn [data array2].
  change (nth (Z.to_nat 0) (nth (Z.to_nat 0) [[Fin 100; Fin 5; Fin 0]; [Fin 5; Fin 5; Fin 0]] []) (Fin 0)) with (Fin 100).
  change (nth (Z.to_nat 1) (nth (Z.to_nat 0) [[Fin 100; Fin 5; Fin 0]; [Fin 5; Fin 5; Fin 0]] []) (Fin 0)) with (Fin 5).
  feval. reflexivity.
Qed.

Lemma ex2_threshold : fltb (Fin 0) (Fin (1/2)) = true.
Proof. feval. reflexivity. Qed.

(** C8 (counterexample to the claim as stated).  Of two objects the first,
    at x = 100, lies outside [0,20) x [0,20) and is skipped; the second lies
    inside.  Slice 0 of the leading dimension, the slice at the input index
    of the skipped object, does not remain zero: the second object is
    written there. *)
Lemma slice_of_skipped_box_is_reused :
  exists T,
    ex2_call = Returns T /\
    row_in_range ex2_positions (Fin 0) (Fin 20) (Fin 0) (Fin 20) 0 = false /\
    data T [0; 0; 0; 0; 0]%Z = Fin 1 /\
    data T [0; 0; 0; 0; 0]%Z <> Fin 0.
Proof.
  destruct ex2_returns as (T & HT & H0).
  exists T. repeat split; try assumption.
  - exact ex2_first_row_outside.
  - rewrite H0. intros E. injection E as E. lra.
Qed.

(** C8 (as amended), on the same call: the second row is the one object
    inside the bounds; it is written to slice 0, and the slices from 1 on
    remain zero. *)
Lemma out_of_range_boxes_example :
  exists T,
    ex2_call = Returns T /\
    filter (row_in_range ex2_positions (Fin 0) (Fin 20) (Fin 0) (Fin 20))
           (range 0 2) = [1%Z] /\
    let inside := filter (row_in_range ex2_positions (Fin 0) (Fin 20) (Fin 0)
                                       (Fin 20)) (range 0 2) in
    let outside := filter (fun i => negb (row_in_range ex2_positions (Fin 0)
                                            (Fin 20) (Fin 0) (Fin 20) i))
                          (range 0 2) in
    [ex2_label] = List.map (row_box ex2_positions ex2_dimensions ex2_yaws
                                    ex2_classIds) inside /\
    List.map box_xy [ex2_label] = List.map (row_xy ex2_positions) inside /\
    (Z.of_nat (List.length inside) + Z.of_nat (List.length outside) = 2)%Z /\
    nth_error (shape T) 0 = Some 2%Z /\
    (exists xSize ySize nbAnchors anchorBoxes anchorDiagonals,
       target_setup ex2_positions ex2_dimensions ex2_yaws ex2_classIds
         ex_anchorDimensions ex_anchorZHeights ex_anchorYaws 1
         (Fin 10) (Fin 10) (Fin 0) (Fin 20) (Fin 0) (Fin 20)
         xSize ySize nbAnchors 2 anchorBoxes anchorDiagonals [ex2_label] /\
       forall k i, nth_error inside k = Some i ->
         exists tk tk',
           (forall idx, (Z.of_nat k <= hd 0%Z idx)%Z -> data tk idx = Fin 0) /\
           process_object (Fin (1/2)) (Fin (3/10)) (Fin (1/10)) 1
             (Fin 10) (Fin 10) (Fin 0) (Fin 0) xSize ySize
             anchorDiagonals anchorBoxes (tk, Z.of_nat k)
             (row_box ex2_positions ex2_dimensions ex2_yaws ex2_classIds i)
           = Returns (tk', (Z.of_nat k + 1)%Z) /\
           (forall idx, hd 0%Z idx <> Z.of_nat k ->
              data tk' idx = data tk idx) /\
           (forall idx, hd 0%Z idx = Z.of_nat k ->
              data T idx = data tk' idx)) /\
    forall o x y a c,
      (Z.of_nat (List.length inside) <= o)%Z ->
      data T [o; x; y; a; c] = Fin 0.
Proof.
  destruct ex2_returns as (T & HT & _).
  exists T. split; [exact HT |]. split; [exact ex2_inside |].
  unfold ex2_call in HT.
  destruct ex2_setup as (_ & _ & _ & HnO & _ & HL).
  exact (@out_of_range_boxes_leave_trailing_slices_zero
           _ _ _ _ _ _ _ _ _ _ _ _ _ _ _ _ _ _ _ _ _ T _ _ HT HnO HL).
Defined.

(** C10, on the same call: the only candidate of the second object, the
    anchor at the cell (0,0), has IOU 0 with it. *)
Lemma fallback_with_zero_anchor_example :
  exists T,
    ex2_call = Returns T /\
    best_match (Fin (1/10)) 1 (Fin 10) (Fin 10) (Fin 0) (Fin 0) ex2_label
      [ex_anchor0] 0 1 0 1
    = (Fin 0, zero_box, 0%Z) /\
    data T [0; 0; 0; 0; 0]%Z = Fin 1 /\
    forall c, (1 <= c <= 6)%nat ->
      is_finite (data T [0; 0; 0; 0; Z.of_nat c]%Z) = false.
Proof.
  destruct ex2_returns as (T & HT & _).
  exists T. split; [exact HT |].
  unfold ex2_call in HT.
  exact (@fallback_with_zero_anchor_not_finite
           _ _ _ _ _ _ _ _ _ _ _ _ _ _ _ _ _ _ _ _ _ T _ _ _ _ _ _ _
           0%nat _ _ _ _
           HT ex2_setup eq_refl ex2_window ex2_threshold ex2_no_overlap).
Defined.

Lemma ex4_search :
  exists t,
  search (Fin 0) (Fin (3/10)) (Fin (1/10)) 1 (Fin 10) (Fin 10) (Fin 0) (Fin 0)
         [Fin 5] ex2_label 0 [ex_anchor0] 0 1 0 1 ex2_T0
  = Returns (mkSearch t (Fin 0) zero_box 0)
  /\ forall idx, data t idx = Fin 0.
Proof.
  eexists. split.
  - unfold search, search_column. repeat run_step.
    unfold match_anchor, ex_anchor0. rewrite !ex2_anchor_yaw.
    unfold cell_coord, place, ex_anchor.
    cbn [box_z box_length box_width box_height box_base_yaw box_classId].
    feval. norm_fins.
    fold (ex_anchor (Fin 0) (Fin 0)).
    rewrite iou_ex2. unfold ex2_T0.
    repeat run_step.
    reflexivity.
  - intros idx. cbn [data].
    repeat match goal with
           | |- context [if ?b then _ else _] => destruct b
           end; reflexivity.
Qed.

(** The call returns a tensor of zeros. *)
Lemma ex4_returns :
  exists T, ex4_call = Returns T /\ forall idx, data T idx = Fin 0.
Proof.
  destruct ex4_search as (t & Hs & Hz).
  exists t. split; [| exact Hz].
  unfold ex4_call, createPillarsTarget, grid_index.
  unfold ex2_positions, ex2_dimensions, ex2_yaws, ex2_classIds,
    ex_anchorDimensions, ex_anchorZHeights, ex_anchorYaws.
  repeat run_step.
  unfold parse_anchor, parse_label, label_out_of_range.
  repeat run_step.
  unfold resize_zeros. repeat run_step.
  unfold process_object, grid_index. repeat run_step.
  fold ex2_label. fold ex2_T0.
  change (mkBox (Fin 0) (Fin 0) (Fin 0) (Fin 4) (Fin 3) (Fin 1) (Fin 0) (Fin 0) (Fin 0))
    with ex_anchor0.
  rewrite Hs.
  repeat run_step.
  reflexivity.
Qed.

(** C10 (counterexample to the claim as stated).  The call of the second
    example with [positiveThreshold = 0]: the object inside the bounds has
    IOU 0 with the only candidate of its window and the best anchor stays
    zero-initialized, but the largest IOU, 0, is not below the threshold, so
    the fallback does not run: no positive is written, and every entry of
    the returned tensor is 0, a finite value. *)
Lemma zero_threshold_skips_the_fallback :
  exists T,
    ex4_call = Returns T /\
    target_setup ex2_positions ex2_dimensions ex2_yaws ex2_classIds
      ex_anchorDimensions ex_anchorZHeights ex_anchorYaws 1
      (Fin 10) (Fin 10) (Fin 0) (Fin 20) (Fin 0) (Fin 20)
      2 2 1 2 [ex_anchor0] [Fin 5] [ex2_label] /\
    object_window ex2_label 1 (Fin 10) (Fin 10) (Fin 0) (Fin 0) 1 0 0 /\
    (forall xId yId ab,
       In xId (range (clip_int (0 - 1) 0 2) (clip_int (0 + 1) 0 2)) ->
       In yId (range (clip_int (0 - 1) 0 2) (clip_int (0 + 1) 0 2)) ->
       In ab [ex_anchor0] ->
       fltb (Fin 0)
            (iou (place ab (cell_coord xId (Fin 10) 1 (Fin 0))
                           (cell_coord yId (Fin 10) 1 (Fin 0))
                           (anchor_yaw (Fin (1/10)) ex2_label ab)) ex2_label)
       = false) /\
    best_match (Fin (1/10)) 1 (Fin 10) (Fin 10) (Fin 0) (Fin 0) ex2_label
      [ex_anchor0] 0 1 0 1
    = (Fin 0, zero_box, 0%Z) /\
    fltb (Fin 0) (Fin 0) = false /\
    data T [0; 0; 0; 0; 0]%Z = Fin 0 /\
    forall idx, is_finite (data T idx) = true.
Proof.
  destruct ex4_returns as (T & HT & Hz).
  exists T. split; [exact HT |].
  split; [exact ex2_setup |]. split; [exact ex2_window |].
  split; [exact ex2_no_overlap |].
  split; [exact (best_match_untouched _ _ _ _ _ _ _ _ _ _ _ _ ex2_no_overlap) |].
  split; [feval; reflexivity |].
  split; [apply Hz |].
  intros idx. rewrite Hz. reflexivity.
Qed.

(** ** Calls of [createPillars] *)

Ltac pillar_step :=
  first
    [ progress cbn [bind foldM write_channels cast fst snd shape app
                    emit_pillars emit_points center_points mean_field sum_field
                    features emplace_back List.map fold_left List.length
                    p_x p_y p_z p_intensity p_xc p_yc p_zc set_c p_extra
                    PillarPoint_like PillarPointRGB_like
                    pp_x pp_y pp_z pp_intensity pp_xc pp_yc pp_zc
                    rgb_x rgb_y rgb_z rgb_intensity rgb_xc rgb_yc rgb_zc
                    rgb_r rgb_g rgb_b]
    | progress eval_Z
    | progress eval_at
    | progress eval_bool
    | rewrite mutable_at_in_bounds
        by (cbn [shape];
            repeat match goal with H : shape _ = _ |- _ => rewrite H end;
            reflexivity)
    | progress change (Z.of_nat 1) with 1%Z
    | progress change (Z.of_nat 2) with 2%Z
    | progress unfold cell_index, rejected4, rejected7, out_of_range, ndim,
        mean_field, sum_field
    | progress cbn [shape array2 array1 List.length fold_left]
    | progress feval
    | progress norm_fins ].

Lemma exP7_returns :
  exists tensor indices,
    exP7_call (Fin 1) = Returns (tensor, indices) /\
    data tensor [0; 0; 0; 0]%Z = Fin (1/2) /\
    data tensor [0; 0; 0; 1]%Z = Fin (1/2).
Proof.
  do 2 eexists. split.
  - unfold exP7_call, createPillars, exP7_points, ndim.
    repeat pillar_step.
    unfold bin_point7. repeat pillar_step.
    unfold resize_zeros. repeat pillar_step.
    reflexivity.
  - cbn [data]. repeat pillar_step. split; reflexivity.
Qed.

Lemma exP4_one_returns :
  exists tensor indices,
    exP4_one_call (Fin 1) = Returns (tensor, indices) /\
    forall idx, data tensor idx = Fin 0.
Proof.
  do 2 eexists. split.
  - unfold exP4_one_call, createPillars, exP4_one_point, ndim.
    repeat pillar_step.
    unfold bin_point4. repeat pillar_step.
    unfold resize_zeros. repeat pillar_step.
    reflexivity.
  - intros idx. reflexivity.
Qed.

Lemma exP4_returns :
  exists tensor indices, exP4_call = Returns (tensor, indices).
Proof.
  do 2 eexists.
  unfold exP4_call, createPillars, exP4_points, ndim.
  repeat pillar_step.
  unfold bin_point4. repeat pillar_step.
  unfold resize_zeros. repeat pillar_step.
  reflexivity.
Qed.

Lemma exP7_close :
  fgtb (Fin 1) (Fin 0) = true /\
  fltb (fadd (fpow2 (data exP7_points [0; 0]%Z))
             (fpow2 (data exP7_points [0; 1]%Z))) (fpow2 (Fin 1)) = true.
Proof.
  unfold exP7_points. cbn [data array2].
  change (nth (Z.to_nat 0) (nth (Z.to_nat 0) [[Fin (1/2); Fin (1/2); Fin 0; Fin (1/2); Fin 1; Fin 1; Fin 1]] []) (Fin 0)) with (Fin (1/2)).
  change (nth (Z.to_nat 1) (nth (Z.to_nat 0) [[Fin (1/2); Fin (1/2); Fin 0; Fin (1/2); Fin 1; Fin 1; Fin 1]] []) (Fin 0)) with (Fin (1/2)).
  feval. split; reflexivity.
Qed.

(** The (n, 7) branch does not read [minDistance]. *)
Lemma createPillars_rgb_ignores_minDistance
    iteration_order points maxPointsPerPillar maxPillars
    xStep yStep xMin xMax yMin yMax zMin zMax printTime minDistance minDistance' :
  shape_at points 1 = Returns 7%Z ->
  createPillars iteration_order points maxPointsPerPillar maxPillars
    xStep yStep xMin xMax yMin yMax zMin zMax printTime minDistance
  = createPillars iteration_order points maxPointsPerPillar maxPillars
      xStep yStep xMin xMax yMin yMax zMin zMax printTime minDistance'.
Proof.
  intros H. unfold createPillars. rewrite H. reflexivity.
Qed.

(** When the second dimension is neither 4 nor 7, control reaches the end
    of [createPillars]: no exception is thrown. *)
Lemma createPillars_other_width
    iteration_order points maxPointsPerPillar maxPillars
    xStep yStep xMin xMax yMin yMax zMin zMax printTime minDistance ncols :
  shape_at points 1 = Returns ncols ->
  ncols <> 4%Z -> ncols <> 7%Z ->
  createPillars iteration_order points maxPointsPerPillar maxPillars
    xStep yStep xMin xMax yMin yMax zMin zMax printTime minDistance
  = Undefined MissingReturn.
Proof.
  intros H H4 H7. unfold createPillars. rewrite H. cbn [bind].
  apply Z.eqb_neq in H4, H7. rewrite H4, H7. reflexivity.
Qed.

(** C3 (the code at the failing input).  For an array of shape (1, 5),
    [createPillars] throws nothing: neither branch is taken, and control
    reaches the end of the function, which has no return statement there. *)
Theorem createPillars_five_columns_no_error :
  forall iteration_order maxPointsPerPillar maxPillars
         xStep yStep xMin xMax yMin yMax zMin zMax printTime minDistance,
  shape exP5_points = [1; 5]%Z /\
  createPillars iteration_order exP5_points maxPointsPerPillar maxPillars
    xStep yStep xMin xMax yMin yMax zMin zMax printTime minDistance
  = Undefined MissingReturn /\
  (forall e,
     createPillars iteration_order exP5_points maxPointsPerPillar maxPillars
       xStep yStep xMin xMax yMin yMax zMin zMax printTime minDistance
     <> Raises e).
Proof.
  intros.
  assert (H : createPillars iteration_order exP5_points maxPointsPerPillar
                maxPillars xStep yStep xMin xMax yMin yMax zMin zMax
                printTime minDistance = Undefined MissingReturn).
  { eapply createPillars_other_width with (ncols := 5%Z);
      [reflexivity | lia | lia]. }
  split; [reflexivity |]. split; [exact H |].
  intros e. rewrite H. discriminate.
Qed.

(** C4 (the code at the failing input).  With [minDistance = 1], the point
    (1/2, 1/2, 0) of the 7-column input is at squared distance 1/2 < 1 of
    the origin; it is binned and written to the feature tensor all the
    same.  The 4-column input with the same point gives a tensor of
    zeros. *)
Theorem rgb_point_within_min_distance_is_written :
  (fgtb (Fin 1) (Fin 0) = true /\
   fltb (fadd (fpow2 (data exP7_points [0; 0]%Z))
              (fpow2 (data exP7_points [0; 1]%Z))) (fpow2 (Fin 1)) = true) /\
  (exists tensor indices,
     exP7_call (Fin 1) = Returns (tensor, indices) /\
     data tensor [0; 0; 0; 0]%Z = Fin (1/2) /\
     data tensor [0; 0; 0; 1]%Z = Fin (1/2)) /\
  (exists tensor indices,
     exP4_one_call (Fin 1) = Returns (tensor, indices) /\
     forall idx, data tensor idx = Fin 0).
Proof.
  split; [exact exP7_close |].
  split; [exact exP7_returns | exact exP4_one_returns].
Qed.

(** C5, on a call with three points in two cells and room for one point
    per pillar. *)
Lemma pillar_and_point_capacities_example :
  exists tensor indices,
    exP4_call = Returns (tensor, indices) /\
    exists (cells : list Key),
      NoDup cells /\
      (Z.of_nat (List.length (firstn (Z.to_nat 3) cells)) <= 3)%Z /\
      (forall s k, nth_error (firstn (Z.to_nat 3) cells) s = Some k ->
         forall b j c, (1 <= j)%Z ->
           data tensor [b; Z.of_nat s; j; c] = Fin 0) /\
      (forall b s j c,
         (Z.of_nat (List.length (firstn (Z.to_nat 3) cells)) <= s)%Z ->
         data tensor [b; s; j; c] = Fin 0).
Proof.
  destruct exP4_returns as (tensor & indices & H).
  exists tensor, indices. split; [exact H |].
  unfold exP4_call in H.
  destruct (@pillar_and_point_capacities (fun _ m => m) _ _ _ _ _ _ _ _ _ _ _ _ _
              tensor indices (fun _ m => Permutation_refl m) H)
    as (nrows & ncols & cells & _ & Hnd & _ & Hlen & Hslots & Hzero & _).
  exists cells. split; [exact Hnd |]. split; [exact Hlen |]. split.
  - intros s k Hs b j c Hj.
    destruct (Hslots s k Hs) as (Hkept & _ & Hz).
    apply Hz. right. lia.
  - intros b s j c Hs. apply Hzero. right. exact Hs.
Defined.



(** * The two orders of the IOU *)

Local Open Scope R_scope.





(** ** Boxes of zero or negative size *)





(** * Further properties of the code

    Properties of the functions of [src/point_pillars.cpp] beyond the claims of
    the specification: the hash of the cell keys, [clamp], the clipping of a
    polygon by one edge, the results and the failures of [createPillars] and
    of [createPillarsTarget]. *)

(** ** Loops and arrays *)

(** A loop whose body leaves the state as it is. *)
Lemma foldM_skip {A S} (f : S -> A -> Outcome S) (l : list A) (s : S) :
  (forall a, In a l -> f s a = Returns s) -> foldM f l s = Returns s.
Proof.
  induction l as [| a l IH]; intros H; [reflexivity |].
  cbn [foldM]. rewrite H by (left; reflexivity). cbn [bind].
  apply IH. intros a' Ha'. apply H. right; exact Ha'.
Qed.

(** A loop whose body can only fail with [u], and does for one element. *)
Lemma foldM_undefined {A S} (f : S -> A -> Outcome S) (u : UB) (l : list A)
    (a0 : A) :
  (forall s a, In a l -> (exists s', f s a = Returns s') \/ f s a = Undefined u) ->
  In a0 l -> (forall s, f s a0 = Undefined u) ->
  forall s, foldM f l s = Undefined u.
Proof.
  induction l as [| a l IH]; intros Hf Hin H0 s; [destruct Hin |].
  cbn [foldM].
  destruct (Hf s a (or_introl eq_refl)) as [[s' E] | E]; rewrite E; cbn [bind];
    [| reflexivity].
  destruct Hin as [-> | Hin]; [rewrite H0 in E; discriminate |].
  apply IH; [| exact Hin | exact H0].
  intros s1 a1 H1. apply Hf. right; exact H1.
Qed.

(** A loop whose body returns and keeps [I]. *)
Lemma foldM_total {A S} (I : S -> Prop) (f : S -> A -> Outcome S)
    (l : list A) :
  (forall s a, In a l -> I s -> exists s', f s a = Returns s' /\ I s') ->
  forall s, I s -> exists s', foldM f l s = Returns s' /\ I s'.
Proof.
  induction l as [| a l IH]; intros Hf s Hs.
  - exists s. split; [reflexivity | exact Hs].
  - destruct (Hf s a (or_introl eq_refl) Hs) as (s1 & E1 & H1).
    destruct (IH (fun s0 a0 Ha0 => Hf s0 a0 (or_intror Ha0)) s1 H1)
      as (s' & E' & H').
    exists s'. split; [| exact H']. cbn [foldM]. rewrite E1. exact E'.
Qed.

Lemma NoDup_range (lo hi : Z) : NoDup (range lo hi).
Proof.
  unfold range. apply Finite.Injective_map_NoDup; [| apply seq_NoDup].
  intros a b H. lia.
Qed.

(** A loop whose steps write to disjoint parts of the tensor [proj s] of
    its state [s]. *)
Lemma foldM_writes {A S} (proj : S -> NdArray float)
    (f : S -> A -> Outcome S)
    (touch : A -> list Z -> Prop) (Q : A -> NdArray float -> Prop)
    (l : list A) :
  NoDup l ->
  (forall s a s', In a l -> f s a = Returns s' ->
     Q a (proj s') /\
     forall idx, ~ touch a idx -> data (proj s') idx = data (proj s) idx) ->
  (forall a b t t', In a l -> In b l -> a <> b ->
     (forall idx, ~ touch a idx -> data t' idx = data t idx) ->
     Q b t -> Q b t') ->
  forall s s', foldM f l s = Returns s' ->
    (forall b, In b l -> Q b (proj s')) /\
    (forall idx, (forall a, In a l -> ~ touch a idx) ->
       data (proj s') idx = data (proj s) idx).
Proof.
  induction l as [| a l IH]; intros Hnd Hstep Hframe s s' H; cbn [foldM] in H.
  - inversion H; subst. split; [intros b [] | reflexivity].
  - inv_bind H. rename a0 into s1.
    inversion Hnd as [| ? ? Hnotin Hnd']; subst.
    destruct (Hstep s a s1 (or_introl eq_refl) Ha) as [HQ Hfr].
    destruct (IH Hnd'
                (fun s0 a0 s0' Hin => Hstep s0 a0 s0' (or_intror Hin))
                (fun a0 b0 t0 t0' Ha0 Hb0 =>
                   Hframe a0 b0 t0 t0' (or_intror Ha0) (or_intror Hb0))
                s1 s' H) as [HQs Hfrs].
    split.
    + intros b [<- | Hb]; [| apply HQs; exact Hb].
      assert (Hgen : forall l' s2 s3,
                (forall c, In c l' -> In c l) ->
                foldM f l' s2 = Returns s3 ->
                Q a (proj s2) -> Q a (proj s3)).
      { induction l' as [| c l' IH']; intros s2 s3 Hsub H2 HQ2;
          cbn [foldM] in H2.
        - inversion H2; subst. exact HQ2.
        - inv_bind H2. rename a0 into s4.
          apply (IH' s4 s3); [intros c' Hc'; apply Hsub; right; exact Hc'
                             | exact H2 |].
          destruct (Hstep s2 c s4 (or_intror (Hsub c (or_introl eq_refl))) Ha0)
            as [_ Hfr4].
          apply (Hframe c a (proj s2) (proj s4));
            [right; apply Hsub; left; reflexivity | left; reflexivity | |
             exact Hfr4 | exact HQ2].
          intros ->. apply Hnotin. apply Hsub. left; reflexivity. }
      apply (Hgen l s1 s'); [auto | exact H | exact HQ].
    + intros idx Hidx. rewrite Hfrs by (intros c Hc; apply Hidx; right; exact Hc).
      apply Hfr. apply Hidx. left; reflexivity.
Qed.

Lemma at_vector {A} (a : NdArray A) (n i : Z) :
  shape a = [n] -> (0 <= i < n)%Z -> at_ a [i] = Returns (data a [i]).
Proof.
  intros Hs Hi. unfold at_. rewrite Hs. cbn [in_bounds].
  rewrite (proj2 (Z.leb_le _ _)), (proj2 (Z.ltb_lt _ _)) by lia. reflexivity.
Qed.

Lemma at_matrix {A} (a : NdArray A) (nrows ncols i c : Z) :
  shape a = [nrows; ncols] -> (0 <= i < nrows)%Z -> (0 <= c < ncols)%Z ->
  at_ a [i; c] = Returns (data a [i; c]).
Proof.
  intros Hs Hi Hc. unfold at_. rewrite Hs. cbn [in_bounds].
  rewrite !(proj2 (Z.leb_le _ _)), !(proj2 (Z.ltb_lt _ _)) by lia.
  reflexivity.
Qed.

Lemma in_bounds3 (n1 n2 n3 i1 i2 i3 : Z) :
  (0 <= i1 < n1)%Z -> (0 <= i2 < n2)%Z -> (0 <= i3 < n3)%Z ->
  in_bounds [n1; n2; n3] [i1; i2; i3] = true.
Proof.
  intros. cbn [in_bounds].
  rewrite !(proj2 (Z.leb_le _ _)), !(proj2 (Z.ltb_lt _ _)) by lia.
  reflexivity.
Qed.

Lemma in_bounds4 (n1 n2 n3 n4 i1 i2 i3 i4 : Z) :
  (0 <= i1 < n1)%Z -> (0 <= i2 < n2)%Z -> (0 <= i3 < n3)%Z ->
  (0 <= i4 < n4)%Z ->
  in_bounds [n1; n2; n3; n4] [i1; i2; i3; i4] = true.
Proof.
  intros. cbn [in_bounds].
  rewrite !(proj2 (Z.leb_le _ _)), !(proj2 (Z.ltb_lt _ _)) by lia.
  reflexivity.
Qed.

Lemma in_bounds5 (n1 n2 n3 n4 n5 i1 i2 i3 i4 i5 : Z) :
  (0 <= i1 < n1)%Z -> (0 <= i2 < n2)%Z -> (0 <= i3 < n3)%Z ->
  (0 <= i4 < n4)%Z -> (0 <= i5 < n5)%Z ->
  in_bounds [n1; n2; n3; n4; n5] [i1; i2; i3; i4; i5] = true.
Proof.
  intros. cbn [in_bounds].
  rewrite !(proj2 (Z.leb_le _ _)), !(proj2 (Z.ltb_lt _ _)) by lia.
  reflexivity.
Qed.

Lemma mutable_at_total {A} (t : NdArray A) (idx : list Z) (v : A) :
  in_bounds (shape t) idx = true ->
  exists t', mutable_at t idx v = Returns t' /\ shape t' = shape t.
Proof.
  intros H. unfold mutable_at. rewrite H. eexists. split; reflexivity.
Qed.

Lemma write_channels_total {A} (vals : list A) :
  forall (t : NdArray A) (prefix : list Z) (c : Z),
  (forall k, (k < List.length vals)%nat ->
     in_bounds (shape t) (prefix ++ [(c + Z.of_nat k)%Z]) = true) ->
  exists t', write_channels t prefix c vals = Returns t' /\ shape t' = shape t.
Proof.
  induction vals as [| v vs IH]; intros t prefix c H.
  - exists t. split; reflexivity.
  - cbn [write_channels].
    destruct (@mutable_at_total _ t (prefix ++ [c]) v) as (t1 & E1 & S1).
    { specialize (H 0%nat ltac:(simpl; lia)).
      replace (c + Z.of_nat 0)%Z with c in H by lia. exact H. }
    rewrite E1. cbn [bind].
    destruct (IH t1 prefix (c + 1)%Z) as (t' & E' & S').
    { intros k Hk. rewrite S1.
      specialize (H (S k) ltac:(simpl; lia)).
      replace (c + Z.of_nat (S k))%Z with (c + 1 + Z.of_nat k)%Z in H by lia.
      exact H. }
    exists t'. split; [exact E' | congruence].
Qed.

(** The zeroing loop of a shape whose dimensions are not negative and whose
    product fits an [int] at every step. *)
Lemma resize_zeros_total {A} (zero : A) (sh : list Z) (bound : Z) :
  (forall n, In n sh -> (0 <= n)%Z) ->
  int_product sh = Returns bound ->
  resize_zeros zero sh = Returns (mkArray sh (fun _ => zero)).
Proof.
  intros Hsh Hb. unfold resize_zeros.
  replace (forallb (fun n => (0 <=? n)%Z) sh) with true.
  - rewrite Hb. reflexivity.
  - symmetry. apply forallb_forall. intros n Hn. apply Z.leb_le. auto.
Qed.

Lemma int_product3 (a b c : Z) :
  (0 <= a <= INT_MAX)%Z -> (0 <= b)%Z -> (0 <= c)%Z ->
  (a * b <= INT_MAX)%Z -> (a * b * c <= INT_MAX)%Z ->
  int_product [a; b; c] = Returns (a * b * c)%Z.
Proof.
  intros Ha Hb Hc Hab Habc. unfold int_product, foldM, int_mul, INT_MAX in *.
  rewrite (@int_result_fits (a * b)%Z) by (unfold INT_MIN, INT_MAX; nia).
  cbn [bind].
  rewrite (@int_result_fits (a * b * c)%Z) by (unfold INT_MIN, INT_MAX; nia).
  reflexivity.
Qed.

Lemma int_product4 (a b c e : Z) :
  (0 <= a <= INT_MAX)%Z -> (0 <= b)%Z -> (0 <= c)%Z -> (0 <= e)%Z ->
  (a * b <= INT_MAX)%Z -> (a * b * c <= INT_MAX)%Z ->
  (a * b * c * e <= INT_MAX)%Z ->
  int_product [a; b; c; e] = Returns (a * b * c * e)%Z.
Proof.
  intros Ha Hb Hc He Hab Habc Habce.
  unfold int_product, foldM, int_mul, INT_MAX in *.
  rewrite (@int_result_fits (a * b)%Z) by (unfold INT_MIN, INT_MAX; nia).
  cbn [bind].
  rewrite (@int_result_fits (a * b * c)%Z) by (unfold INT_MIN, INT_MAX; nia).
  cbn [bind].
  rewrite (@int_result_fits (a * b * c * e)%Z)
    by (unfold INT_MIN, INT_MAX; nia).
  reflexivity.
Qed.

(** The two zeroing loops of [createPillars]. *)
Lemma createPillars_buffers (maxPillars maxPointsPerPillar nbChannels : Z) :
  (0 <= maxPillars)%Z -> (0 <= maxPointsPerPillar)%Z -> (1 <= nbChannels)%Z ->
  (maxPillars * maxPointsPerPillar * nbChannels <= INT_MAX)%Z ->
  (maxPillars * 3 <= INT_MAX)%Z ->
  resize_zeros (Fin 0) [1; maxPillars; maxPointsPerPillar; nbChannels]%Z
  = Returns (mkArray [1; maxPillars; maxPointsPerPillar; nbChannels]%Z
                     (fun _ => Fin 0)) /\
  resize_zeros 0%Z [1; maxPillars; 3]%Z
  = Returns (mkArray [1; maxPillars; 3]%Z (fun _ => 0%Z)).
Proof.
  intros HmP HmPP Hc Ht Hi. split.
  - apply resize_zeros_total
      with (bound := (1 * maxPillars * maxPointsPerPillar * nbChannels)%Z).
    + cbn [In]. intros n Hn. lia.
    + apply int_product4; unfold INT_MAX in *; nia.
  - apply resize_zeros_total with (bound := (1 * maxPillars * 3)%Z).
    + cbn [In]. intros n Hn. lia.
    + apply int_product3; unfold INT_MAX in *; nia.
Qed.

(** ** The hash of a cell key *)

Lemma IntPairHash_value (p : Key) :
  is_uint32 (fst p) -> is_uint32 (snd p) ->
  IntPairHash p = (fst p * 2 ^ 32 + snd p)%Z.
Proof.
  destruct p as [a b]. unfold is_uint32, IntPairHash. cbn [fst snd].
  intros Ha Hb.
  rewrite Z.shiftl_mul_pow2 by lia.
  rewrite Z.mod_small by lia.
  rewrite <- Z.lxor_lor.
  - symmetry. apply Z.add_nocarry_lxor.
    apply Z.bits_inj'. intros n Hn. rewrite Z.land_spec, Z.bits_0.
    destruct (Z.ltb_spec n 32).
    + rewrite Z.mul_pow2_bits_low by lia. reflexivity.
    + rewrite (Z.bits_above_log2 b n); [apply andb_false_r | lia |].
      destruct (Z.eq_dec b 0) as [-> | Hb0]; [simpl; lia |].
      apply Z.lt_le_trans with 32%Z; [| lia].
      apply Z.log2_lt_pow2; lia.
  - apply Z.bits_inj'. intros n Hn. rewrite Z.land_spec, Z.bits_0.
    destruct (Z.ltb_spec n 32).
    + rewrite Z.mul_pow2_bits_low by lia. reflexivity.
    + rewrite (Z.bits_above_log2 b n); [apply andb_false_r | lia |].
      destruct (Z.eq_dec b 0) as [-> | Hb0]; [simpl; lia |].
      apply Z.lt_le_trans with 32%Z; [| lia].
      apply Z.log2_lt_pow2; lia.
Qed.

(** X1. The hash packs the two indices of a cell key side by side: two keys
    of 32-bit indices with the same hash are the same key. *)
Theorem IntPairHash_injective (p q : Key) :
  is_uint32 (fst p) -> is_uint32 (snd p) ->
  is_uint32 (fst q) -> is_uint32 (snd q) ->
  IntPairHash p = IntPairHash q -> p = q.
Proof.
  intros Hp1 Hp2 Hq1 Hq2 E.
  rewrite !IntPairHash_value in E by assumption.
  destruct p as [a b], q as [c d]. unfold is_uint32 in *. cbn [fst snd] in *.
  assert (a = c) by nia. subst c. f_equal. lia.
Qed.

(** X1, on the keys (1, 2) and (2, 1): their hashes differ. *)
Lemma IntPairHash_injective_example :
  (IntPairHash (1, 2) =? IntPairHash (2, 1))%Z = false.
Proof.
  apply Z.eqb_neq. intros E.
  apply IntPairHash_injective in E; [discriminate | | | |];
    unfold is_uint32; cbn [fst snd]; lia.
Defined.

(** X2. The hash of a key of 32-bit indices fits 64 bits; its upper 32 bits
    are the first index and its lower 32 bits the second. *)
Theorem IntPairHash_unpack (p : Key) :
  is_uint32 (fst p) -> is_uint32 (snd p) ->
  (0 <= IntPairHash p < 2 ^ 64)%Z /\
  Z.shiftr (IntPairHash p) 32 = fst p /\
  Z.land (IntPairHash p) (2 ^ 32 - 1) = snd p.
Proof.
  intros H1 H2. rewrite IntPairHash_value by assumption.
  destruct p as [a b]. unfold is_uint32 in *. cbn [fst snd] in *.
  split; [nia |]. split.
  - rewrite Z.shiftr_div_pow2 by lia.
    rewrite Z.div_add_l by lia. rewrite Z.div_small by lia. lia.
  - change (2 ^ 32 - 1)%Z with (Z.ones 32).
    rewrite Z.land_ones by lia.
    rewrite Z.add_comm, Z.mod_add by lia. apply Z.mod_small. lia.
Qed.

(** X2, on the key (3, 5). *)
Lemma IntPairHash_unpack_example :
  (0 <= IntPairHash (3, 5) < 2 ^ 64)%Z /\
  (Z.shiftr (IntPairHash (3, 5)) 32 = 3)%Z /\
  (Z.land (IntPairHash (3, 5)) (2 ^ 32 - 1) = 5)%Z.
Proof.
  apply (@IntPairHash_unpack (3, 5)%Z); unfold is_uint32; cbn [fst snd]; lia.
Defined.

(** ** The bounds of [clamp] *)

Ltac cases_Rltb :=
  repeat match goal with
  | |- context [Rltb ?a ?b] =>
      let E := fresh "E" in
      destruct (Rltb a b) eqn:E;
      [apply Rltb_spec in E | apply Rltb_false_iff in E]
  | H : context [Rltb ?a ?b] |- _ =>
      let E := fresh "E" in
      destruct (Rltb a b) eqn:E;
      [apply Rltb_spec in E | apply Rltb_false_iff in E]
  end.

(** X3. For bounds [lo <= hi], [clamp] passes NaN through, returns a value
    between [lo] and [hi] for every other argument (an infinity is clamped
    to a bound), and returns the argument itself when it lies between the
    bounds. *)
Theorem clamp_range (v lo hi : float) :
  fleb lo hi = true ->
  clamp NaN lo hi = NaN /\
  (v <> NaN ->
   fleb lo (clamp v lo hi) = true /\ fleb (clamp v lo hi) hi = true) /\
  (fleb lo v = true -> fleb v hi = true -> clamp v lo hi = v).
Proof.
  intros H. split; [| split].
  - destruct lo, hi; try discriminate; reflexivity.
  - intros Hv. unfold clamp.
    destruct v as [x | s | ]; [| | congruence];
      destruct lo as [a | [|] | ], hi as [b | [|] | ];
      simpl in *; try discriminate; cases_Rltb; simpl;
      try destruct s; simpl; cases_Rltb;
      try (split; reflexivity); try discriminate; try lra;
      split; try reflexivity; cases_Rltb; simpl; try reflexivity; try lra.
  - intros H1 H2. unfold clamp.
    destruct v as [x | s | ]; destruct lo as [a | [|] | ], hi as [b | [|] | ];
      simpl in *; try discriminate; cases_Rltb; simpl in *;
      try destruct s; simpl in *; cases_Rltb;
      try reflexivity; try discriminate; try lra.
Qed.

(** X3, on the value 2 and the bounds 0 and 1. *)
Lemma clamp_range_example :
  fleb (Fin 0) (Fin 1) = true /\
  fleb (Fin 0) (clamp (Fin 2) (Fin 0) (Fin 1)) = true /\
  fleb (clamp (Fin 2) (Fin 0) (Fin 1)) (Fin 1) = true.
Proof.
  assert (H : fleb (Fin 0) (Fin 1) = true).
  { unfold fleb. rewrite Rltb_false by lra. reflexivity. }
  split; [exact H |].
  destruct (@clamp_range (Fin 2) (Fin 0) (Fin 1) H) as (_ & Hb & _).
  apply Hb. discriminate.
Defined.

(** ** The clipped polygon *)

(** The value [i_pos] of [clip_edge] at a point with finite coordinates. *)
Lemma clip_edge_inside x1 y1 x2 y2 (u v : point) :
  side ((x1, y1), (x2, y2)) u < 0 -> side ((x1, y1), (x2, y2)) v < 0 ->
  clip_edge (Fin x1) (Fin y1) (Fin x2) (Fin y2) (toP u, toP v) = [toP v].
Proof.
  destruct u as [ix iy], v as [kx ky]. intros Hu Hv.
  set (h := ((x1, y1), (x2, y2))) in *.
  cbv beta iota zeta delta
      [clip_edge toP fst snd pt_x pt_y RP fadd fsub fmul fneg fltb fleb fgeb
       fgtb].
  replace ((x2 + - x1) * (iy + - y1) + - ((y2 + - y1) * (ix + - x1)))
    with (side h (ix, iy)) by (unfold side, h; cbn [fst snd]; ring).
  replace ((x2 + - x1) * (ky + - y1) + - ((y2 + - y1) * (kx + - x1)))
    with (side h (kx, ky)) by (unfold side, h; cbn [fst snd]; ring).
  rewrite (@Rltb_true (side h (ix, iy)) 0) by exact Hu.
  rewrite (@Rltb_true (side h (kx, ky)) 0) by exact Hv.
  reflexivity.
Qed.

Lemma clip_edge_outside x1 y1 x2 y2 (u v : point) :
  0 <= side ((x1, y1), (x2, y2)) u -> 0 <= side ((x1, y1), (x2, y2)) v ->
  clip_edge (Fin x1) (Fin y1) (Fin x2) (Fin y2) (toP u, toP v) = [].
Proof.
  destruct u as [ix iy], v as [kx ky]. intros Hu Hv.
  set (h := ((x1, y1), (x2, y2))) in *.
  cbv beta iota zeta delta
      [clip_edge toP fst snd pt_x pt_y RP fadd fsub fmul fneg fltb fleb fgeb
       fgtb].
  replace ((x2 + - x1) * (iy + - y1) + - ((y2 + - y1) * (ix + - x1)))
    with (side h (ix, iy)) by (unfold side, h; cbn [fst snd]; ring).
  replace ((x2 + - x1) * (ky + - y1) + - ((y2 + - y1) * (kx + - x1)))
    with (side h (kx, ky)) by (unfold side, h; cbn [fst snd]; ring).
  rewrite (@Rltb_false (side h (ix, iy)) 0) by exact Hu.
  rewrite (@Rltb_false (side h (kx, ky)) 0) by exact Hv.
  reflexivity.
Qed.

(** The edges of a polygon with finite coordinates. *)
Lemma edges_toP (P : list point) :
  edges (map toP P) = combine (map toP P) (map toP (tl P ++ firstn 1 P)).
Proof.
  unfold edges. f_equal. rewrite map_app. destruct P; reflexivity.
Qed.

(** X8. Clipping by one edge: a polygon whose vertices are all strictly on
    the inner side comes back with its vertices in the same cyclic order,
    from the second on; a polygon with no vertex strictly on the inner side
    is clipped to the empty polygon. *)
Theorem clip_polygon_on_one_side (x1 y1 x2 y2 : R) (P : list point) :
  ((forall q, In q P -> side ((x1, y1), (x2, y2)) q < 0) ->
   clip (map toP P) (Fin x1) (Fin y1) (Fin x2) (Fin y2)
   = map toP (tl P ++ firstn 1 P)) /\
  ((forall q, In q P -> 0 <= side ((x1, y1), (x2, y2)) q) ->
   clip (map toP P) (Fin x1) (Fin y1) (Fin x2) (Fin y2) = []).
Proof.
  set (h := ((x1, y1), (x2, y2))).
  split; intros H; unfold clip; rewrite edges_toP.
  - assert (Hgen : forall Q R : list point,
              (forall q, In q Q -> side h q < 0) ->
              (forall q, In q R -> side h q < 0) ->
              List.length R = List.length Q ->
              flat_map (clip_edge (Fin x1) (Fin y1) (Fin x2) (Fin y2))
                       (combine (map toP Q) (map toP R)) = map toP R).
    { induction Q as [| u Q IH]; intros [| v R] HQ HR Hlen;
        try discriminate; [reflexivity |].
      cbn [map combine flat_map].
      rewrite (@clip_edge_inside x1 y1 x2 y2 u v
                 (HQ u (or_introl eq_refl)) (HR v (or_introl eq_refl))).
      cbn [app]. f_equal. apply IH.
      - intros q Hq. apply HQ. right; exact Hq.
      - intros q Hq. apply HR. right; exact Hq.
      - simpl in Hlen. congruence. }
    apply Hgen.
    + exact H.
    + intros q Hq. apply in_app_or in Hq. destruct P as [| p P];
        [destruct Hq as [[] | []] |].
      destruct Hq as [Hq | [<- | []]]; apply H;
        [right; exact Hq | left; reflexivity].
    + destruct P as [| p P]; [reflexivity |].
      cbn [tl firstn]. rewrite length_app. simpl. lia.
  - assert (Hgen : forall Q R : list point,
              (forall q, In q Q -> 0 <= side h q) ->
              (forall q, In q R -> 0 <= side h q) ->
              flat_map (clip_edge (Fin x1) (Fin y1) (Fin x2) (Fin y2))
                       (combine (map toP Q) (map toP R)) = []).
    { induction Q as [| u Q IH]; intros [| v R] HQ HR; try reflexivity.
      cbn [map combine flat_map].
      rewrite (@clip_edge_outside x1 y1 x2 y2 u v
                 (HQ u (or_introl eq_refl)) (HR v (or_introl eq_refl))).
      cbn [app]. apply IH.
      - intros q Hq. apply HQ. right; exact Hq.
      - intros q Hq. apply HR. right; exact Hq. }
    apply Hgen.
    + exact H.
    + intros q Hq. apply in_app_or in Hq. destruct P as [| p P];
        [destruct Hq as [[] | []] |].
      destruct Hq as [Hq | [<- | []]]; apply H;
        [right; exact Hq | left; reflexivity].
Qed.

(** ** Calls of [createPillars] that fail or write nothing *)

(** X13. [createPillars] on an array whose second dimension is 4 or 7 and
    whose number of dimensions is not 2 raises the runtime error that names
    the expected shape, (n, 4) or (n, 7). *)
Theorem createPillars_wrong_rank
    (iteration_order : forall P : Type, PillarMap P -> PillarMap P)
    points maxPointsPerPillar maxPillars
    xStep yStep xMin xMax yMin yMax zMin zMax printTime minDistance ncols :
  nth_error (shape points) 1 = Some ncols ->
  (ncols = 4 \/ ncols = 7)%Z ->
  List.length (shape points) <> 2%nat ->
  createPillars iteration_order points maxPointsPerPillar maxPillars
    xStep yStep xMin xMax yMin yMax zMin zMax printTime minDistance
  = Raises (RuntimeError (shape_error ncols)).
Proof.
  intros Hn Hc Hr. unfold createPillars, shape_at, ndim. rewrite Hn.
  cbn [bind].
  assert (E : (Z.of_nat (List.length (shape points)) =? 2)%Z = false)
    by (apply Z.eqb_neq; lia).
  rewrite E. destruct Hc as [-> | ->]; reflexivity.
Qed.

(** X13, on an array of shape (1, 4, 1). *)
Lemma createPillars_wrong_rank_example :
  createPillars (fun _ m => m) exP_cube 1 1
    (Fin 1) (Fin 1) (Fin 0) (Fin 1) (Fin 0) (Fin 1) (Fin (-1)) (Fin 1)
    false (Fin 0)
  = Raises (RuntimeError (shape_error 4)).
Proof.
  apply createPillars_wrong_rank; [reflexivity | left; reflexivity |].
  cbn. lia.
Defined.

(** One iteration of the binning loops on an array of the expected shape. *)
Lemma bin_point4_row points xStep yStep xMin xMax yMin yMax zMin zMax
    minDistance nrows m i :
  shape points = [nrows; 4%Z] -> (0 <= i < nrows)%Z ->
  bin_point4 points xStep yStep xMin xMax yMin yMax zMin zMax minDistance m i
  = if row_skipped 4 points xMin xMax yMin yMax zMin zMax minDistance i
    then Returns m
    else match row_key points xStep yStep xMin yMin i with
         | Some k => Returns (emplace_back k (row_point4 points i) m)
         | None => Undefined FloatToIntOutOfRange
         end.
Proof.
  intros Hs Hi. unfold bin_point4, row_skipped, row_key, row_point4.
  simpl (4 =? 4)%Z.
  rewrite !(at_matrix points Hs Hi) by lia. cbn [bind].
  destruct (rejected4 _ _ _ _ _ _ _ _ _ _); [reflexivity |].
  destruct (static_cast_uint32 (cell_index (data points [i; 0%Z]) xMin xStep));
    [| reflexivity].
  cbn [cast bind].
  destruct (static_cast_uint32 (cell_index (data points [i; 1%Z]) yMin yStep));
    reflexivity.
Qed.

Lemma bin_point7_row points xStep yStep xMin xMax yMin yMax zMin zMax
    minDistance nrows m i :
  shape points = [nrows; 7%Z] -> (0 <= i < nrows)%Z ->
  bin_point7 points xStep yStep xMin xMax yMin yMax zMin zMax minDistance m i
  = if row_skipped 7 points xMin xMax yMin yMax zMin zMax minDistance i
    then Returns m
    else match row_key points xStep yStep xMin yMin i with
         | Some k => Returns (emplace_back k (row_point7 points i) m)
         | None => Undefined FloatToIntOutOfRange
         end.
Proof.
  intros Hs Hi. unfold bin_point7, row_skipped, row_key, row_point7.
  simpl (7 =? 4)%Z.
  rewrite !(at_matrix points Hs Hi) by lia. cbn [bind].
  destruct (rejected7 _ _ _ _ _ _ _ _ _ _); [reflexivity |].
  destruct (static_cast_uint32 (cell_index (data points [i; 0%Z]) xMin xStep));
    [| reflexivity].
  cbn [cast bind].
  destruct (static_cast_uint32 (cell_index (data points [i; 1%Z]) yMin yStep));
    reflexivity.
Qed.

Lemma exP4_one_skipped :
  row_skipped 4 exP4_one_point (Fin 0) (Fin 1) (Fin 0) (Fin 1) (Fin (-1))
              (Fin 1) (Fin 1) 0 = true.
Proof.
  unfold row_skipped, rejected4, out_of_range, exP4_one_point.
  cbv [data array2 nth Z.to_nat Pos.to_nat Pos.iter_op Nat.add Z.eqb Pos.eqb].
  feval. reflexivity.
Qed.

(** X14. When the array has no row, or the range and distance tests reject
    every row, and the capacities are not negative and small enough for the
    bounds [1 * maxPillars * maxPointsPerPillar * 9] (or [* 12]) and
    [1 * maxPillars * 3] of the zeroing loops to fit an [int],
    [createPillars] returns a feature tensor of shape (1, maxPillars,
    maxPointsPerPillar, 9 or 12) and an index tensor of shape
    (1, maxPillars, 3) that are zero everywhere. *)
Theorem createPillars_no_accepted_point
    (iteration_order : forall P : Type, PillarMap P -> PillarMap P)
    points maxPointsPerPillar maxPillars
    xStep yStep xMin xMax yMin yMax zMin zMax printTime minDistance
    nrows ncols :
  (forall P (m : PillarMap P), Permutation (iteration_order P m) m) ->
  shape points = [nrows; ncols] -> (ncols = 4 \/ ncols = 7)%Z ->
  (nrows <= INT_MAX)%Z ->
  (0 <= maxPillars)%Z -> (0 <= maxPointsPerPillar)%Z ->
  (maxPillars * maxPointsPerPillar * nb_channels ncols <= INT_MAX)%Z ->
  (maxPillars * 3 <= INT_MAX)%Z ->
  (forall i, (0 <= i < nrows)%Z ->
     row_skipped ncols points xMin xMax yMin yMax zMin zMax minDistance i
     = true) ->
  createPillars iteration_order points maxPointsPerPillar maxPillars
    xStep yStep xMin xMax yMin yMax zMin zMax printTime minDistance
  = Returns
      (mkArray [1; maxPillars; maxPointsPerPillar;
                if (ncols =? 4)%Z then 9 else 12]%Z (fun _ => Fin 0),
       mkArray [1; maxPillars; 3]%Z (fun _ => 0%Z)).
Proof.
  intros Horder Hs Hc Hrows HmP HmPP Hfit Hfit3 Hskip.
  assert (Hnil : forall P, iteration_order P [] = []).
  { intros P. apply Permutation_nil. apply Permutation_sym. apply Horder. }
  assert (Hnb : (1 <= nb_channels ncols)%Z)
    by (unfold nb_channels; destruct (ncols =? 4)%Z; lia).
  destruct (createPillars_buffers HmP HmPP Hnb Hfit Hfit3) as [Hrt Hri].
  unfold nb_channels in Hrt.
  unfold createPillars, shape_at, ndim. rewrite Hs. cbn [nth_error bind List.length].
  destruct Hc as [-> | ->]; cbn [Z.eqb Pos.eqb Z.of_nat Pos.of_succ_nat Pos.succ negb orb bind].
  - rewrite foldM_skip.
    + cbn [bind]. cbn [Z.eqb Pos.eqb] in Hrt. rewrite Hrt, Hri.
      cbn [bind]. rewrite Hnil. reflexivity.
    + intros i Hi. apply In_range in Hi.
      rewrite (bin_point4_row _ _ _ _ _ _ _ _ _ _ _ Hs) by lia.
      rewrite Hskip by lia. reflexivity.
  - rewrite foldM_skip.
    + cbn [bind]. cbn [Z.eqb Pos.eqb] in Hrt. rewrite Hrt, Hri.
      cbn [bind]. rewrite Hnil. reflexivity.
    + intros i Hi. apply In_range in Hi.
      rewrite (bin_point7_row _ _ _ _ _ _ _ _ _ _ _ Hs) by lia.
      rewrite Hskip by lia. reflexivity.
Qed.

(** X14, on one point closer to the origin than [minDistance]. *)
Lemma createPillars_no_accepted_point_example :
  exP4_one_call (Fin 1)
  = Returns (mkArray [1; 1; 1; 9]%Z (fun _ => Fin 0),
             mkArray [1; 1; 3]%Z (fun _ => 0%Z)).
Proof.
  unfold exP4_one_call.
  apply (@createPillars_no_accepted_point (fun _ m => m) exP4_one_point 1 1
           (Fin 1) (Fin 1) (Fin 0) (Fin 1) (Fin 0) (Fin 1) (Fin (-1)) (Fin 1)
           false (Fin 1) 1 4);
    [intros; apply Permutation_refl | reflexivity | left; reflexivity
    | unfold INT_MAX; lia | lia | lia | vm_compute; discriminate
    | vm_compute; discriminate |].
  intros i Hi. replace i with 0%Z by lia. exact exP4_one_skipped.
Defined.

(** X15. If some row passes the range and distance tests but its cell index
    does not fit a [uint32_t] (a coordinate that is NaN, a step of 0, ...),
    the conversion of the index is undefined behaviour: the call neither
    returns nor raises. *)
Theorem createPillars_undefined_cell
    (iteration_order : forall P : Type, PillarMap P -> PillarMap P)
    points maxPointsPerPillar maxPillars
    xStep yStep xMin xMax yMin yMax zMin zMax printTime minDistance
    nrows ncols i :
  shape points = [nrows; ncols] -> (ncols = 4 \/ ncols = 7)%Z ->
  (0 <= i < nrows)%Z ->
  row_skipped ncols points xMin xMax yMin yMax zMin zMax minDistance i
    = false ->
  row_key points xStep yStep xMin yMin i = None ->
  createPillars iteration_order points maxPointsPerPillar maxPillars
    xStep yStep xMin xMax yMin yMax zMin zMax printTime minDistance
  = Undefined FloatToIntOutOfRange.
Proof.
  intros Hs Hc Hi Hskip Hkey.
  unfold createPillars, shape_at, ndim. rewrite Hs. cbn [nth_error bind List.length].
  destruct Hc as [-> | ->]; cbn [Z.eqb Pos.eqb Z.of_nat Pos.of_succ_nat Pos.succ negb orb bind].
  - rewrite (@foldM_undefined _ _ _ FloatToIntOutOfRange _ i); [reflexivity | | |].
    + intros s a Ha. apply In_range in Ha.
      rewrite (bin_point4_row _ _ _ _ _ _ _ _ _ _ _ Hs) by lia.
      destruct (row_skipped _ _ _ _ _ _ _ _ _ a); [left; eexists; reflexivity |].
      destruct (row_key _ _ _ _ _ a); [left; eexists; reflexivity | right; reflexivity].
    + apply In_range. lia.
    + intros s. rewrite (bin_point4_row _ _ _ _ _ _ _ _ _ _ _ Hs) by lia.
      rewrite Hskip, Hkey. reflexivity.
  - rewrite (@foldM_undefined _ _ _ FloatToIntOutOfRange _ i); [reflexivity | | |].
    + intros s a Ha. apply In_range in Ha.
      rewrite (bin_point7_row _ _ _ _ _ _ _ _ _ _ _ Hs) by lia.
      destruct (row_skipped _ _ _ _ _ _ _ _ _ a); [left; eexists; reflexivity |].
      destruct (row_key _ _ _ _ _ a); [left; eexists; reflexivity | right; reflexivity].
    + apply In_range. lia.
    + intros s. rewrite (bin_point7_row _ _ _ _ _ _ _ _ _ _ _ Hs) by lia.
      rewrite Hskip, Hkey. reflexivity.
Qed.

(** X15, on one point whose x coordinate is NaN. *)
Lemma createPillars_undefined_cell_example :
  createPillars (fun _ m => m) exP4_nan 1 1
    (Fin 1) (Fin 1) (Fin 0) (Fin 1) (Fin 0) (Fin 1) (Fin (-1)) (Fin 1)
    false (Fin 0)
  = Undefined FloatToIntOutOfRange.
Proof.
  apply (@createPillars_undefined_cell (fun _ m => m) exP4_nan 1 1
           (Fin 1) (Fin 1) (Fin 0) (Fin 1) (Fin 0) (Fin 1) (Fin (-1)) (Fin 1)
           false (Fin 0) 1 4 0);
    [reflexivity | left; reflexivity | lia | | reflexivity].
  unfold row_skipped, rejected4, out_of_range, exP4_nan.
  cbv [data array2 nth Z.to_nat Pos.to_nat Pos.iter_op Nat.add Z.eqb Pos.eqb].
  feval. reflexivity.
Defined.

(** ** Shapes and channels of the pillars *)

Section EmissionShapes.
Context {P : Type} {PL : PillarPointLike P}.
Variables (maxPointsPerPillar maxPillars : Z).
Variables (xStep yStep xMin yMin : float).

(** The emission loops keep the shapes, and write no batch index. *)
Lemma emit_pillars_shapes (entries : PillarMap P) :
  forall pillarId t ind t' ind',
  emit_pillars maxPointsPerPillar maxPillars xStep yStep xMin yMin
               entries pillarId t ind = Returns (t', ind') ->
  shape t' = shape t /\ shape ind' = shape ind /\
  (forall b s, data ind' [b; s; 0%Z] = data ind [b; s; 0%Z]).
Proof.
  induction entries as [| e rest IH]; intros pillarId t ind t' ind' H;
    cbn [emit_pillars] in H.
  - inversion H; subst. repeat split; reflexivity.
  - destruct (pillarId >=? maxPillars)%Z.
    + inversion H; subst. repeat split; reflexivity.
    + inv_bind H. rename a into xIndex. inv_bind H. rename a into yIndex.
      inv_bind H. rename a into ind1. inv_bind H. rename a into ind2.
      inv_bind H. rename a into t1.
      apply mutable_at_Returns in Ha1. destruct Ha1 as (Hs1 & _ & _ & Hf1).
      apply mutable_at_Returns in Ha2. destruct Ha2 as (Hs2 & _ & _ & Hf2).
      apply emit_points_Returns in Ha3. destruct Ha3 as (Hst & _).
      apply IH in H. destruct H as (Hs & Hsi & Hd).
      split; [congruence |]. split; [congruence |].
      intros b s. rewrite Hd, Hf2, Hf1; [reflexivity | |];
        intros Heq; inversion Heq.
Qed.
End EmissionShapes.

(** X16. Whenever [createPillars] returns, the input has shape (n, 4) or (n,
    7), the feature tensor has shape (1, maxPillars, maxPointsPerPillar, c)
    with c = 9 for four columns and 12 for seven, the index tensor has shape
    (1, maxPillars, 3), and channel 0 of the index tensor (the batch index)
    is 0 everywhere. *)
Theorem createPillars_shapes
    (iteration_order : forall P : Type, PillarMap P -> PillarMap P)
    points maxPointsPerPillar maxPillars
    xStep yStep xMin xMax yMin yMax zMin zMax printTime minDistance
    tensor indices :
  createPillars iteration_order points maxPointsPerPillar maxPillars
    xStep yStep xMin xMax yMin yMax zMin zMax printTime minDistance
    = Returns (tensor, indices) ->
  exists nrows ncols,
    shape points = [nrows; ncols] /\ (ncols = 4 \/ ncols = 7)%Z /\
    (0 <= maxPillars)%Z /\ (0 <= maxPointsPerPillar)%Z /\
    shape tensor = [1; maxPillars; maxPointsPerPillar; nb_channels ncols]%Z /\
    shape indices = [1; maxPillars; 3]%Z /\
    forall b s, data indices [b; s; 0%Z] = 0%Z.
Proof.
  intros H. unfold createPillars in H.
  inv_bind H. rename a into ncols.
  assert (Hshape : forall nrows, shape_at points 0 = Returns nrows ->
            (ndim points =? 2)%Z = true -> shape points = [nrows; ncols]).
  { intros nrows H0 H2. unfold shape_at, ndim in *.
    apply Z.eqb_eq in H2.
    destruct (shape points) as [| a [| b [| c l]]];
      simpl List.length in H2; try lia.
    simpl in *. inversion H0. inversion Ha. reflexivity. }
  destruct (ncols =? 4)%Z eqn:E4.
  - apply Z.eqb_eq in E4.
    destruct (ndim points =? 2)%Z eqn:E2; cbn [negb orb] in H;
      [| discriminate].
    inv_bind H. rename a into nrows. inv_bind H. rename a into m.
    inv_bind H. rename a into t0. inv_bind H. rename a into ind0.
    apply resize_zeros_Returns in Ha2. destruct Ha2 as (Hst & Hz & Hdims).
    apply resize_zeros_Returns in Ha3. destruct Ha3 as (Hsi & Hzi & _).
    apply emit_pillars_shapes in H. destruct H as (Hs1 & Hs2 & Hd).
    exists nrows, ncols. subst ncols.
    split; [apply Hshape; [assumption | reflexivity] |].
    split; [left; reflexivity |].
    split; [apply Hdims; simpl; tauto |].
    split; [apply Hdims; simpl; tauto |].
    split; [unfold nb_channels; simpl Z.eqb; cbv iota; congruence |].
    split; [congruence |].
    intros b s. rewrite Hd. apply Hzi.
  - destruct (ncols =? 7)%Z eqn:E7; [| discriminate].
    apply Z.eqb_eq in E7.
    destruct (ndim points =? 2)%Z eqn:E2; cbn [negb orb] in H;
      [| discriminate].
    inv_bind H. rename a into nrows. inv_bind H. rename a into m.
    inv_bind H. rename a into t0. inv_bind H. rename a into ind0.
    apply resize_zeros_Returns in Ha2. destruct Ha2 as (Hst & Hz & Hdims).
    apply resize_zeros_Returns in Ha3. destruct Ha3 as (Hsi & Hzi & _).
    apply emit_pillars_shapes in H. destruct H as (Hs1 & Hs2 & Hd).
    exists nrows, ncols. subst ncols.
    split; [apply Hshape; [assumption | reflexivity] |].
    split; [right; reflexivity |].
    split; [apply Hdims; simpl; tauto |].
    split; [apply Hdims; simpl; tauto |].
    split; [unfold nb_channels; simpl Z.eqb; cbv iota; congruence |].
    split; [congruence |].
    intros b s. rewrite Hd. apply Hzi.
Qed.

(** X16, on the call with three points. *)
Lemma createPillars_shapes_example :
  exists tensor indices,
    exP4_call = Returns (tensor, indices) /\
    shape tensor = [1; 3; 1; 9]%Z /\ shape indices = [1; 3; 3]%Z /\
    forall b s, data indices [b; s; 0%Z] = 0%Z.
Proof.
  destruct exP4_returns as (tensor & indices & H).
  exists tensor, indices. split; [exact H |].
  unfold exP4_call in H.
  destruct (createPillars_shapes _ _ _ _ _ _ _ _ _ _ _ _ _ _ H)
    as (nrows & ncols & Hs & _ & _ & _ & Ht & Hi & Hz).
  injection Hs as <- <-.
  split; [exact Ht |]. split; [exact Hi | exact Hz].
Defined.

(** X17. Channels 4, 5 and 6 of a written point are its x, y and z minus the
    mean of that coordinate over all the input points of its cell, including
    the points of the cell that were not written because of
    [maxPointsPerPillar]. *)
Theorem centred_coordinates_of_a_pillar :
  forall (iteration_order : forall P : Type, PillarMap P -> PillarMap P)
         points maxPointsPerPillar maxPillars
         xStep yStep xMin xMax yMin yMax zMin zMax printTime minDistance
         tensor indices,
  (forall P (m : PillarMap P), Permutation (iteration_order P m) m) ->
  createPillars iteration_order points maxPointsPerPillar maxPillars
    xStep yStep xMin xMax yMin yMax zMin zMax printTime minDistance
    = Returns (tensor, indices) ->
  exists nrows ncols (cells : list Key),
    let rows_of := rows_of_cell ncols points xStep yStep xMin xMax yMin yMax
                                zMin zMax minDistance nrows in
    shape points = [nrows; ncols] /\
    (forall k, In k cells <-> rows_of k <> []) /\
    forall s k, nth_error (firstn (Z.to_nat maxPillars) cells) s = Some k ->
      forall j i,
        nth_error (firstn (Z.to_nat maxPointsPerPillar) (rows_of k)) j = Some i ->
        data tensor [0; Z.of_nat s; Z.of_nat j; 4]%Z
          = fsub (data points [i; 0%Z]) (column_mean points 0 (rows_of k)) /\
        data tensor [0; Z.of_nat s; Z.of_nat j; 5]%Z
          = fsub (data points [i; 1%Z]) (column_mean points 1 (rows_of k)) /\
        data tensor [0; Z.of_nat s; Z.of_nat j; 6]%Z
          = fsub (data points [i; 2%Z]) (column_mean points 2 (rows_of k)).
Proof.
  intros until indices. intros Horder H.
  destruct (createPillars_pillars _ _ _ _ _ _ _ _ _ _ _ _ _ _ Horder H)
    as (nrows & ncols & cells & Hsh & _ & _ & _ & Hw).
  exists nrows, ncols, cells. cbv zeta.
  destruct Hw as (_ & Hocc & Hslots & _).
  split; [exact Hsh |]. split; [exact Hocc |].
  intros s k Hs j i Hj.
  apply nth_error_firstn_Some in Hj. destruct Hj as [Hlt Hj].
  destruct (Hslots s k Hs) as (xI & yI & _ & _ & _ & _ & Hrows & _).
  destruct (Hrows j i Hj ltac:(lia))
    as (_ & _ & _ & _ & H4 & H5 & H6 & _).
  repeat split; assumption.
Qed.

(** X17, on the call with three points, for channel 4 of the first point of
    each pillar. *)
Lemma centred_coordinates_of_a_pillar_example :
  exists tensor indices,
    exP4_call = Returns (tensor, indices) /\
    exists (cells : list Key),
      let rows_of := rows_of_cell 4 exP4_points (Fin 1) (Fin 1) (Fin 0) (Fin 2)
                       (Fin 0) (Fin 1) (Fin (-1)) (Fin 1) (Fin 0) 3 in
      forall s k, nth_error (firstn (Z.to_nat 3) cells) s = Some k ->
        forall i, nth_error (firstn (Z.to_nat 1) (rows_of k)) 0 = Some i ->
          data tensor [0; Z.of_nat s; 0; 4]%Z
            = fsub (data exP4_points [i; 0%Z])
                   (column_mean exP4_points 0 (rows_of k)).
Proof.
  destruct exP4_returns as (tensor & indices & H).
  exists tensor, indices. split; [exact H |].
  unfold exP4_call in H.
  destruct (@centred_coordinates_of_a_pillar (fun _ m => m) _ _ _ _ _ _ _ _ _
              _ _ _ _ tensor indices (fun _ m => Permutation_refl m) H)
    as (nrows & ncols & cells & Hs & _ & Hc).
  injection Hs as <- <-.
  exists cells. cbv zeta. intros s k Hk i Hi.
  destruct (Hc s k Hk 0%nat i Hi) as (H4 & _). exact H4.
Defined.

(** X18. For an input of seven columns, channels 9, 10 and 11 of a written
    point are columns 4, 5 and 6 of its input row. *)
Theorem colour_channels_of_a_pillar :
  forall (iteration_order : forall P : Type, PillarMap P -> PillarMap P)
         points maxPointsPerPillar maxPillars
         xStep yStep xMin xMax yMin yMax zMin zMax printTime minDistance
         tensor indices nrows,
  (forall P (m : PillarMap P), Permutation (iteration_order P m) m) ->
  shape points = [nrows; 7%Z] ->
  createPillars iteration_order points maxPointsPerPillar maxPillars
    xStep yStep xMin xMax yMin yMax zMin zMax printTime minDistance
    = Returns (tensor, indices) ->
  exists cells : list Key,
    let rows_of := rows_of_cell 7 points xStep yStep xMin xMax yMin yMax
                                zMin zMax minDistance nrows in
    (forall k, In k cells <-> rows_of k <> []) /\
    forall s k, nth_error (firstn (Z.to_nat maxPillars) cells) s = Some k ->
      forall j i,
        nth_error (firstn (Z.to_nat maxPointsPerPillar) (rows_of k)) j = Some i ->
        data tensor [0; Z.of_nat s; Z.of_nat j; 9]%Z = data points [i; 4%Z] /\
        data tensor [0; Z.of_nat s; Z.of_nat j; 10]%Z = data points [i; 5%Z] /\
        data tensor [0; Z.of_nat s; Z.of_nat j; 11]%Z = data points [i; 6%Z].
Proof.
  intros until nrows. intros Horder Hshape H.
  destruct (createPillars_pillars _ _ _ _ _ _ _ _ _ _ _ _ _ _ Horder H)
    as (nrows' & ncols & cells & Hsh & _ & _ & _ & Hw).
  rewrite Hshape in Hsh. injection Hsh as <- <-.
  exists cells. cbv zeta.
  destruct Hw as (_ & Hocc & Hslots & _).
  split; [exact Hocc |].
  intros s k Hs j i Hj.
  apply nth_error_firstn_Some in Hj. destruct Hj as [Hlt Hj].
  destruct (Hslots s k Hs) as (xI & yI & _ & _ & _ & _ & Hrows & _).
  destruct (Hrows j i Hj ltac:(lia))
    as (_ & _ & _ & _ & _ & _ & _ & _ & _ & H7).
  apply H7. reflexivity.
Qed.

(** X18, on the point with colour channels. *)
Lemma colour_channels_of_a_pillar_example :
  exists tensor indices,
    exP7_call (Fin 1) = Returns (tensor, indices) /\
    exists (cells : list Key),
      let rows_of := rows_of_cell 7 exP7_points (Fin 1) (Fin 1) (Fin 0) (Fin 1)
                       (Fin 0) (Fin 1) (Fin (-1)) (Fin 1) (Fin 1) 1 in
      forall s k, nth_error (firstn (Z.to_nat 1) cells) s = Some k ->
        forall i, nth_error (firstn (Z.to_nat 1) (rows_of k)) 0 = Some i ->
          data tensor [0; Z.of_nat s; 0; 9]%Z = data exP7_points [i; 4%Z] /\
          data tensor [0; Z.of_nat s; 0; 10]%Z = data exP7_points [i; 5%Z] /\
          data tensor [0; Z.of_nat s; 0; 11]%Z = data exP7_points [i; 6%Z].
Proof.
  destruct exP7_returns as (tensor & indices & H & _).
  exists tensor, indices. split; [exact H |].
  unfold exP7_call in H.
  destruct (@colour_channels_of_a_pillar (fun _ m => m) exP7_points _ _ _ _
              _ _ _ _ _ _ _ _ tensor indices 1%Z
              (fun _ m => Permutation_refl m) eq_refl H)
    as (cells & _ & Hc).
  exists cells. cbv zeta. intros s k Hk i Hi.
  exact (Hc s k Hk 0%nat i Hi).
Defined.

Lemma clamp_unit_interval (v : float) :
  clamp v (Fin 0) (Fin 1) = NaN \/
  exists r, clamp v (Fin 0) (Fin 1) = Fin r /\ 0 <= r <= 1.
Proof.
  unfold clamp. destruct v as [x | [|] | ]; simpl.
  - destruct (Rltb x 0) eqn:E0; [right; exists 0; split; [reflexivity | lra] |].
    apply Rltb_false_iff in E0.
    destruct (Rltb 1 x) eqn:E1; [right; exists 1; split; [reflexivity | lra] |].
    apply Rltb_false_iff in E1. right; exists x; split; [reflexivity | lra].
  - right; exists 0; split; [reflexivity | lra].
  - right; exists 1; split; [reflexivity | lra].
  - left; reflexivity.
Qed.

(** X19. Channel 3 of the feature tensor is, at every pillar and point slot,
    either NaN (an input intensity that is NaN) or a number between 0 and 1. *)
Theorem intensity_channel_in_unit_interval :
  forall (iteration_order : forall P : Type, PillarMap P -> PillarMap P)
         points maxPointsPerPillar maxPillars
         xStep yStep xMin xMax yMin yMax zMin zMax printTime minDistance
         tensor indices,
  (forall P (m : PillarMap P), Permutation (iteration_order P m) m) ->
  createPillars iteration_order points maxPointsPerPillar maxPillars
    xStep yStep xMin xMax yMin yMax zMin zMax printTime minDistance
    = Returns (tensor, indices) ->
  forall s j,
    data tensor [0; s; j; 3]%Z = NaN \/
    exists r, data tensor [0; s; j; 3]%Z = Fin r /\ 0 <= r <= 1.
Proof.
  intros until indices. intros Horder H s j.
  destruct (createPillars_pillars _ _ _ _ _ _ _ _ _ _ _ _ _ _ Horder H)
    as (nrows & ncols & cells & Hsh & _ & HmaxP & HmaxPPP & Hw).
  destruct Hw as (_ & _ & Hslots & Hzt & _).
  assert (Hzero : forall v, v = Fin 0 ->
            v = NaN \/ exists r, v = Fin r /\ 0 <= r <= 1).
  { intros v ->. right. exists 0. split; [reflexivity | lra]. }
  set (emitted := firstn (Z.to_nat maxPillars) cells) in *.
  destruct (Z_lt_ge_dec s 0) as [Hs | Hs];
    [apply Hzero, Hzt; left; exact Hs |].
  destruct (nth_error emitted (Z.to_nat s)) as [k |] eqn:Ek.
  - destruct (Hslots _ k Ek) as (xI & yI & _ & _ & _ & _ & Hrows & Hz).
    rewrite Z2Nat.id in Hrows, Hz by lia.
    destruct (Z_lt_ge_dec j 0) as [Hj | Hj];
      [apply Hzero, Hz; right; right; exact Hj |].
    set (rows := rows_of_cell ncols points xStep yStep xMin xMax yMin yMax
                              zMin zMax minDistance nrows k) in *.
    destruct (nth_error rows (Z.to_nat j)) as [i |] eqn:Ei.
    + destruct (Z_lt_ge_dec j maxPointsPerPillar) as [Hlt | Hge];
        [| apply Hzero, Hz; right; left; lia].
      destruct (Hrows _ i Ei ltac:(lia)) as (_ & _ & _ & H3 & _).
      rewrite Z2Nat.id in H3 by lia. rewrite H3.
      apply clamp_unit_interval.
    + apply nth_error_None in Ei. apply Hzero, Hz. left. lia.
  - apply nth_error_None in Ek. apply Hzero, Hzt. right. lia.
Qed.

(** X19, on the call with three points. *)
Lemma intensity_channel_in_unit_interval_example :
  exists tensor indices,
    exP4_call = Returns (tensor, indices) /\
    forall s j,
      data tensor [0; s; j; 3]%Z = NaN \/
      exists r, data tensor [0; s; j; 3]%Z = Fin r /\ 0 <= r <= 1.
Proof.
  destruct exP4_returns as (tensor & indices & H).
  exists tensor, indices. split; [exact H |].
  unfold exP4_call in H.
  exact (@intensity_channel_in_unit_interval (fun _ m => m) _ _ _ _ _ _ _ _ _
           _ _ _ _ tensor indices (fun _ m => Permutation_refl m) H).
Defined.

(** X21. Every point slot of the feature tensor is either zero in all its
    channels or holds, in channels 0, 1 and 2, the x, y and z of an input row
    that the range and distance tests did not reject. *)
Theorem written_points_pass_the_filter :
  forall (iteration_order : forall P : Type, PillarMap P -> PillarMap P)
         points maxPointsPerPillar maxPillars
         xStep yStep xMin xMax yMin yMax zMin zMax printTime minDistance
         tensor indices,
  (forall P (m : PillarMap P), Permutation (iteration_order P m) m) ->
  createPillars iteration_order points maxPointsPerPillar maxPillars
    xStep yStep xMin xMax yMin yMax zMin zMax printTime minDistance
    = Returns (tensor, indices) ->
  exists nrows ncols,
    shape points = [nrows; ncols] /\
    forall s j,
      (forall c, data tensor [0; s; j; c]%Z = Fin 0) \/
      exists i,
        (0 <= i < nrows)%Z /\
        row_skipped ncols points xMin xMax yMin yMax zMin zMax minDistance i
          = false /\
        data tensor [0; s; j; 0]%Z = data points [i; 0%Z] /\
        data tensor [0; s; j; 1]%Z = data points [i; 1%Z] /\
        data tensor [0; s; j; 2]%Z = data points [i; 2%Z].
Proof.
  intros until indices. intros Horder H.
  destruct (createPillars_pillars _ _ _ _ _ _ _ _ _ _ _ _ _ _ Horder H)
    as (nrows & ncols & cells & Hsh & _ & HmaxP & HmaxPPP & Hw).
  exists nrows, ncols. split; [exact Hsh |]. intros s j.
  destruct Hw as (_ & _ & Hslots & Hzt & _).
  set (emitted := firstn (Z.to_nat maxPillars) cells) in *.
  destruct (Z_lt_ge_dec s 0) as [Hs | Hs];
    [left; intros c; apply Hzt; left; exact Hs |].
  destruct (nth_error emitted (Z.to_nat s)) as [k |] eqn:Ek.
  - destruct (Hslots _ k Ek) as (xI & yI & _ & _ & _ & _ & Hrows & Hz).
    rewrite Z2Nat.id in Hrows, Hz by lia.
    destruct (Z_lt_ge_dec j 0) as [Hj | Hj];
      [left; intros c; apply Hz; right; right; exact Hj |].
    set (rows := rows_of_cell ncols points xStep yStep xMin xMax yMin yMax
                              zMin zMax minDistance nrows k) in *.
    destruct (nth_error rows (Z.to_nat j)) as [i |] eqn:Ei.
    + destruct (Z_lt_ge_dec j maxPointsPerPillar) as [Hlt | Hge];
        [| left; intros c; apply Hz; right; left; lia].
      destruct (Hrows _ i Ei ltac:(lia)) as (H0 & H1 & H2 & _).
      rewrite Z2Nat.id in H0, H1, H2 by lia.
      right. exists i.
      apply nth_error_In in Ei. unfold rows, rows_of_cell in Ei.
      apply filter_In in Ei. destruct Ei as [Hin Hc].
      apply In_range in Hin. unfold row_in_cell in Hc.
      apply andb_true_iff in Hc. destruct Hc as [Hc _].
      apply negb_true_iff in Hc.
      split; [exact Hin |]. split; [exact Hc |].
      split; [exact H0 |]. split; [exact H1 | exact H2].
    + apply nth_error_None in Ei. left. intros c. apply Hz. left. lia.
  - apply nth_error_None in Ek. left. intros c. apply Hzt. right. lia.
Qed.

(** X21, on the call with three points. *)
Lemma written_points_pass_the_filter_example :
  exists tensor indices,
    exP4_call = Returns (tensor, indices) /\
    exists nrows ncols,
      shape exP4_points = [nrows; ncols] /\
      forall s j,
        (forall c, data tensor [0; s; j; c]%Z = Fin 0) \/
        exists i,
          (0 <= i < nrows)%Z /\
          row_skipped ncols exP4_points (Fin 0) (Fin 2) (Fin 0) (Fin 1)
                      (Fin (-1)) (Fin 1) (Fin 0) i = false /\
          data tensor [0; s; j; 0]%Z = data exP4_points [i; 0%Z] /\
          data tensor [0; s; j; 1]%Z = data exP4_points [i; 1%Z] /\
          data tensor [0; s; j; 2]%Z = data exP4_points [i; 2%Z].
Proof.
  destruct exP4_returns as (tensor & indices & H).
  exists tensor, indices. split; [exact H |].
  unfold exP4_call in H.
  exact (@written_points_pass_the_filter (fun _ m => m) _ _ _ _ _ _ _ _ _
           _ _ _ _ tensor indices (fun _ m => Permutation_refl m) H).
Defined.

(** ** Calls of [createPillars] that return *)

Section EmissionReturns.
Context {P : Type} {PL : PillarPointLike P}.
Variables (maxPointsPerPillar maxPillars nbChannels : Z).
Variables (xStep yStep xMin yMin : float).

(** A feature row fits the last dimension of the tensor. *)
Hypothesis features_fit : forall xIndex yIndex (p : P),
  (Z.of_nat (List.length (features xStep yStep xMin yMin xIndex yIndex p))
   <= nbChannels)%Z.

Lemma emit_points_total (pts : list P) :
  forall pillarId pointId xIndex yIndex t,
  shape t = [1; maxPillars; maxPointsPerPillar; nbChannels]%Z ->
  (0 <= pillarId < maxPillars)%Z -> (0 <= pointId)%Z ->
  exists t',
    emit_points maxPointsPerPillar xStep yStep xMin yMin pts pillarId pointId
                xIndex yIndex t = Returns t' /\
    shape t' = [1; maxPillars; maxPointsPerPillar; nbChannels]%Z.
Proof.
  induction pts as [| p rest IH]; intros pillarId pointId xIndex yIndex t
    Hs Hp Hq; cbn [emit_points].
  - exists t. split; [reflexivity | exact Hs].
  - destruct (pointId >=? maxPointsPerPillar)%Z eqn:E.
    + exists t. split; [reflexivity | exact Hs].
    + assert (Hlt : (pointId < maxPointsPerPillar)%Z) by lia.
      destruct (@write_channels_total _
                  (features xStep yStep xMin yMin xIndex yIndex p) t
                  [0%Z; pillarId; pointId] 0%Z) as (t1 & E1 & S1).
      { intros k Hk. rewrite Hs. cbn [app].
        pose proof (features_fit xIndex yIndex p).
        apply in_bounds4; lia. }
      rewrite E1. cbn [bind]. apply IH; [congruence | exact Hp | lia].
Qed.

(** The emission loop returns when the two conversions to [int] of every
    entry are defined. *)
Lemma emit_pillars_total (entries : PillarMap P) :
  (forall e, In e entries ->
     static_cast_int (cell_index (mean_field p_x (snd e)) xMin xStep)
       <> None /\
     static_cast_int (cell_index (mean_field p_y (snd e)) yMin yStep)
       <> None) ->
  forall pillarId t ind,
  shape t = [1; maxPillars; maxPointsPerPillar; nbChannels]%Z ->
  shape ind = [1; maxPillars; 3]%Z ->
  (0 <= pillarId)%Z ->
  exists t' ind',
    emit_pillars maxPointsPerPillar maxPillars xStep yStep xMin yMin
                 entries pillarId t ind = Returns (t', ind').
Proof.
  induction entries as [| e rest IH]; intros He pillarId t ind Hs Hi Hp;
    cbn [emit_pillars].
  - exists t, ind. reflexivity.
  - destruct (pillarId >=? maxPillars)%Z eqn:E.
    + exists t, ind. reflexivity.
    + assert (Hlt : (pillarId < maxPillars)%Z) by lia.
      destruct (He e (or_introl eq_refl)) as (Hkx & Hky).
      destruct (static_cast_int (cell_index (mean_field p_x (snd e)) xMin xStep))
        as [xIndex |]; [| congruence].
      destruct (static_cast_int (cell_index (mean_field p_y (snd e)) yMin yStep))
        as [yIndex |]; [| congruence].
      cbn [cast bind].
      destruct (@mutable_at_total _ ind [0%Z; pillarId; 1%Z] xIndex)
        as (ind1 & E1 & S1).
      { rewrite Hi. apply in_bounds3; lia. }
      rewrite E1. cbn [bind].
      destruct (@mutable_at_total _ ind1 [0%Z; pillarId; 2%Z] yIndex)
        as (ind2 & E2 & S2).
      { rewrite S1, Hi. apply in_bounds3; lia. }
      rewrite E2. cbn [bind].
      destruct (@emit_points_total (center_points (snd e)) pillarId 0%Z
                  xIndex yIndex t Hs ltac:(lia) ltac:(lia))
        as (t1 & E3 & S3).
      rewrite E3. cbn [bind].
      apply IH; [| exact S3 | congruence | lia].
      intros e' He'. apply He. right; exact He'.
Qed.
End EmissionReturns.

Section PillarsReturn.
Context {P : Type} {PL : PillarPointLike P}.
Variables (ncols : Z) (points : NdArray float).
Variables (maxPointsPerPillar maxPillars nbChannels : Z).
Variables (xStep yStep xMin xMax yMin yMax zMin zMax minDistance : float).
Variable (nrows : Z).
Variable row_point : Z -> P.
Variable bin : PillarMap P -> Z -> Outcome (PillarMap P).
Variable iteration_order : PillarMap P -> PillarMap P.

Let skipped := row_skipped ncols points xMin xMax yMin yMax zMin zMax
                           minDistance.
Let key := row_key points xStep yStep xMin yMin.
Let rows_of := rows_of_cell ncols points xStep yStep xMin xMax yMin yMax
                            zMin zMax minDistance nrows.

Hypothesis bin_row : forall m i, (0 <= i < nrows)%Z ->
  bin m i = if skipped i then Returns m
            else match key i with
                 | Some k => Returns (emplace_back k (row_point i) m)
                 | None => Undefined FloatToIntOutOfRange
                 end.
Hypothesis bin_spec : forall m i m',
  bin m i = Returns m' ->
  if skipped i then m' = m
  else exists k, key i = Some k /\ m' = emplace_back k (row_point i) m.
Hypothesis point_x : forall i, p_x (row_point i) = data points [i; 0%Z].
Hypothesis point_y : forall i, p_y (row_point i) = data points [i; 1%Z].
Hypothesis features_fit : forall xIndex yIndex (p : P),
  (Z.of_nat (List.length (features xStep yStep xMin yMin xIndex yIndex p))
   <= nbChannels)%Z.
Hypothesis order_perm : forall m, Permutation (iteration_order m) m.

(** The conversions to [uint32_t] of the binning loop and to [int] of the
    emission loop are defined. *)
Hypothesis keys_defined : forall i, (0 <= i < nrows)%Z -> skipped i = false ->
  key i <> None.
Hypothesis means_defined : forall k, rows_of k <> [] ->
  static_cast_int (cell_index (column_mean points 0 (rows_of k)) xMin xStep)
    <> None /\
  static_cast_int (cell_index (column_mean points 1 (rows_of k)) yMin yStep)
    <> None.

Lemma pillars_return t0 ind0 :
  shape t0 = [1; maxPillars; maxPointsPerPillar; nbChannels]%Z ->
  shape ind0 = [1; maxPillars; 3]%Z ->
  exists m tensor indices,
    foldM bin (range 0 nrows) [] = Returns m /\
    emit_pillars maxPointsPerPillar maxPillars xStep yStep xMin yMin
                 (iteration_order m) 0%Z t0 ind0 = Returns (tensor, indices).
Proof.
  intros Ht0 Hi0.
  assert (Hfold : exists m, foldM bin (range 0 nrows) [] = Returns m /\ True).
  { apply foldM_total; [| exact I].
    intros s i Hi _. apply In_range in Hi. rewrite bin_row by lia.
    destruct (skipped i) eqn:Es; [exists s; split; [reflexivity | exact I] |].
    pose proof (@keys_defined i ltac:(lia) Es) as Hk.
    destruct (key i) as [k |]; [| congruence].
    eexists. split; [reflexivity | exact I]. }
  destruct Hfold as (m & Em & _).
  exists m.
  destruct (@binned_entries _ ncols points xStep yStep xMin xMax yMin yMax
              zMin zMax minDistance nrows row_point bin bin_spec m
              (iteration_order m) Em (order_perm m)) as (_ & Hocc & Hin).
  destruct (@emit_pillars_total _ _ maxPointsPerPillar maxPillars nbChannels
              xStep yStep xMin yMin features_fit (iteration_order m))
    with (pillarId := 0%Z) (t := t0) (ind := ind0) as (tensor & indices & E);
    [| exact Ht0 | exact Hi0 | lia |].
  - intros e He. destruct (Hin e He) as [Hse Hne].
    rewrite Hse.
    rewrite (mean_field_rows points row_point p_x 0 _ point_x).
    rewrite (mean_field_rows points row_point p_y 1 _ point_y).
    apply means_defined. apply Hocc. apply in_map. exact He.
  - exists tensor, indices. split; [exact Em | exact E].
Qed.
End PillarsReturn.

Lemma features_fit4 (xStep yStep xMin yMin : float) (xIndex yIndex : Z)
    (p : PillarPoint) :
  (Z.of_nat (List.length (features xStep yStep xMin yMin xIndex yIndex p))
   <= 9)%Z.
Proof. cbn. lia. Qed.

Lemma features_fit7 (xStep yStep xMin yMin : float) (xIndex yIndex : Z)
    (p : PillarPointRGB) :
  (Z.of_nat (List.length (features xStep yStep xMin yMin xIndex yIndex p))
   <= 12)%Z.
Proof. cbn. lia. Qed.

(** X22. [createPillars] returns (no exception, no undefined behaviour) when
    the input has shape (n, 4) or (n, 7) with n within [int], the
    capacities are not negative and small enough for the bounds
    [1 * maxPillars * maxPointsPerPillar * 9] (or [* 12]) and
    [1 * maxPillars * 3] of the zeroing loops to fit an [int], the
    conversion of the cell indices to [uint32_t] is defined for every row
    that passes the tests, and the conversion to [int] of the cell indices
    of the means of x and of y is defined for every occupied cell. *)
Theorem createPillars_returns
    (iteration_order : forall P : Type, PillarMap P -> PillarMap P)
    points maxPointsPerPillar maxPillars
    xStep yStep xMin xMax yMin yMax zMin zMax printTime minDistance
    nrows ncols :
  (forall P (m : PillarMap P), Permutation (iteration_order P m) m) ->
  shape points = [nrows; ncols] -> (ncols = 4 \/ ncols = 7)%Z ->
  (nrows <= INT_MAX)%Z ->
  (0 <= maxPillars)%Z -> (0 <= maxPointsPerPillar)%Z ->
  (maxPillars * maxPointsPerPillar * nb_channels ncols <= INT_MAX)%Z ->
  (maxPillars * 3 <= INT_MAX)%Z ->
  (forall i, (0 <= i < nrows)%Z ->
     row_skipped ncols points xMin xMax yMin yMax zMin zMax minDistance i
       = false ->
     row_key points xStep yStep xMin yMin i <> None) ->
  (forall k,
     let rows := rows_of_cell ncols points xStep yStep xMin xMax yMin yMax
                              zMin zMax minDistance nrows k in
     rows <> [] ->
     static_cast_int (cell_index (column_mean points 0 rows) xMin xStep)
       <> None /\
     static_cast_int (cell_index (column_mean points 1 rows) yMin yStep)
       <> None) ->
  exists tensor indices,
    createPillars iteration_order points maxPointsPerPillar maxPillars
      xStep yStep xMin xMax yMin yMax zMin zMax printTime minDistance
    = Returns (tensor, indices).
Proof.
  intros Horder Hs Hc Hrows HmP HmPP Hfit Hfit3 Hkeys Hmeans.
  assert (Hnb : (1 <= nb_channels ncols)%Z)
    by (unfold nb_channels; destruct (ncols =? 4)%Z; lia).
  destruct (createPillars_buffers HmP HmPP Hnb Hfit Hfit3) as [Hrt Hri].
  unfold nb_channels in Hrt.
  unfold createPillars, shape_at, ndim. rewrite Hs.
  cbn [nth_error bind List.length].
  destruct Hc as [-> | ->];
    cbn [Z.eqb Pos.eqb Z.of_nat Pos.of_succ_nat Pos.succ negb orb bind];
    cbn [Z.eqb Pos.eqb] in Hrt.
  - destruct (@pillars_return _ PillarPoint_like 4 points maxPointsPerPillar
                maxPillars 9 xStep yStep xMin xMax yMin yMax zMin zMax
                minDistance nrows (row_point4 points)
                (bin_point4 points xStep yStep xMin xMax yMin yMax zMin zMax
                            minDistance)
                (iteration_order PillarPoint)
                (fun m i Hi => @bin_point4_row points xStep yStep xMin xMax yMin yMax
                                  zMin zMax minDistance nrows m i Hs Hi)
                (fun m0 i0 m' Hb => bin_point4_spec _ _ _ _ _ _ _ _ _ _ _ _ Hb)
                (fun _ => eq_refl) (fun _ => eq_refl)
                (@features_fit4 xStep yStep xMin yMin)
                (Horder _) Hkeys Hmeans
                (mkArray [1; maxPillars; maxPointsPerPillar; 9]%Z
                         (fun _ => Fin 0))
                (mkArray [1; maxPillars; 3]%Z (fun _ => 0%Z))
                eq_refl eq_refl) as (m & tensor & indices & Em & Ee).
    rewrite Em. cbn [bind]. rewrite Hrt, Hri. cbn [bind].
    exists tensor, indices. exact Ee.
  - destruct (@pillars_return _ PillarPointRGB_like 7 points maxPointsPerPillar
                maxPillars 12 xStep yStep xMin xMax yMin yMax zMin zMax
                minDistance nrows (row_point7 points)
                (bin_point7 points xStep yStep xMin xMax yMin yMax zMin zMax
                            minDistance)
                (iteration_order PillarPointRGB)
                (fun m i Hi => @bin_point7_row points xStep yStep xMin xMax yMin yMax
                                  zMin zMax minDistance nrows m i Hs Hi)
                (fun m0 i0 m' Hb => bin_point7_spec _ _ _ _ _ _ _ _ _ _ _ _ Hb)
                (fun _ => eq_refl) (fun _ => eq_refl)
                (@features_fit7 xStep yStep xMin yMin)
                (Horder _) Hkeys Hmeans
                (mkArray [1; maxPillars; maxPointsPerPillar; 12]%Z
                         (fun _ => Fin 0))
                (mkArray [1; maxPillars; 3]%Z (fun _ => 0%Z))
                eq_refl eq_refl) as (m & tensor & indices & Em & Ee).
    rewrite Em. cbn [bind]. rewrite Hrt, Hri. cbn [bind].
    exists tensor, indices. exact Ee.
Qed.

(** The keys of the three points, and the rows of the two occupied cells. *)
Lemma exP4_keys :
  row_key exP4_points (Fin 1) (Fin 1) (Fin 0) (Fin 0) 0 = Some (0, 0)%Z /\
  row_key exP4_points (Fin 1) (Fin 1) (Fin 0) (Fin 0) 1 = Some (1, 0)%Z /\
  row_key exP4_points (Fin 1) (Fin 1) (Fin 0) (Fin 0) 2 = Some (0, 0)%Z.
Proof.
  repeat split;
    unfold row_key, cell_index, exP4_points;
    cbv [data array2 nth Z.to_nat Pos.to_nat Pos.iter_op Nat.add];
    feval; reflexivity.
Qed.

Lemma exP4_not_skipped i :
  (0 <= i < 3)%Z ->
  row_skipped 4 exP4_points (Fin 0) (Fin 2) (Fin 0) (Fin 1) (Fin (-1)) (Fin 1)
              (Fin 0) i = false.
Proof.
  intros Hi.
  assert (Hc : i = 0%Z \/ i = 1%Z \/ i = 2%Z) by lia.
  destruct Hc as [-> | [-> | ->]];
    unfold row_skipped, rejected4, out_of_range, exP4_points;
    cbv [data array2 nth Z.to_nat Pos.to_nat Pos.iter_op Nat.add Z.eqb Pos.eqb];
    feval; reflexivity.
Qed.

Lemma exP4_rows (k : Key) :
  let rows := rows_of_cell 4 exP4_points (Fin 1) (Fin 1) (Fin 0) (Fin 2)
                (Fin 0) (Fin 1) (Fin (-1)) (Fin 1) (Fin 0) 3 k in
  rows <> [] ->
  (k = (0, 0)%Z /\ rows = [0; 2]%Z) \/ (k = (1, 0)%Z /\ rows = [1]%Z).
Proof.
  destruct exP4_keys as (K0 & K1 & K2).
  assert (Hrows : forall k',
            rows_of_cell 4 exP4_points (Fin 1) (Fin 1) (Fin 0) (Fin 2)
              (Fin 0) (Fin 1) (Fin (-1)) (Fin 1) (Fin 0) 3 k'
            = filter (fun i =>
                        match row_key exP4_points (Fin 1) (Fin 1) (Fin 0)
                                      (Fin 0) i with
                        | Some k'' => key_eqb k' k''
                        | None => false
                        end) [0; 1; 2]%Z).
  { intros k'. unfold rows_of_cell.
    change (range 0 3) with [0; 1; 2]%Z.
    apply filter_ext_in. intros i Hi. unfold row_in_cell.
    rewrite exP4_not_skipped by (cbn [In] in Hi; lia). reflexivity. }
  cbv zeta. rewrite Hrows. cbn [filter]. rewrite K0, K1, K2.
  destruct (key_eqb k (0, 0)%Z) eqn:E0.
  - apply key_eqb_eq in E0. subst k. intros _. left.
    split; reflexivity.
  - destruct (key_eqb k (1, 0)%Z) eqn:E1.
    + apply key_eqb_eq in E1. subst k. intros _. right.
      split; reflexivity.
    + intros H. congruence.
Qed.

(** X22, on the call with three points. *)
Lemma createPillars_returns_example :
  exists tensor indices, exP4_call = Returns (tensor, indices).
Proof.
  unfold exP4_call.
  apply (@createPillars_returns (fun _ m => m) exP4_points 1 3
           (Fin 1) (Fin 1) (Fin 0) (Fin 2) (Fin 0) (Fin 1) (Fin (-1)) (Fin 1)
           false (Fin 0) 3 4);
    [intros; apply Permutation_refl | reflexivity | left; reflexivity
    | unfold INT_MAX; lia | lia | lia | vm_compute; discriminate
    | vm_compute; discriminate | |].
  - intros i Hi _.
    destruct exP4_keys as (K0 & K1 & K2).
    assert (Hc : i = 0%Z \/ i = 1%Z \/ i = 2%Z) by lia.
    destruct Hc as [-> | [-> | ->]]; congruence.
  - intros k rows Hne.
    destruct (exP4_rows k Hne) as [[-> Hr] | [-> Hr]];
      unfold rows; rewrite Hr;
      unfold column_mean, cell_index, exP4_points;
      cbv [data array2 nth Z.to_nat Pos.to_nat Pos.iter_op Nat.add
           fold_left List.length Z.of_nat Pos.of_succ_nat Pos.succ];
      feval; split; discriminate.
Defined.

(** ** Calls of [createPillarsTarget] without anchors or objects *)

(** X23. Once the grid size is computed, [createPillarsTarget] raises the
    runtime error [Anchor length is zero] when the anchor array has no row,
    and otherwise [Object length is zero] when the object array has no row. *)
Theorem createPillarsTarget_empty_input
    objectPositions objectDimensions objectYaws objectClassIds
    anchorDimensions anchorZHeights anchorYaws
    positiveThreshold negativeThreshold angle_threshold
    nbClasses downscalingFactor
    xStep yStep xMin xMax yMin yMax zMin zMax printTime
    xSize ySize nbAnchors nbObjects :
  home_index xMax xMin xStep downscalingFactor = Some xSize ->
  home_index yMax yMin yStep downscalingFactor = Some ySize ->
  nth_error (shape anchorDimensions) 0 = Some nbAnchors ->
  nth_error (shape objectDimensions) 0 = Some nbObjects ->
  (nbAnchors <= 0 \/ nbObjects <= 0)%Z ->
  createPillarsTarget objectPositions objectDimensions objectYaws
    objectClassIds anchorDimensions anchorZHeights anchorYaws
    positiveThreshold negativeThreshold angle_threshold nbClasses
    downscalingFactor xStep yStep xMin xMax yMin yMax zMin zMax printTime
  = Raises (RuntimeError (if (nbAnchors <=? 0)%Z then "Anchor length is zero"
                          else "Object length is zero")).
Proof.
  unfold home_index. intros Hx Hy HA HO Hz.
  unfold createPillarsTarget, shape_at. rewrite Hx, Hy, HA, HO. cbn [cast bind].
  destruct (nbAnchors <=? 0)%Z eqn:EA; [reflexivity |].
  apply Z.leb_gt in EA.
  destruct (nbObjects <=? 0)%Z eqn:EO; [reflexivity |].
  apply Z.leb_gt in EO. lia.
Qed.

(** X23, on anchor arrays without any anchor. *)
Lemma createPillarsTarget_empty_input_example :
  createPillarsTarget ex1_positions ex1_dimensions ex1_yaws ex1_classIds
    ex_noAnchorDimensions ex_noAnchors ex_noAnchors
    (Fin (7/10)) (Fin (3/10)) (Fin (1/10)) 1 1
    (Fin 4) (Fin 4) (Fin 0) (Fin 8) (Fin (-2)) (Fin 2) (Fin (-1)) (Fin 1) false
  = Raises (RuntimeError "Anchor length is zero").
Proof.
  destruct ex1_setup as (HxS & HyS & _).
  apply (@createPillarsTarget_empty_input ex1_positions ex1_dimensions
           ex1_yaws ex1_classIds ex_noAnchorDimensions ex_noAnchors
           ex_noAnchors (Fin (7/10)) (Fin (3/10)) (Fin (1/10)) 1 1
           (Fin 4) (Fin 4) (Fin 0) (Fin 8) (Fin (-2)) (Fin 2) (Fin (-1))
           (Fin 1) false 2 1 0 1 HxS HyS eq_refl eq_refl).
  left. lia.
Defined.

(** ** The labels and the classes in the target tensor *)

Section TargetLabels.
Variables (positiveThreshold negativeThreshold angle_threshold : float).
Variables (downscalingFactor : Z).
Variables (xStep yStep xMin yMin : float).
Variables (xSize ySize : Z).
Variable (anchorDiagonals : list float).
Variable (objectCount : Z).
Variable (labelBox : BoundingBox3D).

(** A property of the tensor kept by the writes of the object numbered
    [objectCount]: the writes of 0 or -1 to channel 0, and the writes of a
    row of ten channels that starts with 1 and ends with the class of the
    object. *)
Variable Inv : NdArray float -> Prop.

Hypothesis Inv_mark : forall t t' x y a v,
  v = Fin 0 \/ v = Fin (-1) ->
  mutable_at t [objectCount; x; y; a; 0%Z] v = Returns t' -> Inv t -> Inv t'.
Hypothesis Inv_row : forall t t' x y a row,
  List.length row = 10%nat ->
  nth_error row 0 = Some (Fin 1) ->
  nth_error row 9 = Some (box_classId labelBox) ->
  write_channels t [objectCount; x; y; a] 0%Z row = Returns t' ->
  Inv t -> Inv t'.

Lemma match_anchor_labels xId yId x y st n ab st' :
  match_anchor positiveThreshold negativeThreshold angle_threshold
    anchorDiagonals labelBox objectCount xId yId x y st n ab = Returns st' ->
  Inv (s_tensor st) -> Inv (s_tensor st').
Proof.
  unfold match_anchor. intros H HI.
  inv_bind H. inversion H; subst; simpl. clear H.
  set (ab' := place ab x y _) in *.
  assert (HI1 : Inv (s_tensor
            (if fltb (maxIou st) (iou ab' labelBox)
             then mkSearch (s_tensor st) (iou ab' labelBox) ab' n else st))).
  { destruct (fltb (maxIou st) (iou ab' labelBox)); exact HI. }
  destruct (fgtb (iou ab' labelBox) positiveThreshold).
  - eapply Inv_row; [| | | exact Ha | exact HI1]; reflexivity.
  - destruct (fltb (iou ab' labelBox) negativeThreshold);
      (eapply Inv_mark; [| exact Ha | exact HI1]); [left | right]; reflexivity.
Qed.

Lemma match_anchors_labels xId yId x y abs :
  forall n st st',
  match_anchors positiveThreshold negativeThreshold angle_threshold
    anchorDiagonals labelBox objectCount xId yId x y abs n st = Returns st' ->
  Inv (s_tensor st) -> Inv (s_tensor st').
Proof.
  induction abs as [| ab abs IH]; intros n st st' H HI; simpl in H.
  - inversion H; subst; exact HI.
  - inv_bind H. eapply IH; [exact H |].
    eapply match_anchor_labels; eauto.
Qed.

Lemma search_labels abs xStart xEnd yStart yEnd t st :
  search positiveThreshold negativeThreshold angle_threshold
    downscalingFactor xStep yStep xMin yMin anchorDiagonals
    labelBox objectCount abs xStart xEnd yStart yEnd t = Returns st ->
  Inv t -> Inv (s_tensor st).
Proof.
  unfold search. intros H HI.
  eapply foldM_invariant with (I := fun s => Inv (s_tensor s)) (3 := H);
    [| exact HI].
  intros s xId s' Hs Hcol. unfold search_column in Hcol.
  eapply foldM_invariant with (I := fun s => Inv (s_tensor s)) (3 := Hcol);
    [| exact Hs].
  intros s1 yId s1' Hs1 Hm. eapply match_anchors_labels; eauto.
Qed.

Lemma fallback_labels best bestId xId_0 yId_0 t t' :
  fallback downscalingFactor xStep yStep xMin yMin xSize ySize
    labelBox best objectCount bestId xId_0 yId_0 t = Returns t' ->
  Inv t -> Inv t'.
Proof.
  unfold fallback. intros H HI.
  eapply foldM_invariant with (I := Inv) (3 := H); [| exact HI].
  intros s dx s' Hs Hdx.
  eapply foldM_invariant with (I := Inv) (3 := Hdx); [| exact Hs].
  intros s1 dy s1' Hs1 Hc. apply fallback_cell_Returns in Hc.
  destruct ((dx =? 0)%Z && (dy =? 0)%Z).
  - eapply Inv_row; [| | | exact Hc | exact Hs1]; reflexivity.
  - destruct ((0 <=? xId_0 + dx)%Z && (xId_0 + dx <? xSize)%Z &&
              (0 <=? yId_0 + dy)%Z && (yId_0 + dy <? ySize)%Z).
    + eapply Inv_mark; [| exact Hc | exact Hs1]. right; reflexivity.
    + inversion Hc; subst; exact Hs1.
Qed.

Lemma process_object_labels abs t t' n' :
  process_object positiveThreshold negativeThreshold angle_threshold
    downscalingFactor xStep yStep xMin yMin xSize ySize anchorDiagonals
    abs (t, objectCount) labelBox = Returns (t', n') ->
  Inv t -> Inv t'.
Proof.
  intros H HI. apply process_object_Returns in H.
  destruct H as (offset & xC & yC & found & _ & _ & _ & Hs & Hf).
  apply search_labels in Hs; [| exact HI].
  destruct (fltb (maxIou found) positiveThreshold).
  - eapply fallback_labels; eauto.
  - subst t'. exact Hs.
Qed.
End TargetLabels.

(** What the write of a row of ten channels leaves at channel [k] of any
    position. *)
Lemma write_row_channel (t t' : NdArray float) (oc x y a : Z)
    (row : list float) (o' x' y' a' : Z) (k : nat) :
  write_channels t [oc; x; y; a] 0%Z row = Returns t' ->
  List.length row = 10%nat -> (k < 10)%nat ->
  data t' [o'; x'; y'; a'; Z.of_nat k]
  = if index_eqb [o'; x'; y'; a'] [oc; x; y; a]
    then nth k row (Fin 0) else data t [o'; x'; y'; a'; Z.of_nat k].
Proof.
  intros Hw Hlen Hk.
  apply write_channels_Returns in Hw. destruct Hw as (_ & Hv & Hf).
  unfold index_eqb.
  destruct (list_eq_dec Z.eq_dec [o'; x'; y'; a'] [oc; x; y; a]) as [E | E].
  - inversion E; subst.
    destruct (Hv k ltac:(lia)) as [_ Hn]. simpl in Hn.
    apply nth_error_nth with (d := Fin 0) in Hn. symmetry. exact Hn.
  - apply Hf. intros j _ Heq. apply E. simpl in Heq.
    inversion Heq; reflexivity.
Qed.

Lemma ex3_setup :
  target_setup ex1_positions ex1_dimensions ex1_yaws ex1_classIds
    ex_anchorDimensions ex_anchorZHeights ex_anchorYaws 1
    (Fin 4) (Fin 4) (Fin 0) (Fin 16) (Fin (-2)) (Fin 2)
    4 1 1 1 [ex_anchor0] [Fin 5] [ex_label].
Proof.
  unfold target_setup, home_index, grid_index.
  unfold ex1_positions, ex1_dimensions, ex1_yaws, ex1_classIds,
    ex_anchorDimensions, ex_anchorZHeights, ex_anchorYaws.
  repeat run_step.
  unfold parse_anchor, parse_label, label_out_of_range.
  repeat run_step.
  repeat split; reflexivity.
Qed.

Lemma ex3_best :
  best_match (Fin (1/10)) 1 (Fin 4) (Fin 4) (Fin 0) (Fin (-2)) ex_label
    [ex_anchor0] (clip_int (0 - 2) 0 4) (clip_int (0 + 2) 0 4)
    (clip_int (0 - 2) 0 1) (clip_int (0 + 2) 0 1)
  = (Fin (3/5), ex_anchor (Fin 4) (Fin (-2)), 0%Z).
Proof. exact ex1_best. Qed.

Lemma ex3_search :
  exists t,
  search (Fin (1/2)) (Fin (3/10)) (Fin (1/10)) 1 (Fin 4) (Fin 4) (Fin 0) (Fin (-2))
         [Fin 5] ex_label 0 [ex_anchor0] 0 2 0 1 ex3_T0
  = Returns (mkSearch t (Fin (3/5)) (ex_anchor (Fin 4) (Fin (-2))) 0)
  /\ data t [0;1;0;0;0]%Z = Fin 1 /\ data t [0;0;0;0;0]%Z = Fin 0.
Proof.
  eexists. split.
  - unfold search, search_column. repeat run_step.
    unfold match_anchor, ex_anchor0. rewrite !ex_anchor_yaw.
    unfold cell_coord, place, ex_anchor0, ex_anchor.
    cbn [box_z box_length box_width box_height box_base_yaw box_classId].
    feval. norm_fins.
    fold (ex_anchor (Fin 0) (Fin (-2))). fold (ex_anchor (Fin 4) (Fin (-2))).
    rewrite iou_ex_0. unfold ex3_T0.
    repeat run_step.
    rewrite iou_ex_1.
    repeat run_step.
    reflexivity.
  - cbn [data]. repeat run_step. split; reflexivity.
Qed.

(** The call returns; the anchor at the second cell is a positive, the
    anchor at the first cell a negative. *)
Lemma ex3_returns :
  exists T, ex3_call = Returns T /\
    data T [0;1;0;0;0]%Z = Fin 1 /\ data T [0;0;0;0;0]%Z = Fin 0.
Proof.
  destruct ex3_search as (t & Hs & Hd).
  exists t. split; [| exact Hd].
  unfold ex3_call, createPillarsTarget, grid_index.
  unfold ex1_positions, ex1_dimensions, ex1_yaws, ex1_classIds,
    ex_anchorDimensions, ex_anchorZHeights, ex_anchorYaws.
  repeat run_step.
  unfold parse_anchor, parse_label, label_out_of_range.
  repeat run_step.
  unfold resize_zeros. repeat run_step.
  unfold process_object, grid_index. repeat run_step.
  fold ex_label. fold ex3_T0.
  change (mkBox (Fin 0) (Fin 0) (Fin 0) (Fin 4) (Fin 3) (Fin 1) (Fin 0) (Fin 0) (Fin 0))
    with ex_anchor0.
  rewrite Hs.
  repeat run_step.
  reflexivity.
Qed.

Lemma ex1_inside :
  filter (row_in_range ex1_positions (Fin 0) (Fin 16) (Fin (-2)) (Fin 2))
         (range 0 1) = [0%Z].
Proof.
  eval_Z. cbn [filter]. unfold row_in_range, label_out_of_range, ex1_positions.
  cbv [data array2 nth Z.to_nat Pos.to_nat Pos.iter_op Nat.add].
  feval. reflexivity.
Qed.

Lemma ex3_row_box :
  row_box ex1_positions ex1_dimensions ex1_yaws ex1_classIds 0 = ex_label.
Proof. reflexivity. Qed.

Lemma ex3_above_threshold : fltb (Fin (3/5)) (Fin (1/2)) = false.
Proof. feval. reflexivity. Qed.

(** X24. Channel 0 of the tensor [createPillarsTarget] returns holds only
    the values 0, 1 and -1. *)
Theorem channel0_is_a_label :
  forall objectPositions objectDimensions objectYaws objectClassIds
         anchorDimensions anchorZHeights anchorYaws
         positiveThreshold negativeThreshold angle_threshold
         nbClasses downscalingFactor
         xStep yStep xMin xMax yMin yMax zMin zMax printTime T,
  createPillarsTarget objectPositions objectDimensions objectYaws
    objectClassIds anchorDimensions anchorZHeights anchorYaws
    positiveThreshold negativeThreshold angle_threshold nbClasses
    downscalingFactor xStep yStep xMin xMax yMin yMax zMin zMax printTime
    = Returns T ->
  forall o x y a, is_label (data T [o; x; y; a; 0%Z]).
Proof.
  intros until T. intros H.
  apply createPillarsTarget_Returns in H.
  destruct H as (xSize & ySize & nbAnchors & nbObjects & anchorBoxes &
                 anchorDiagonals & labelBoxes & T0 & n &
                 _ & _ & _ & _ & _ & _ & _ & _ & HT0 & Hloop).
  apply resize_zeros_Returns in HT0. destruct HT0 as (_ & Hz & _).
  set (I := fun st : NdArray float * Z =>
              forall o x y a, is_label (data (fst st) [o; x; y; a; 0%Z])).
  change (I (T, n)).
  eapply foldM_invariant with (I := I) (3 := Hloop).
  - intros [t oc] lb [t' n'] Ht Hp. unfold I in *. cbn [fst] in *.
    apply (@process_object_labels positiveThreshold negativeThreshold
             angle_threshold downscalingFactor xStep yStep xMin yMin
             xSize ySize anchorDiagonals oc lb
             (fun s => forall o x y a, is_label (data s [o; x; y; a; 0%Z])))
      with (abs := anchorBoxes) (t := t) (n' := n');
      [| | exact Hp | exact Ht].
    + intros s s' x y a v Hv Hm Hs o' x' y' a'.
      apply mutable_at_Returns in Hm. destruct Hm as (_ & _ & Hd & Hf).
      destruct (list_eq_dec Z.eq_dec [o'; x'; y'; a'; 0%Z] [oc; x; y; a; 0%Z])
        as [E | E].
      * rewrite E, Hd. destruct Hv as [-> | ->]; [left | right; right];
          reflexivity.
      * rewrite Hf by exact E. apply Hs.
    + intros s s' x y a row Hlen H0 _ Hw Hs o' x' y' a'.
      pose proof (@write_row_channel _ _ _ _ _ _ _ o' x' y' a' 0 Hw Hlen
                    ltac:(lia)) as E0.
      change (Z.of_nat 0) with 0%Z in E0. rewrite E0.
      destruct (index_eqb [o'; x'; y'; a'] [oc; x; y; a]); [| apply Hs].
      rewrite (nth_error_nth _ _ _ H0). right; left; reflexivity.
  - intros o x y a. cbn [fst]. rewrite Hz. left; reflexivity.
Qed.

(** X24, on the third example. *)
Lemma channel0_is_a_label_example :
  exists T, ex3_call = Returns T /\
    forall o x y a, is_label (data T [o; x; y; a; 0%Z]).
Proof.
  destruct ex3_returns as (T & H & _).
  exists T. split; [exact H |].
  unfold ex3_call in H.
  exact (@channel0_is_a_label _ _ _ _ _ _ _ _ _ _ _ _ _ _ _ _ _ _ _ _ _ T H).
Defined.

(** X25. In the slice of the [k]-th object inside the bounds, every position
    whose channel 0 is 1 holds in channel 9 the class id of that object. *)
Theorem positives_carry_the_class_of_their_object :
  forall objectPositions objectDimensions objectYaws objectClassIds
         anchorDimensions anchorZHeights anchorYaws
         positiveThreshold negativeThreshold angle_threshold
         nbClasses downscalingFactor
         xStep yStep xMin xMax yMin yMax zMin zMax printTime T nbObjects,
  createPillarsTarget objectPositions objectDimensions objectYaws
    objectClassIds anchorDimensions anchorZHeights anchorYaws
    positiveThreshold negativeThreshold angle_threshold nbClasses
    downscalingFactor xStep yStep xMin xMax yMin yMax zMin zMax printTime
    = Returns T ->
  shape_at objectDimensions 0 = Returns nbObjects ->
  forall k i,
    nth_error (filter (row_in_range objectPositions xMin xMax yMin yMax)
                      (range 0 nbObjects)) k = Some i ->
    forall x y a,
      data T [Z.of_nat k; x; y; a; 0%Z] = Fin 1 ->
      data T [Z.of_nat k; x; y; a; 9%Z] = of_int (data objectClassIds [i]).
Proof.
  intros until nbObjects. intros H HnO' k i Hki x y a.
  apply target_object_slice in H.
  destruct H as (xSize & ySize & nbAnchors & nbObjects0 & anchorBoxes &
                 anchorDiagonals & labelBoxes & _ & _ & _ & HnO & _ &
                 HL & _ & _ & Hk).
  rewrite HnO' in HnO. inversion HnO; subst nbObjects0. clear HnO.
  apply parse_labels_boxes in HL. simpl in HL.
  set (lb := row_box objectPositions objectDimensions objectYaws
                     objectClassIds i).
  assert (Hlb : nth_error labelBoxes k = Some lb).
  { rewrite HL, nth_error_map, Hki. reflexivity. }
  destruct (Hk k lb Hlb)
    as (_ & offset & xC & yC & tk & found & tk' & _ & _ & _ & _ & Hz & Hs &
        Hf & HT).
  rewrite !HT by reflexivity.
  set (Inv := fun s : NdArray float =>
                forall x y a, data s [Z.of_nat k; x; y; a; 0%Z] = Fin 1 ->
                  data s [Z.of_nat k; x; y; a; 9%Z] = box_classId lb).
  assert (Hmark : forall t t' x y a v,
            v = Fin 0 \/ v = Fin (-1) ->
            mutable_at t [Z.of_nat k; x; y; a; 0%Z] v = Returns t' ->
            Inv t -> Inv t').
  { intros t t' x0 y0 a0 v Hv Hm Ht x1 y1 a1.
    apply mutable_at_Returns in Hm. destruct Hm as (_ & _ & Hd & Hfr).
    rewrite (Hfr [Z.of_nat k; x1; y1; a1; 9%Z]) by congruence.
    destruct (list_eq_dec Z.eq_dec [Z.of_nat k; x1; y1; a1; 0%Z]
                                   [Z.of_nat k; x0; y0; a0; 0%Z]) as [E | E].
    - rewrite E, Hd. intros E1. exfalso.
      destruct Hv as [-> | ->]; injection E1 as E1; lra.
    - rewrite Hfr by exact E. apply Ht. }
  assert (Hrow : forall t t' x y a row,
            List.length row = 10%nat ->
            nth_error row 0 = Some (Fin 1) ->
            nth_error row 9 = Some (box_classId lb) ->
            write_channels t [Z.of_nat k; x; y; a] 0%Z row = Returns t' ->
            Inv t -> Inv t').
  { intros t t' x0 y0 a0 row Hlen _ H9 Hw Ht x1 y1 a1.
    pose proof (@write_row_channel _ _ _ _ _ _ _ (Z.of_nat k) x1 y1 a1 0
                  Hw Hlen ltac:(lia)) as E0.
    pose proof (@write_row_channel _ _ _ _ _ _ _ (Z.of_nat k) x1 y1 a1 9
                  Hw Hlen ltac:(lia)) as E9.
    change (Z.of_nat 0) with 0%Z in E0. change (Z.of_nat 9) with 9%Z in E9.
    rewrite E0, E9.
    destruct (index_eqb _ _); [| apply Ht].
    intros _. apply nth_error_nth. exact H9. }
  assert (Hfound : Inv (s_tensor found)).
  { eapply search_labels with (Inv := Inv); [exact Hmark | exact Hrow | exact Hs |].
    intros x1 y1 a1. rewrite Hz by reflexivity.
    intros E1. injection E1 as E1. lra. }
  assert (Hfinal : Inv tk').
  { destruct (fltb (maxIou found) positiveThreshold).
    - eapply fallback_labels with (Inv := Inv);
        [exact Hmark | exact Hrow | exact Hf | exact Hfound].
    - subst tk'. exact Hfound. }
  apply Hfinal.
Qed.

(** X25, on the positive of the third example. *)
Lemma positives_carry_the_class_of_their_object_example :
  exists T, ex3_call = Returns T /\
    data T [0; 1; 0; 0; 0]%Z = Fin 1 /\
    data T [0; 1; 0; 0; 9]%Z = of_int (data ex1_classIds [0%Z]).
Proof.
  destruct ex3_returns as (T & H & H1 & _).
  exists T. split; [exact H |]. split; [exact H1 |].
  unfold ex3_call in H.
  apply (@positives_carry_the_class_of_their_object _ _ _ _ _ _ _ _ _ _ _ _
           _ _ _ _ _ _ _ _ _ T 1%Z H eq_refl 0%nat 0%Z);
    [rewrite ex1_inside; reflexivity | exact H1].
Defined.

(** ** The labels of the search window *)

Section SearchLabels.
Variables (positiveThreshold negativeThreshold angle_threshold : float).
Variables (downscalingFactor : Z).
Variables (xStep yStep xMin yMin : float).
Variable (anchorDiagonals : list float).
Variables (labelBox : BoundingBox3D) (objectCount : Z).

(** The label of the anchor numbered [n] at the cell [(xId, yId)]. *)
Let labelled (t : NdArray float) (xId yId : Z) (n : nat) (ab : BoundingBox3D)
  : Prop :=
  anchor_labelled positiveThreshold negativeThreshold labelBox
    (place ab (cell_coord xId xStep downscalingFactor xMin)
              (cell_coord yId yStep downscalingFactor yMin)
              (anchor_yaw angle_threshold labelBox ab))
    (nth n anchorDiagonals (Fin 0))
    t [objectCount; xId; yId; Z.of_nat n].

Lemma match_anchor_writes xId yId st (n : nat) ab st' :
  match_anchor positiveThreshold negativeThreshold angle_threshold
    anchorDiagonals labelBox objectCount xId yId
    (cell_coord xId xStep downscalingFactor xMin)
    (cell_coord yId yStep downscalingFactor yMin) st (Z.of_nat n) ab
    = Returns st' ->
  labelled (s_tensor st') xId yId n ab /\
  forall idx, (forall c, idx <> [objectCount; xId; yId; Z.of_nat n; c]) ->
    data (s_tensor st') idx = data (s_tensor st) idx.
Proof.
  unfold match_anchor, labelled, anchor_labelled. intros H.
  inv_bind H. inversion H; subst; cbn [s_tensor]. clear H.
  set (ab' := place ab _ _ _) in *.
  assert (Es : s_tensor (if fltb (maxIou st) (iou ab' labelBox)
                         then mkSearch (s_tensor st) (iou ab' labelBox) ab'
                                       (Z.of_nat n)
                         else st) = s_tensor st)
    by (destruct (fltb (maxIou st) (iou ab' labelBox)); reflexivity).
  rewrite Es in Ha. clear Es. rewrite Nat2Z.id in Ha.
  destruct (fgtb (iou ab' labelBox) positiveThreshold).
  - apply write_channels_Returns in Ha. destruct Ha as (_ & Hv & Hf).
    split.
    + intros c Hc. destruct (Hv c Hc) as [_ Hn]. exact Hn.
    + intros idx Hidx. apply Hf. intros k _. apply Hidx.
  - assert (Hm : forall v,
              mutable_at (s_tensor st)
                [objectCount; xId; yId; Z.of_nat n; 0%Z] v = Returns a ->
              data a ([objectCount; xId; yId; Z.of_nat n] ++ [0%Z]) = v /\
              forall idx,
                (forall c, idx <> [objectCount; xId; yId; Z.of_nat n; c]) ->
                data a idx = data (s_tensor st) idx).
    { intros v Hm. apply mutable_at_Returns in Hm.
      destruct Hm as (_ & _ & Hd & Hf). split; [exact Hd |].
      intros idx Hidx. apply Hf. apply Hidx. }
    destruct (fltb (iou ab' labelBox) negativeThreshold); apply Hm; exact Ha.
Qed.

Lemma labelled_frame (t t' : NdArray float) xId yId n ab :
  (forall c, data t' [objectCount; xId; yId; Z.of_nat n; c]
             = data t [objectCount; xId; yId; Z.of_nat n; c]) ->
  labelled t xId yId n ab -> labelled t' xId yId n ab.
Proof.
  unfold labelled, anchor_labelled. intros E. cbn [app].
  destruct (fgtb _ positiveThreshold).
  - intros H c Hc. rewrite E. apply H. exact Hc.
  - rewrite E. auto.
Qed.

Lemma match_anchors_writes xId yId abs :
  forall (n : nat) st st',
  match_anchors positiveThreshold negativeThreshold angle_threshold
    anchorDiagonals labelBox objectCount xId yId
    (cell_coord xId xStep downscalingFactor xMin)
    (cell_coord yId yStep downscalingFactor yMin) abs (Z.of_nat n) st
    = Returns st' ->
  (forall j ab, nth_error abs j = Some ab ->
     labelled (s_tensor st') xId yId (n + j) ab) /\
  (forall idx, (forall a c, idx <> [objectCount; xId; yId; a; c]) ->
     data (s_tensor st') idx = data (s_tensor st) idx) /\
  (forall a c, (a < Z.of_nat n)%Z ->
     data (s_tensor st') [objectCount; xId; yId; a; c]
     = data (s_tensor st) [objectCount; xId; yId; a; c]).
Proof.
  induction abs as [| ab abs IH]; intros n st st' H; cbn [match_anchors] in H.
  - inversion H; subst. split; [intros [| j] ab' Hj; discriminate |].
    split; reflexivity.
  - inv_bind H. rename a into st1.
    apply match_anchor_writes in Ha. destruct Ha as [Hl Hf].
    replace (Z.of_nat n + 1)%Z with (Z.of_nat (S n)) in H by lia.
    apply IH in H. destruct H as (Hls & Hfs & Hlow).
    split; [| split].
    + intros [| j] ab' Hj; cbn [nth_error] in Hj.
      * inversion Hj; subst ab'. rewrite Nat.add_0_r.
        eapply labelled_frame; [| exact Hl].
        intros c. apply Hlow. lia.
      * replace (n + S j)%nat with (S n + j)%nat by lia. apply Hls. exact Hj.
    + intros idx Hidx. rewrite Hfs by exact Hidx. apply Hf.
      intros c. apply Hidx.
    + intros a c Ha. rewrite Hlow by lia. apply Hf.
      intros c' E. inversion E. lia.
Qed.

Lemma search_writes abs xStart xEnd yStart yEnd t found :
  search positiveThreshold negativeThreshold angle_threshold
    downscalingFactor xStep yStep xMin yMin anchorDiagonals
    labelBox objectCount abs xStart xEnd yStart yEnd t = Returns found ->
  (forall xId yId j ab,
     (xStart <= xId < xEnd)%Z -> (yStart <= yId < yEnd)%Z ->
     nth_error abs j = Some ab ->
     labelled (s_tensor found) xId yId j ab) /\
  (forall o x y a c,
     ~ (o = objectCount /\ (xStart <= x < xEnd)%Z /\ (yStart <= y < yEnd)%Z) ->
     data (s_tensor found) [o; x; y; a; c] = data t [o; x; y; a; c]).
Proof.
  unfold search. intros H.
  pose proof (@foldM_writes _ _ s_tensor
                (search_column positiveThreshold negativeThreshold
                   angle_threshold downscalingFactor xStep yStep xMin yMin
                   anchorDiagonals labelBox objectCount abs yStart yEnd)
                (fun xId idx => exists y a c,
                   (yStart <= y < yEnd)%Z /\
                   idx = [objectCount; xId; y; a; c])
                (fun xId t' => forall yId j ab,
                   (yStart <= yId < yEnd)%Z -> nth_error abs j = Some ab ->
                   labelled t' xId yId j ab)
                (range xStart xEnd) (NoDup_range _ _)) as Hx.
  destruct (Hx) with (3 := H) as [HQ Hfr]; clear Hx.
  - intros s xId s' _ Hcol. unfold search_column in Hcol.
    pose proof (@foldM_writes _ _ s_tensor
                  (fun st' yId =>
                     match_anchors positiveThreshold negativeThreshold
                       angle_threshold anchorDiagonals labelBox objectCount
                       xId yId (cell_coord xId xStep downscalingFactor xMin)
                       (cell_coord yId yStep downscalingFactor yMin) abs 0%Z st')
                  (fun yId idx => exists a c, idx = [objectCount; xId; yId; a; c])
                  (fun yId t' => forall j ab, nth_error abs j = Some ab ->
                     labelled t' xId yId j ab)
                  (range yStart yEnd) (NoDup_range _ _)) as Hy.
    destruct (Hy) with (3 := Hcol) as [HQy Hfry]; clear Hy.
    + intros s1 yId s1' _ Hm.
      change 0%Z with (Z.of_nat 0) in Hm.
      apply match_anchors_writes in Hm. destruct Hm as (Hl & Hf & _).
      split; [exact Hl |].
      intros idx Hidx. apply Hf. intros a c E. apply Hidx. exists a, c. exact E.
    + intros y1 y2 t1 t2 _ _ Hne Hfr Hq j ab Hj.
      eapply labelled_frame; [| apply Hq; exact Hj].
      intros c. apply Hfr. intros (a' & c' & E). inversion E. congruence.
    + split.
      * intros yId j ab Hy Hj. apply HQy; [apply In_range; exact Hy | exact Hj].
      * intros idx Hidx. apply Hfry. intros y Hy (a & c & E).
        apply Hidx. exists y, a, c. apply In_range in Hy. split; assumption.
  - intros x1 x2 t1 t2 _ _ Hne Hfr Hq yId j ab Hy Hj.
    eapply labelled_frame; [| apply Hq; assumption].
    intros c. apply Hfr. intros (y' & a' & c' & _ & E). inversion E. congruence.
  - split.
    + intros xId yId j ab Hx Hy Hj. apply HQ; [apply In_range; exact Hx | |];
        assumption.
    + intros o x y a c Hout. cbn [s_tensor] in Hfr. apply Hfr.
      intros x' Hx' (y' & a' & c' & Hy' & E). inversion E; subst.
      apply In_range in Hx'. apply Hout. auto.
Qed.

(** The fallback writes at the best anchor only. *)
Lemma fallback_writes xSize ySize best bestId xId_0 yId_0 t t' :
  fallback downscalingFactor xStep yStep xMin yMin xSize ySize
    labelBox best objectCount bestId xId_0 yId_0 t = Returns t' ->
  forall o x y a c, a <> bestId ->
    data t' [o; x; y; a; c] = data t [o; x; y; a; c].
Proof.
  unfold fallback. intros H o x y a c Ha.
  eapply foldM_invariant
    with (I := fun s => data s [o; x; y; a; c] = data t [o; x; y; a; c])
         (3 := H); [| reflexivity].
  intros s dx s' Hs Hdx.
  eapply foldM_invariant
    with (I := fun s => data s [o; x; y; a; c] = data t [o; x; y; a; c])
         (3 := Hdx); [| exact Hs].
  intros s1 dy s1' Hs1 Hc. apply fallback_cell_Returns in Hc.
  destruct ((dx =? 0)%Z && (dy =? 0)%Z).
  - apply write_channels_Returns in Hc. destruct Hc as (_ & _ & Hf).
    rewrite Hf; [exact Hs1 |].
    intros k _ E. cbn [app] in E. inversion E. congruence.
  - destruct ((0 <=? xId_0 + dx)%Z && (xId_0 + dx <? xSize)%Z &&
              (0 <=? yId_0 + dy)%Z && (yId_0 + dy <? ySize)%Z).
    + apply mutable_at_Returns in Hc. destruct Hc as (_ & _ & _ & Hf).
      rewrite Hf; [exact Hs1 |]. intros E. inversion E. congruence.
    + inversion Hc; subst. exact Hs1.
Qed.
End SearchLabels.

(** X26. The labelling rule. For the [k]-th label box, a cell of its search
    window and an anchor: when the search found an anchor that is not below
    the positive threshold, or the anchor is not the best anchor, the
    returned tensor holds at this position the ten channels of a positive if
    the IOU of the anchor, placed at the cell, with the label box exceeds
    [positiveThreshold], and otherwise the label 0 if this IOU is below
    [negativeThreshold] and the label -1 if it is not. *)
Theorem search_window_labels :
  forall objectPositions objectDimensions objectYaws objectClassIds
         anchorDimensions anchorZHeights anchorYaws
         positiveThreshold negativeThreshold angle_threshold
         nbClasses downscalingFactor
         xStep yStep xMin xMax yMin yMax zMin zMax printTime T
         xSize ySize nbAnchors nbObjects anchorBoxes anchorDiagonals
         labelBoxes k lb offset xC yC maxIou' best bestId,
  createPillarsTarget objectPositions objectDimensions objectYaws
    objectClassIds anchorDimensions anchorZHeights anchorYaws
    positiveThreshold negativeThreshold angle_threshold nbClasses
    downscalingFactor xStep yStep xMin xMax yMin yMax zMin zMax printTime
    = Returns T ->
  target_setup objectPositions objectDimensions objectYaws objectClassIds
    anchorDimensions anchorZHeights anchorYaws downscalingFactor
    xStep yStep xMin xMax yMin yMax
    xSize ySize nbAnchors nbObjects anchorBoxes anchorDiagonals labelBoxes ->
  nth_error labelBoxes k = Some lb ->
  object_window lb downscalingFactor xStep yStep xMin yMin offset xC yC ->
  best_match angle_threshold downscalingFactor xStep yStep xMin yMin lb
    anchorBoxes
    (clip_int (xC - offset) 0 xSize) (clip_int (xC + offset) 0 xSize)
    (clip_int (yC - offset) 0 ySize) (clip_int (yC + offset) 0 ySize)
  = (maxIou', best, bestId) ->
  forall xId yId a ab,
    (clip_int (xC - offset) 0 xSize <= xId < clip_int (xC + offset) 0 xSize)%Z ->
    (clip_int (yC - offset) 0 ySize <= yId < clip_int (yC + offset) 0 ySize)%Z ->
    nth_error anchorBoxes a = Some ab ->
    fltb maxIou' positiveThreshold = false \/ Z.of_nat a <> bestId ->
    anchor_labelled positiveThreshold negativeThreshold lb
      (place ab (cell_coord xId xStep downscalingFactor xMin)
                (cell_coord yId yStep downscalingFactor yMin)
                (anchor_yaw angle_threshold lb ab))
      (nth a anchorDiagonals (Fin 0))
      T [Z.of_nat k; xId; yId; Z.of_nat a].
Proof.
  intros until bestId.
  intros H (HxS & HyS & HnA & HnO & HA & HL) Hnth (Ho & HxC & HyC) Hbest
         xId yId a ab Hx Hy Hab Hcase.
  apply target_object_slice in H.
  destruct H as (xSize' & ySize' & nbAnchors' & nbObjects' & anchorBoxes' &
                 anchorDiagonals' & labelBoxes' & HxS' & HyS' & HnA' & HnO' &
                 HA' & HL' & HsT & _ & Hk).
  rewrite HxS in HxS'. inversion HxS'; subst xSize'.
  rewrite HyS in HyS'. inversion HyS'; subst ySize'.
  rewrite HnA in HnA'. inversion HnA'; subst nbAnchors'.
  rewrite HnO in HnO'. inversion HnO'; subst nbObjects'.
  rewrite HA in HA'. inversion HA'; subst anchorBoxes' anchorDiagonals'.
  rewrite HL in HL'. inversion HL'; subst labelBoxes'.
  destruct (Hk k lb Hnth)
    as (Hin & offset' & xC' & yC' & tk & found & tk' & Ho' & HxC' & HyC' &
        Hsk & _ & Hs & Hfb & Hlast).
  rewrite Ho in Ho'. inversion Ho'; subst offset'.
  rewrite HxC in HxC'. inversion HxC'; subst xC'.
  rewrite HyC in HyC'. inversion HyC'; subst yC'.
  pose proof Hs as Ht. apply search_track in Ht. rewrite Hbest in Ht.
  pose proof Hs as Hw. apply search_writes in Hw. destruct Hw as [Hw _].
  specialize (Hw xId yId a ab Hx Hy Hab).
  destruct found as [ft fm fb fi]. unfold track in Ht.
  cbn [maxIou bestAnchor bestAnchorId s_tensor] in Ht, Hfb, Hw.
  inversion Ht; subst fm fb fi.
  assert (Hframe : forall c, data T [Z.of_nat k; xId; yId; Z.of_nat a; c]
                             = data ft [Z.of_nat k; xId; yId; Z.of_nat a; c]).
  { intros c. rewrite Hlast by reflexivity.
    destruct (fltb maxIou' positiveThreshold) eqn:E.
    - destruct Hcase as [Hc | Hc]; [discriminate |].
      eapply fallback_writes; [exact Hfb | exact Hc].
    - subst tk'. reflexivity. }
  revert Hw. unfold anchor_labelled. cbn [app].
  destruct (fgtb _ positiveThreshold).
  - intros Hw c Hc. rewrite Hframe. apply Hw. exact Hc.
  - rewrite Hframe. auto.
Qed.

(** X26, on the third example, for the anchor at the second cell. *)
Lemma search_window_labels_example :
  exists T, ex3_call = Returns T /\
    anchor_labelled (Fin (1/2)) (Fin (3/10)) ex_label
      (place ex_anchor0 (cell_coord 1 (Fin 4) 1 (Fin 0))
             (cell_coord 0 (Fin 4) 1 (Fin (-2)))
             (anchor_yaw (Fin (1/10)) ex_label ex_anchor0))
      (Fin 5) T [0; 1; 0; 0]%Z.
Proof.
  destruct ex3_returns as (T & H & _).
  exists T. split; [exact H |].
  unfold ex3_call in H.
  apply (@search_window_labels _ _ _ _ _ _ _ _ _ _ _ _ _ _ _ _ _ _ _ _ _ T
           _ _ _ _ _ _ _ 0%nat ex_label 2%Z 0%Z 0%Z _ _ _
           H ex3_setup eq_refl ex1_window ex3_best 1%Z 0%Z 0%nat ex_anchor0);
    [unfold clip_int; lia | unfold clip_int; lia | reflexivity |].
  left. exact ex3_above_threshold.
Defined.

(** X27. Outside the search window of an object its slice stays zero, when
    the search found an anchor that is not below the positive threshold, and
    at every anchor other than the best anchor otherwise. *)
Theorem outside_search_window_zero :
  forall objectPositions objectDimensions objectYaws objectClassIds
         anchorDimensions anchorZHeights anchorYaws
         positiveThreshold negativeThreshold angle_threshold
         nbClasses downscalingFactor
         xStep yStep xMin xMax yMin yMax zMin zMax printTime T
         xSize ySize nbAnchors nbObjects anchorBoxes anchorDiagonals
         labelBoxes k lb offset xC yC maxIou' best bestId,
  createPillarsTarget objectPositions objectDimensions objectYaws
    objectClassIds anchorDimensions anchorZHeights anchorYaws
    positiveThreshold negativeThreshold angle_threshold nbClasses
    downscalingFactor xStep yStep xMin xMax yMin yMax zMin zMax printTime
    = Returns T ->
  target_setup objectPositions objectDimensions objectYaws objectClassIds
    anchorDimensions anchorZHeights anchorYaws downscalingFactor
    xStep yStep xMin xMax yMin yMax
    xSize ySize nbAnchors nbObjects anchorBoxes anchorDiagonals labelBoxes ->
  nth_error labelBoxes k = Some lb ->
  object_window lb downscalingFactor xStep yStep xMin yMin offset xC yC ->
  best_match angle_threshold downscalingFactor xStep yStep xMin yMin lb
    anchorBoxes
    (clip_int (xC - offset) 0 xSize) (clip_int (xC + offset) 0 xSize)
    (clip_int (yC - offset) 0 ySize) (clip_int (yC + offset) 0 ySize)
  = (maxIou', best, bestId) ->
  forall x y a c,
    ~ ((clip_int (xC - offset) 0 xSize <= x < clip_int (xC + offset) 0 xSize)%Z
       /\ (clip_int (yC - offset) 0 ySize <= y
           < clip_int (yC + offset) 0 ySize)%Z) ->
    fltb maxIou' positiveThreshold = false \/ a <> bestId ->
    data T [Z.of_nat k; x; y; a; c] = Fin 0.
Proof.
  intros until bestId.
  intros H (HxS & HyS & HnA & HnO & HA & HL) Hnth (Ho & HxC & HyC) Hbest
         x y a c Hout Hcase.
  apply target_object_slice in H.
  destruct H as (xSize' & ySize' & nbAnchors' & nbObjects' & anchorBoxes' &
                 anchorDiagonals' & labelBoxes' & HxS' & HyS' & HnA' & HnO' &
                 HA' & HL' & HsT & _ & Hk).
  rewrite HxS in HxS'. inversion HxS'; subst xSize'.
  rewrite HyS in HyS'. inversion HyS'; subst ySize'.
  rewrite HnA in HnA'. inversion HnA'; subst nbAnchors'.
  rewrite HnO in HnO'. inversion HnO'; subst nbObjects'.
  rewrite HA in HA'. inversion HA'; subst anchorBoxes' anchorDiagonals'.
  rewrite HL in HL'. inversion HL'; subst labelBoxes'.
  destruct (Hk k lb Hnth)
    as (Hin & offset' & xC' & yC' & tk & found & tk' & Ho' & HxC' & HyC' &
        Hsk & Hz & Hs & Hfb & Hlast).
  rewrite Ho in Ho'. inversion Ho'; subst offset'.
  rewrite HxC in HxC'. inversion HxC'; subst xC'.
  rewrite HyC in HyC'. inversion HyC'; subst yC'.
  pose proof Hs as Ht. apply search_track in Ht. rewrite Hbest in Ht.
  pose proof Hs as Hw. apply search_writes in Hw. destruct Hw as [_ Hw].
  specialize (Hw (Z.of_nat k) x y a c ltac:(tauto)).
  destruct found as [ft fm fb fi]. unfold track in Ht.
  cbn [maxIou bestAnchor bestAnchorId s_tensor] in Ht, Hfb, Hw.
  inversion Ht; subst fm fb fi.
  rewrite Hlast by reflexivity.
  assert (E : data tk' [Z.of_nat k; x; y; a; c]
              = data ft [Z.of_nat k; x; y; a; c]).
  { destruct (fltb maxIou' positiveThreshold) eqn:E.
    - destruct Hcase as [Hc | Hc]; [discriminate |].
      eapply fallback_writes; [exact Hfb | exact Hc].
    - subst tk'. reflexivity. }
  rewrite E, Hw. apply Hz. reflexivity.
Qed.

(** X27, on the third example, for the fourth cell. *)
Lemma outside_search_window_zero_example :
  exists T, ex3_call = Returns T /\ data T [0; 3; 0; 0; 0]%Z = Fin 0.
Proof.
  destruct ex3_returns as (T & H & _).
  exists T. split; [exact H |].
  unfold ex3_call in H.
  apply (@outside_search_window_zero _ _ _ _ _ _ _ _ _ _ _ _ _ _ _ _ _ _ _ _
           _ T _ _ _ _ _ _ _ 0%nat ex_label 2%Z 0%Z 0%Z _ _ _
           H ex3_setup eq_refl ex1_window ex3_best 3%Z 0%Z 0%Z 0%Z).
  - unfold clip_int. lia.
  - left. exact ex3_above_threshold.
Defined.

(** ** The largest IOU of a search *)





Section LargestIou.
Variables (angle_threshold : float) (labelBox : BoundingBox3D).







End LargestIou.

(** ** Channel 7 of the positives *)



(** ** The cells around the home cell *)

Section FallbackNeighbourhood.
Variables (downscalingFactor : Z) (xStep yStep xMin yMin : float).
Variables (xSize ySize : Z).
Variables (labelBox best : BoundingBox3D) (objectCount bestId : Z).
Variables (xId_0 yId_0 : Z).

Let in_grid (dx dy : Z) : Prop :=
  (0 <= xId_0 + dx < xSize)%Z /\ (0 <= yId_0 + dy < ySize)%Z.
Let home : Z * Z :=
  (clip_int xId_0 0 (xSize - 1), clip_int yId_0 0 (ySize - 1)).

(** The positions written at the offset [(dx, dy)]. *)
Let touch (dx dy : Z) (idx : list Z) : Prop :=
  exists c,
    idx = [objectCount; clip_int (xId_0 + dx) 0 (xSize - 1);
           clip_int (yId_0 + dy) 0 (ySize - 1); bestId; c] /\
    ((dx = 0 /\ dy = 0)%Z \/ in_grid dx dy).

(** The cell at the offset [(dx, dy)], when it is in the grid and is not
    the home cell, is marked -1. *)
Let marked (dx dy : Z) (t : NdArray float) : Prop :=
  in_grid dx dy -> ((xId_0 + dx)%Z, (yId_0 + dy)%Z) <> home ->
  data t [objectCount; (xId_0 + dx)%Z; (yId_0 + dy)%Z; bestId; 0%Z]
  = Fin (-1).

Lemma fallback_cell_marks dx dy t t' :
  fallback_cell downscalingFactor xStep yStep xMin yMin xSize ySize
    labelBox best objectCount bestId xId_0 yId_0 dx t dy = Returns t' ->
  marked dx dy t' /\
  forall idx, ~ touch dx dy idx -> data t' idx = data t idx.
Proof.
  unfold marked, touch, in_grid, home. intros H.
  apply fallback_cell_Returns in H.
  destruct ((dx =? 0)%Z && (dy =? 0)%Z) eqn:E0.
  - apply andb_true_iff in E0. destruct E0 as [Ex Ey].
    apply Z.eqb_eq in Ex. apply Z.eqb_eq in Ey. subst dx dy.
    apply write_channels_Returns in H. destruct H as (_ & _ & Hf).
    split.
    + intros [Hx Hy] Hne. exfalso. apply Hne.
      unfold clip_int. f_equal; lia.
    + intros idx Hidx. apply Hf. intros k _ E. apply Hidx.
      eexists. split; [exact E | left; split; reflexivity].
  - destruct ((0 <=? xId_0 + dx)%Z && (xId_0 + dx <? xSize)%Z &&
              (0 <=? yId_0 + dy)%Z && (yId_0 + dy <? ySize)%Z) eqn:Eg.
    + assert (Hg : (0 <= xId_0 + dx < xSize)%Z /\ (0 <= yId_0 + dy < ySize)%Z).
      { repeat (apply andb_true_iff in Eg; destruct Eg as [Eg ?]). lia. }
      assert (Ecx : clip_int (xId_0 + dx) 0 (xSize - 1) = (xId_0 + dx)%Z)
        by (unfold clip_int; lia).
      assert (Ecy : clip_int (yId_0 + dy) 0 (ySize - 1) = (yId_0 + dy)%Z)
        by (unfold clip_int; lia).
      rewrite Ecx, Ecy in *.
      apply mutable_at_Returns in H. destruct H as (_ & _ & Hd & Hf).
      split; [intros _ _; exact Hd |].
      intros idx Hidx. apply Hf. intros E. apply Hidx.
      eexists. split; [exact E | right; exact Hg].
    + inversion H; subst. split; [| reflexivity].
      intros [Hx Hy] _. exfalso.
      assert (Eg' : ((0 <=? xId_0 + dx)%Z && (xId_0 + dx <? xSize)%Z &&
                     (0 <=? yId_0 + dy)%Z && (yId_0 + dy <? ySize)%Z) = true).
      { rewrite !andb_true_iff, !Z.leb_le, !Z.ltb_lt. lia. }
      congruence.
Qed.

(** A write at another offset leaves the mark of a cell. *)
Lemma marked_frame dx dy dx' dy' (t t' : NdArray float) :
  (dx', dy') <> (dx, dy) ->
  (forall idx, ~ touch dx' dy' idx -> data t' idx = data t idx) ->
  marked dx dy t -> marked dx dy t'.
Proof.
  unfold marked, touch, in_grid, home. intros Hne Hfr Hm Hg Hh.
  rewrite Hfr; [apply Hm; assumption |].
  intros (c & E & Hc). inversion E as [[Ex Ey]].
  destruct Hc as [[-> ->] | Hg'].
  - apply Hh. rewrite !Z.add_0_r in Ex, Ey. rewrite Ex, Ey. reflexivity.
  - apply Hne. unfold clip_int in Ex, Ey. f_equal; lia.
Qed.

Lemma fallback_marks t t' :
  fallback downscalingFactor xStep yStep xMin yMin xSize ySize
    labelBox best objectCount bestId xId_0 yId_0 t = Returns t' ->
  forall dx dy, (-2 <= dx <= 2)%Z -> (-2 <= dy <= 2)%Z -> marked dx dy t'.
Proof.
  unfold fallback. intros H.
  destruct (@foldM_writes _ _ (fun t : NdArray float => t)
              (fun t dx =>
                 foldM (fallback_cell downscalingFactor xStep yStep xMin yMin
                          xSize ySize labelBox best objectCount bestId
                          xId_0 yId_0 dx) (range (-2) 3) t)
              (fun dx idx => exists dy, In dy (range (-2) 3) /\ touch dx dy idx)
              (fun dx t => forall dy, In dy (range (-2) 3) -> marked dx dy t)
              (range (-2) 3) (NoDup_range _ _)) with (3 := H) as [HQ _].
  - intros s dx s' _ Hdx.
    destruct (@foldM_writes _ _ (fun t : NdArray float => t)
                (fallback_cell downscalingFactor xStep yStep xMin yMin
                   xSize ySize labelBox best objectCount bestId
                   xId_0 yId_0 dx)
                (fun dy idx => touch dx dy idx)
                (fun dy t => marked dx dy t)
                (range (-2) 3) (NoDup_range _ _)) with (3 := Hdx) as [HQy Hfy].
    + intros s1 dy s1' _ Hc. apply fallback_cell_marks. exact Hc.
    + intros dy1 dy2 t1 t2 _ _ Hne Hfr Hm.
      eapply marked_frame; [| exact Hfr | exact Hm]. congruence.
    + split; [exact HQy |].
      intros idx Hidx. apply Hfy. intros dy Hdy Ht. apply Hidx.
      exists dy. split; assumption.
  - intros dx1 dx2 t1 t2 _ _ Hne Hfr Hm dy Hdy.
    assert (Hstep : forall l (u u' : NdArray float),
              (forall idx, (forall dy', In dy' l -> ~ touch dx1 dy' idx) ->
                 data u' idx = data u idx) ->
              (forall dy', In dy' l -> (dx1, dy') <> (dx2, dy)) ->
              marked dx2 dy u -> marked dx2 dy u').
    { intros l u u' Hfu Hl Hu. unfold marked in *. intros Hg Hh.
      rewrite Hfu; [apply Hu; assumption |].
      intros dy' Hdy' (c & E & Hc). unfold in_grid, home in *.
      inversion E as [[Ex Ey]].
      destruct Hc as [[-> ->] | Hg'].
      - apply Hh. rewrite !Z.add_0_r in Ex, Ey. rewrite Ex, Ey. reflexivity.
      - apply (Hl dy' Hdy'). unfold clip_int in Ex, Ey. f_equal; lia. }
    apply (Hstep (range (-2) 3) t1 t2); [| | apply Hm; exact Hdy].
    + intros idx Hidx. apply Hfr. intros (dy' & Hdy' & Ht).
      exact (Hidx dy' Hdy' Ht).
    + intros dy' _ E. inversion E. congruence.
  - intros dx dy Hx Hy. apply HQ; apply In_range; lia.
Qed.
End FallbackNeighbourhood.

(** X28. When no anchor of the search window of an object reached
    [positiveThreshold], every cell of the grid at most two cells away from
    the cell index of the object, other than the home cell, holds the label
    -1 at the best anchor. *)
Theorem fallback_marks_the_neighbourhood :
  forall objectPositions objectDimensions objectYaws objectClassIds
         anchorDimensions anchorZHeights anchorYaws
         positiveThreshold negativeThreshold angle_threshold
         nbClasses downscalingFactor
         xStep yStep xMin xMax yMin yMax zMin zMax printTime T
         xSize ySize nbAnchors nbObjects anchorBoxes anchorDiagonals
         labelBoxes k lb offset xC yC maxIou' best bestId,
  createPillarsTarget objectPositions objectDimensions objectYaws
    objectClassIds anchorDimensions anchorZHeights anchorYaws
    positiveThreshold negativeThreshold angle_threshold nbClasses
    downscalingFactor xStep yStep xMin xMax yMin yMax zMin zMax printTime
    = Returns T ->
  target_setup objectPositions objectDimensions objectYaws objectClassIds
    anchorDimensions anchorZHeights anchorYaws downscalingFactor
    xStep yStep xMin xMax yMin yMax
    xSize ySize nbAnchors nbObjects anchorBoxes anchorDiagonals labelBoxes ->
  nth_error labelBoxes k = Some lb ->
  object_window lb downscalingFactor xStep yStep xMin yMin offset xC yC ->
  best_match angle_threshold downscalingFactor xStep yStep xMin yMin lb
    anchorBoxes
    (clip_int (xC - offset) 0 xSize) (clip_int (xC + offset) 0 xSize)
    (clip_int (yC - offset) 0 ySize) (clip_int (yC + offset) 0 ySize)
  = (maxIou', best, bestId) ->
  fltb maxIou' positiveThreshold = true ->
  forall dx dy,
    (-2 <= dx <= 2)%Z -> (-2 <= dy <= 2)%Z ->
    (0 <= xC + dx < xSize)%Z -> (0 <= yC + dy < ySize)%Z ->
    ((xC + dx)%Z, (yC + dy)%Z)
      <> (clip_int xC 0 (xSize - 1), clip_int yC 0 (ySize - 1)) ->
    data T [Z.of_nat k; (xC + dx)%Z; (yC + dy)%Z; bestId; 0%Z] = Fin (-1).
Proof.
  intros until bestId.
  intros H (HxS & HyS & HnA & HnO & HA & HL) Hnth (Ho & HxC & HyC) Hbest Hlt
         dx dy Hdx Hdy Hgx Hgy Hhome.
  apply target_object_slice in H.
  destruct H as (xSize' & ySize' & nbAnchors' & nbObjects' & anchorBoxes' &
                 anchorDiagonals' & labelBoxes' & HxS' & HyS' & HnA' & HnO' &
                 HA' & HL' & HsT & _ & Hk).
  rewrite HxS in HxS'. inversion HxS'; subst xSize'.
  rewrite HyS in HyS'. inversion HyS'; subst ySize'.
  rewrite HnA in HnA'. inversion HnA'; subst nbAnchors'.
  rewrite HnO in HnO'. inversion HnO'; subst nbObjects'.
  rewrite HA in HA'. inversion HA'; subst anchorBoxes' anchorDiagonals'.
  rewrite HL in HL'. inversion HL'; subst labelBoxes'.
  destruct (Hk k lb Hnth)
    as (Hin & offset' & xC' & yC' & tk & found & tk' & Ho' & HxC' & HyC' &
        Hsk & Hz & Hs & Hfb & Hlast).
  rewrite Ho in Ho'. inversion Ho'; subst offset'.
  rewrite HxC in HxC'. inversion HxC'; subst xC'.
  rewrite HyC in HyC'. inversion HyC'; subst yC'.
  pose proof Hs as Ht. apply search_track in Ht. rewrite Hbest in Ht.
  destruct found as [ft fm fb fi]. unfold track in Ht.
  cbn [maxIou bestAnchor bestAnchorId s_tensor] in Ht, Hfb.
  inversion Ht; subst fm fb fi. rewrite Hlt in Hfb.
  rewrite Hlast by reflexivity.
  apply (@fallback_marks downscalingFactor xStep yStep xMin yMin xSize ySize
           lb best (Z.of_nat k) bestId xC yC ft tk' Hfb dx dy Hdx Hdy);
    [split; assumption | exact Hhome].
Qed.

(** X28, on the first example, for the cell next to the home cell. *)
Lemma fallback_marks_the_neighbourhood_example :
  exists T, ex1_call = Returns T /\ data T [0; 1; 0; 0; 0]%Z = Fin (-1).
Proof.
  destruct ex1_returns as (T & H & _).
  exists T. split; [exact H |].
  unfold ex1_call in H.
  apply (@fallback_marks_the_neighbourhood _ _ _ _ _ _ _ _ _ _ _ _ _ _ _ _ _
           _ _ _ _ T _ _ _ _ _ _ _ 0%nat ex_label 2%Z 0%Z 0%Z _ _ _
           H ex1_setup eq_refl ex1_window ex1_best ex1_below_threshold
           1%Z 0%Z); try lia.
  unfold clip_int. intros E. inversion E.
Defined.

(** ** Calls of [createPillarsTarget] that return *)

Lemma parse_anchors_total anchorDimensions anchorZHeights anchorYaws
    nbAnchors (l : list Z) :
  shape anchorDimensions = [nbAnchors; 3%Z] ->
  shape anchorZHeights = [nbAnchors] -> shape anchorYaws = [nbAnchors] ->
  (forall i, In i l -> (0 <= i < nbAnchors)%Z) ->
  forall acc,
  foldM (parse_anchor anchorDimensions anchorZHeights anchorYaws) l acc
  = Returns (fst acc ++ map (row_anchor anchorDimensions anchorZHeights
                                        anchorYaws) l,
             snd acc ++ map (row_diagonal anchorDimensions) l).
Proof.
  intros HD HZ HY. induction l as [| i l IH]; intros Hl acc.
  - cbn [foldM map]. rewrite !app_nil_r. destruct acc; reflexivity.
  - cbn [foldM]. unfold parse_anchor at 1.
    assert (Hi : (0 <= i < nbAnchors)%Z) by (apply Hl; left; reflexivity).
    rewrite !(at_matrix _ HD Hi) by lia.
    rewrite (at_vector _ HZ Hi), (at_vector _ HY Hi). cbn [bind].
    rewrite IH by (intros j Hj; apply Hl; right; exact Hj).
    cbn [fst snd map]. rewrite <- !app_assoc. reflexivity.
Qed.

Lemma parse_labels_total
    objectPositions objectDimensions objectYaws objectClassIds
    xMin xMax yMin yMax nbObjects (l : list Z) :
  shape objectPositions = [nbObjects; 3%Z] ->
  shape objectDimensions = [nbObjects; 3%Z] ->
  shape objectYaws = [nbObjects] -> shape objectClassIds = [nbObjects] ->
  (forall i, In i l -> (0 <= i < nbObjects)%Z) ->
  forall acc,
  foldM (parse_label objectPositions objectDimensions objectYaws
           objectClassIds xMin xMax yMin yMax) l acc
  = Returns (acc ++
             map (row_box objectPositions objectDimensions objectYaws
                          objectClassIds)
                 (filter (row_in_range objectPositions xMin xMax yMin yMax) l)).
Proof.
  intros HP HD HY HC. induction l as [| i l IH]; intros Hl acc.
  - cbn [foldM filter map]. rewrite app_nil_r. reflexivity.
  - cbn [foldM filter]. unfold parse_label at 1.
    assert (Hi : (0 <= i < nbObjects)%Z) by (apply Hl; left; reflexivity).
    rewrite !(at_matrix _ HP Hi) by lia. cbn [bind].
    unfold row_in_range at 1.
    destruct (label_out_of_range _ _ xMin xMax yMin yMax); cbn [negb bind].
    + apply IH. intros j Hj; apply Hl; right; exact Hj.
    + rewrite !(at_matrix _ HD Hi) by lia.
      rewrite (at_vector _ HY Hi), (at_vector _ HC Hi). cbn [bind].
      rewrite IH by (intros j Hj; apply Hl; right; exact Hj).
      cbn [map]. rewrite <- app_assoc. reflexivity.
Qed.

(** A row of ten channels fits any position of the grid. *)
Lemma write_row_total (t : NdArray float) (nO xS yS nA oc x y a : Z)
    (row : list float) :
  shape t = [nO; xS; yS; nA; 10%Z] ->
  (0 <= oc < nO)%Z -> (0 <= x < xS)%Z -> (0 <= y < yS)%Z -> (0 <= a < nA)%Z ->
  List.length row = 10%nat ->
  exists t', write_channels t [oc; x; y; a] 0%Z row = Returns t' /\
             shape t' = shape t.
Proof.
  intros Hs Ho Hx Hy Ha Hlen. apply write_channels_total.
  intros k Hk. rewrite Hs. cbn [app]. apply in_bounds5; lia.
Qed.

Section TargetReturns.
Variables (positiveThreshold negativeThreshold angle_threshold : float).
Variables (downscalingFactor : Z).
Variables (xStep yStep xMin yMin : float).
Variables (xSize ySize nbObjects nbAnchors : Z).
Variable (anchorDiagonals : list float).
Variables (labelBox : BoundingBox3D) (objectCount : Z).

Hypothesis Hoc : (0 <= objectCount < nbObjects)%Z.

(** The tensor has the shape of the result and the best anchor is an
    anchor. *)
Let good (st : SearchState) : Prop :=
  shape (s_tensor st) = [nbObjects; xSize; ySize; nbAnchors; 10%Z] /\
  (0 <= bestAnchorId st < nbAnchors)%Z.

Lemma match_anchor_total xId yId x y st n ab :
  (0 <= xId < xSize)%Z -> (0 <= yId < ySize)%Z -> (0 <= n < nbAnchors)%Z ->
  good st ->
  exists st',
    match_anchor positiveThreshold negativeThreshold angle_threshold
      anchorDiagonals labelBox objectCount xId yId x y st n ab = Returns st' /\
    good st'.
Proof.
  intros Hx Hy Hn [Hs Hb]. unfold match_anchor.
  set (ab' := place ab x y _).
  set (st1 := if fltb (maxIou st) (iou ab' labelBox)
              then mkSearch (s_tensor st) (iou ab' labelBox) ab' n else st).
  assert (Hs1 : shape (s_tensor st1) = [nbObjects; xSize; ySize; nbAnchors; 10%Z]).
  { unfold st1. destruct (fltb _ _); exact Hs. }
  assert (Hb1 : (0 <= bestAnchorId st1 < nbAnchors)%Z).
  { unfold st1. destruct (fltb _ _); [exact Hn | exact Hb]. }
  assert (Hw : exists t',
    (if fgtb (iou ab' labelBox) positiveThreshold
     then write_channels (s_tensor st1) [objectCount; xId; yId; n] 0%Z
            (positive_row labelBox ab'
               (nth (Z.to_nat n) anchorDiagonals (Fin 0)))
     else if fltb (iou ab' labelBox) negativeThreshold
          then mutable_at (s_tensor st1) [objectCount; xId; yId; n; 0%Z] (Fin 0)
          else mutable_at (s_tensor st1) [objectCount; xId; yId; n; 0%Z]
                          (Fin (-1))) = Returns t' /\
    shape t' = shape (s_tensor st1)).
  { destruct (fgtb _ _).
    - eapply write_row_total; eauto.
    - destruct (fltb (iou ab' labelBox) negativeThreshold);
        apply mutable_at_total; rewrite Hs1; apply in_bounds5; lia. }
  destruct Hw as (t' & Et & St). rewrite Et. cbn [bind].
  eexists. split; [reflexivity |]. split; cbn [s_tensor bestAnchorId];
    [congruence | exact Hb1].
Qed.

Lemma match_anchors_total xId yId x y abs :
  (0 <= xId < xSize)%Z -> (0 <= yId < ySize)%Z ->
  forall n st,
  (0 <= n)%Z -> (n + Z.of_nat (List.length abs) <= nbAnchors)%Z -> good st ->
  exists st',
    match_anchors positiveThreshold negativeThreshold angle_threshold
      anchorDiagonals labelBox objectCount xId yId x y abs n st = Returns st' /\
    good st'.
Proof.
  intros Hx Hy. induction abs as [| ab abs IH]; intros n st Hn Hlen Hg.
  - exists st. split; [reflexivity | exact Hg].
  - cbn [match_anchors]. cbn [List.length] in Hlen.
    destruct (@match_anchor_total xId yId x y st n ab Hx Hy ltac:(lia) Hg)
      as (st1 & E1 & G1).
    rewrite E1. cbn [bind]. apply IH; [lia | lia | exact G1].
Qed.

Lemma search_total abs xStart xEnd yStart yEnd t :
  (0 <= xStart)%Z -> (xEnd <= xSize)%Z -> (0 <= yStart)%Z -> (yEnd <= ySize)%Z ->
  Z.of_nat (List.length abs) = nbAnchors -> (1 <= nbAnchors)%Z ->
  shape t = [nbObjects; xSize; ySize; nbAnchors; 10%Z] ->
  exists st,
    search positiveThreshold negativeThreshold angle_threshold
      downscalingFactor xStep yStep xMin yMin anchorDiagonals
      labelBox objectCount abs xStart xEnd yStart yEnd t = Returns st /\
    good st.
Proof.
  intros Hx0 Hx1 Hy0 Hy1 Hlen HnA Hs. unfold search.
  apply foldM_total with (I := good).
  - intros st xId HxId Hg. apply In_range in HxId. unfold search_column.
    apply foldM_total with (I := good); [| exact Hg].
    intros st1 yId HyId Hg1. apply In_range in HyId.
    apply match_anchors_total; try lia. exact Hg1.
  - split; cbn [s_tensor bestAnchorId]; [exact Hs | lia].
Qed.

Lemma fallback_total best bestId xId_0 yId_0 t :
  (1 <= xSize <= INT_MAX)%Z -> (1 <= ySize <= INT_MAX)%Z ->
  (0 <= bestId < nbAnchors)%Z ->
  fits_int (xId_0 - 2) -> fits_int (xId_0 + 2) ->
  fits_int (yId_0 - 2) -> fits_int (yId_0 + 2) ->
  shape t = [nbObjects; xSize; ySize; nbAnchors; 10%Z] ->
  exists t',
    fallback downscalingFactor xStep yStep xMin yMin xSize ySize
      labelBox best objectCount bestId xId_0 yId_0 t = Returns t' /\
    shape t' = [nbObjects; xSize; ySize; nbAnchors; 10%Z].
Proof.
  intros HxS HyS Hb Hx1 Hx2 Hy1 Hy2 Hs. unfold fallback.
  unfold fits_int, INT_MIN, INT_MAX in *.
  apply foldM_total
    with (I := fun s => shape s = [nbObjects; xSize; ySize; nbAnchors; 10%Z]);
    [| exact Hs].
  intros s dx Hdx Hsd. apply In_range in Hdx.
  apply foldM_total
    with (I := fun s => shape s = [nbObjects; xSize; ySize; nbAnchors; 10%Z]);
    [| exact Hsd].
  intros s1 dy Hdy Hs1. apply In_range in Hdy.
  unfold fallback_cell, int_add, int_sub.
  rewrite (@int_result_fits (xId_0 + dx)%Z)
    by (unfold INT_MIN, INT_MAX; lia).
  cbn [bind].
  rewrite (@int_result_fits (xSize - 1)%Z) by (unfold INT_MIN, INT_MAX; lia).
  cbn [bind].
  rewrite (@int_result_fits (yId_0 + dy)%Z)
    by (unfold INT_MIN, INT_MAX; lia).
  cbn [bind].
  rewrite (@int_result_fits (ySize - 1)%Z) by (unfold INT_MIN, INT_MAX; lia).
  cbn [bind]. cbv zeta.
  assert (Hcx : (0 <= clip_int (xId_0 + dx) 0 (xSize - 1) < xSize)%Z)
    by (unfold clip_int; lia).
  assert (Hcy : (0 <= clip_int (yId_0 + dy) 0 (ySize - 1) < ySize)%Z)
    by (unfold clip_int; lia).
  destruct ((dx =? 0)%Z && (dy =? 0)%Z).
  - destruct (@write_row_total s1 nbObjects xSize ySize nbAnchors objectCount
                (clip_int (xId_0 + dx) 0 (xSize - 1))
                (clip_int (yId_0 + dy) 0 (ySize - 1)) bestId
                (fallback_row downscalingFactor xStep yStep xMin yMin labelBox
                   best (clip_int (xId_0 + dx) 0 (xSize - 1))
                   (clip_int (yId_0 + dy) 0 (ySize - 1)))
                Hs1 Hoc Hcx Hcy Hb eq_refl) as (t' & E & S).
    exists t'. split; [exact E | congruence].
  - destruct ((0 <=? xId_0 + dx)%Z && (xId_0 + dx <? xSize)%Z &&
              (0 <=? yId_0 + dy)%Z && (yId_0 + dy <? ySize)%Z).
    + destruct (@mutable_at_total _ s1
                  [objectCount; clip_int (xId_0 + dx) 0 (xSize - 1);
                   clip_int (yId_0 + dy) 0 (ySize - 1); bestId; 0%Z]
                  (Fin (-1))) as (t' & E & S).
      { rewrite Hs1. apply in_bounds5; lia. }
      exists t'. split; [exact E | congruence].
    + exists s1. split; [reflexivity | exact Hs1].
Qed.

Lemma process_object_total abs t offset xC yC :
  (1 <= xSize <= INT_MAX)%Z -> (1 <= ySize <= INT_MAX)%Z ->
  Z.of_nat (List.length abs) = nbAnchors -> (1 <= nbAnchors)%Z ->
  shape t = [nbObjects; xSize; ySize; nbAnchors; 10%Z] ->
  object_window labelBox downscalingFactor xStep yStep xMin yMin
                offset xC yC ->
  window_fits_int offset xC yC ->
  exists t',
    process_object positiveThreshold negativeThreshold angle_threshold
      downscalingFactor xStep yStep xMin yMin xSize ySize anchorDiagonals
      abs (t, objectCount) labelBox = Returns (t', (objectCount + 1)%Z) /\
    shape t' = [nbObjects; xSize; ySize; nbAnchors; 10%Z].
Proof.
  intros HxS HyS Hlen HnA Hs (Hoff & HxC & HyC)
         (Fx1 & Fx2 & Fy1 & Fy2 & Gx1 & Gx2 & Gy1 & Gy2).
  unfold search_offset in Hoff. unfold home_index in HxC, HyC.
  unfold process_object. cbn [fst snd].
  rewrite Hoff, HxC, HyC. cbn [cast bind].
  unfold int_sub, int_add.
  rewrite (@int_result_fits (xC - offset)%Z) by exact Fx1. cbn [bind].
  rewrite (@int_result_fits (xC + offset)%Z) by exact Fx2. cbn [bind].
  rewrite (@int_result_fits (yC - offset)%Z) by exact Fy1. cbn [bind].
  rewrite (@int_result_fits (yC + offset)%Z) by exact Fy2. cbn [bind].
  cbv zeta.
  destruct (@search_total abs
              (clip_int (xC - offset) 0 xSize) (clip_int (xC + offset) 0 xSize)
              (clip_int (yC - offset) 0 ySize) (clip_int (yC + offset) 0 ySize)
              t) as (found & Ef & [Hsf Hbf]);
    try (unfold clip_int; lia); try assumption.
  rewrite Ef. cbn [bind].
  destruct (fltb (maxIou found) positiveThreshold).
  - cbn [cast bind].
    destruct (@fallback_total (bestAnchor found) (bestAnchorId found) xC yC
                (s_tensor found) HxS HyS Hbf Gx1 Gx2 Gy1 Gy2 Hsf)
      as (t' & E & S).
    rewrite E. cbn [bind]. exists t'. split; [reflexivity | exact S].
  - cbn [bind]. exists (s_tensor found). split; [reflexivity | exact Hsf].
Qed.
End TargetReturns.

(** X29. [createPillarsTarget] returns a tensor of shape (nbObjects, xSize,
    ySize, nbAnchors, 10) when the arrays have the shapes (n, 3), (n), (m,
    3) and (m) with n and m at least 1, the grid has at least one cell in
    each direction, the bound [nbObjects * xSize * ySize * nbAnchors * 10]
    of the zeroing loop fits an [int], and for every object inside the
    bounds the window and the home cell are defined and the sums and
    differences [xC - offset], [xC + offset], [yC - offset], [yC + offset],
    [xC - 2], [xC + 2], [yC - 2], [yC + 2] fit an [int]: no index is out of
    range. *)
Theorem createPillarsTarget_returns
    objectPositions objectDimensions objectYaws objectClassIds
    anchorDimensions anchorZHeights anchorYaws
    positiveThreshold negativeThreshold angle_threshold
    nbClasses downscalingFactor
    xStep yStep xMin xMax yMin yMax zMin zMax printTime
    xSize ySize nbAnchors nbObjects :
  shape objectPositions = [nbObjects; 3%Z] ->
  shape objectDimensions = [nbObjects; 3%Z] ->
  shape objectYaws = [nbObjects] -> shape objectClassIds = [nbObjects] ->
  shape anchorDimensions = [nbAnchors; 3%Z] ->
  shape anchorZHeights = [nbAnchors] -> shape anchorYaws = [nbAnchors] ->
  (1 <= nbObjects)%Z -> (1 <= nbAnchors)%Z ->
  home_index xMax xMin xStep downscalingFactor = Some xSize ->
  home_index yMax yMin yStep downscalingFactor = Some ySize ->
  (1 <= xSize)%Z -> (1 <= ySize)%Z ->
  (nbObjects * xSize * ySize * nbAnchors * 10 <= INT_MAX)%Z ->
  (forall i, (0 <= i < nbObjects)%Z ->
     row_in_range objectPositions xMin xMax yMin yMax i = true ->
     exists offset xC yC,
       object_window (row_box objectPositions objectDimensions objectYaws
                              objectClassIds i)
                     downscalingFactor xStep yStep xMin yMin offset xC yC /\
       window_fits_int offset xC yC) ->
  exists T,
    createPillarsTarget objectPositions objectDimensions objectYaws
      objectClassIds anchorDimensions anchorZHeights anchorYaws
      positiveThreshold negativeThreshold angle_threshold nbClasses
      downscalingFactor xStep yStep xMin xMax yMin yMax zMin zMax printTime
    = Returns T /\
    shape T = [nbObjects; xSize; ySize; nbAnchors; 10]%Z.
Proof.
  intros HP HD HY HC HAD HAZ HAY HnO HnA HxS HyS Hx1 Hy1 Hfit Hwin.
  unfold home_index in HxS, HyS.
  assert (Hp2 : (1 <= nbObjects * xSize)%Z) by nia.
  assert (Hp3 : (1 <= nbObjects * xSize * ySize)%Z) by nia.
  assert (Hp4 : (1 <= nbObjects * xSize * ySize * nbAnchors)%Z) by nia.
  assert (Hq4 : (nbObjects * xSize * ySize * nbAnchors <= INT_MAX)%Z) by lia.
  assert (Hq3 : (nbObjects * xSize * ySize <= INT_MAX)%Z) by nia.
  assert (Hq2 : (nbObjects * xSize <= INT_MAX)%Z) by nia.
  assert (HxM : (xSize <= INT_MAX)%Z) by nia.
  assert (HyM : (ySize <= INT_MAX)%Z) by nia.
  assert (Hzero :
            resize_zeros (Fin 0) [nbObjects; xSize; ySize; nbAnchors; 10]%Z
            = Returns (mkArray [nbObjects; xSize; ySize; nbAnchors; 10]%Z
                               (fun _ => Fin 0))).
  { apply resize_zeros_total
      with (bound := (nbObjects * xSize * ySize * nbAnchors * 10)%Z).
    - cbn [In]. intros n Hn. lia.
    - unfold int_product, foldM, int_mul.
      rewrite (@int_result_fits (nbObjects * xSize)%Z)
        by (unfold INT_MIN; lia).
      cbn [bind].
      rewrite (@int_result_fits (nbObjects * xSize * ySize)%Z)
        by (unfold INT_MIN; lia).
      cbn [bind].
      rewrite (@int_result_fits (nbObjects * xSize * ySize * nbAnchors)%Z)
        by (unfold INT_MIN; lia).
      cbn [bind].
      rewrite (@int_result_fits
                 (nbObjects * xSize * ySize * nbAnchors * 10)%Z)
        by (unfold INT_MIN; lia).
      reflexivity. }
  unfold createPillarsTarget, shape_at. rewrite HxS, HyS, HAD, HD.
  cbn [cast bind nth_error].
  rewrite (proj2 (Z.leb_gt nbAnchors 0)), (proj2 (Z.leb_gt nbObjects 0)) by lia.
  rewrite (@parse_anchors_total anchorDimensions anchorZHeights anchorYaws
             nbAnchors (range 0 nbAnchors) HAD HAZ HAY)
    by (intros i Hi; apply In_range in Hi; lia).
  rewrite (@parse_labels_total objectPositions objectDimensions objectYaws
             objectClassIds xMin xMax yMin yMax nbObjects (range 0 nbObjects)
             HP HD HY HC)
    by (intros i Hi; apply In_range in Hi; lia).
  cbn [bind fst snd app].
  rewrite Hzero. cbn [bind].
  set (inside := filter (row_in_range objectPositions xMin xMax yMin yMax)
                        (range 0 nbObjects)).
  set (labelBoxes := map (row_box objectPositions objectDimensions objectYaws
                                  objectClassIds) inside).
  set (anchorBoxes := map (row_anchor anchorDimensions anchorZHeights
                                      anchorYaws) (range 0 nbAnchors)).
  set (T0 := mkArray [nbObjects; xSize; ySize; nbAnchors; 10%Z]
                     (fun _ : list Z => Fin 0)).
  assert (Hlen : (Z.of_nat (List.length labelBoxes) <= nbObjects)%Z).
  { unfold labelBoxes, inside. rewrite length_map.
    pose proof (filter_length_le
                  (row_in_range objectPositions xMin xMax yMin yMax)
                  (range 0 nbObjects)) as Hf.
    rewrite range_length in Hf. lia. }
  assert (HlenA : Z.of_nat (List.length anchorBoxes) = nbAnchors).
  { unfold anchorBoxes. rewrite length_map, range_length. lia. }
  assert (Hwin' : forall lb, In lb labelBoxes ->
            exists offset xC yC,
              object_window lb downscalingFactor xStep yStep xMin yMin
                            offset xC yC /\
              window_fits_int offset xC yC).
  { intros lb Hlb. unfold labelBoxes in Hlb. apply in_map_iff in Hlb.
    destruct Hlb as (i & <- & Hi). unfold inside in Hi.
    apply filter_In in Hi. destruct Hi as [Hi Hr]. apply In_range in Hi.
    apply Hwin; [lia | exact Hr]. }
  clearbody labelBoxes anchorBoxes.
  assert (Hloop : forall lbs c t,
            (forall lb, In lb lbs -> In lb labelBoxes) ->
            (0 <= c)%Z -> (c + Z.of_nat (List.length lbs) <= nbObjects)%Z ->
            shape t = [nbObjects; xSize; ySize; nbAnchors; 10%Z] ->
            exists t' c',
              foldM (process_object positiveThreshold negativeThreshold
                       angle_threshold downscalingFactor xStep yStep xMin yMin
                       xSize ySize
                       (map (row_diagonal anchorDimensions)
                            (range 0 nbAnchors)) anchorBoxes)
                    lbs (t, c) = Returns (t', c') /\
              shape t' = [nbObjects; xSize; ySize; nbAnchors; 10%Z]).
  { induction lbs as [| lb lbs IH]; intros c t Hin Hc Hn Hs.
    - exists t, c. split; [reflexivity | exact Hs].
    - cbn [foldM]. cbn [List.length] in Hn.
      destruct (Hwin' lb (Hin lb (or_introl eq_refl)))
        as (offset & xC & yC & Hw & Hf).
      destruct (@process_object_total positiveThreshold negativeThreshold
                  angle_threshold downscalingFactor xStep yStep xMin yMin
                  xSize ySize nbObjects nbAnchors
                  (map (row_diagonal anchorDimensions) (range 0 nbAnchors))
                  lb c ltac:(lia) anchorBoxes t offset xC yC
                  (conj Hx1 HxM) (conj Hy1 HyM) HlenA HnA Hs Hw Hf)
        as (t1 & E1 & S1).
      rewrite E1. cbn [bind].
      apply IH; [intros lb' Hlb'; apply Hin; right; exact Hlb' | lia | lia
                | exact S1]. }
  destruct (Hloop labelBoxes 0%Z T0 (fun _ H => H) ltac:(lia) ltac:(lia)
                  eq_refl) as (T & c' & E & S).
  rewrite E. cbn [bind fst]. exists T. split; [reflexivity | exact S].
Qed.

(** X29, on the third example. *)
Lemma createPillarsTarget_returns_example :
  exists T, ex3_call = Returns T /\ shape T = [1; 4; 1; 1; 10]%Z.
Proof.
  destruct ex3_setup as (HxS & HyS & _).
  unfold ex3_call.
  apply (@createPillarsTarget_returns ex1_positions ex1_dimensions ex1_yaws
           ex1_classIds ex_anchorDimensions ex_anchorZHeights ex_anchorYaws
           (Fin (1/2)) (Fin (3/10)) (Fin (1/10)) 1 1
           (Fin 4) (Fin 4) (Fin 0) (Fin 16) (Fin (-2)) (Fin 2) (Fin (-1))
           (Fin 1) false 4 1 1 1);
    try reflexivity; try lia; try assumption;
    [vm_compute; discriminate |].
  intros i Hi _. replace i with 0%Z by lia. rewrite ex3_row_box.
  exists 2%Z, 0%Z, 0%Z. split; [exact ex1_window |].
  unfold window_fits_int, fits_int, INT_MIN, INT_MAX. lia.
Defined.
